(** * Star-schema warehouse ETL and SCD Type 2 updates

    A shallow embedding of [week2-sql/scd_examples.py] (class [SCDManager])
    and [week2-sql/create_data_warehouse.py] (class [DataWarehouseETL]).

    - SQL tables are lists of row records, in rowid order.
    - A [sqlite3] connection is a pair of warehouses: what is committed to
      the database file and what the connection sees (committed rows plus
      the open transaction).
    - Python code that prints, reads the clock, raises and returns early is
      written in a state-and-exception monad over that connection.
    - [datetime] values are proleptic Gregorian dates; date columns hold the
      strings the scripts store, parsed and formatted as
      [strptime]/[strftime] do for ['%Y-%m-%d'] on Linux, where [%Y] writes
      a year below 1000 without padding.
    - Text is ASCII: the digits [strptime] and [int] accept and the white
      space [str.strip] and [int] skip are those of ASCII; the decimal digits
      and spaces of other scripts, which Python accepts as well, are outside
      the strings modelled.
    - A library call (a statement, a file read, a query) either has its
      effect or raises, as a run's [faults] say.  When a statement of
      [update_customer_tier] fails inside a transaction, the engine undoes
      that statement alone or rolls the transaction back, as a run's
      [reaction] says; [update_customer_tier] is the function in the runs
      of the first kind, [update_customer_tier_under] in all.
    - Columns hold the values the loaders write (no NULL but in the keys a
      left merge leaves unresolved); integers are unbounded; the result sets
      of the display and sample queries are not modelled. *)

From Stdlib Require Import ZArith List String Ascii Bool Lia ZifyBool Floats.
From Stdlib Require Import Permutation Sorted.
Import ListNotations.

Open Scope string_scope.
Open Scope list_scope.
Open Scope Z_scope.

(* ====================================================================== *)
(** * Python's [datetime] on calendar dates *)
(* ====================================================================== *)

Module Calendar.

Record date : Type := mkDate { year : Z; month : Z; day : Z }.

(** [datetime.MINYEAR] and [datetime.MAXYEAR]. *)
Definition MINYEAR : Z := 1.
Definition MAXYEAR : Z := 9999.

Definition is_leap (y : Z) : bool :=
  (y mod 4 =? 0) && (negb (y mod 100 =? 0) || (y mod 400 =? 0)).

Definition days_in_month (y m : Z) : Z :=
  match m with
  | 1 => 31 | 2 => if is_leap y then 29 else 28 | 3 => 31 | 4 => 30
  | 5 => 31 | 6 => 30 | 7 => 31 | 8 => 31 | 9 => 30 | 10 => 31
  | 11 => 30 | 12 => 31
  | _ => 0
  end.

(** The check the [datetime] constructor performs. *)
Definition valid_date (d : date) : bool :=
  (MINYEAR <=? year d) && (year d <=? MAXYEAR) &&
  (1 <=? month d) && (month d <=? 12) &&
  (1 <=? day d) && (day d <=? days_in_month (year d) (month d)).

(** Number of days before January 1st of year [y]. *)
Definition days_before_year (y : Z) : Z :=
  let p := y - 1 in p * 365 + p / 4 - p / 100 + p / 400.

(** Number of days in year [y] before the first day of month [m]. *)
Definition days_before_month (y m : Z) : Z :=
  let base :=
    match m with
    | 1 => 0 | 2 => 31 | 3 => 59 | 4 => 90 | 5 => 120 | 6 => 151
    | 7 => 181 | 8 => 212 | 9 => 243 | 10 => 273 | 11 => 304 | 12 => 334
    | _ => 0
    end in
  if (2 <? m) && is_leap y then base + 1 else base.

(** [date.toordinal()]: 0001-01-01 is day 1. *)
Definition toordinal (d : date) : Z :=
  days_before_year (year d) + days_before_month (year d) (month d) + day d.

(** [date.weekday()]: Monday is 0. *)
Definition weekday (d : date) : Z := (toordinal d + 6) mod 7.

(** [d - timedelta(days=1)]; [None] is Python's [OverflowError]. *)
Definition pred_day (d : date) : option date :=
  if 1 <? day d then Some (mkDate (year d) (month d) (day d - 1))
  else if 1 <? month d then
    Some (mkDate (year d) (month d - 1) (days_in_month (year d) (month d - 1)))
  else if MINYEAR <? year d then Some (mkDate (year d - 1) 12 31)
  else None.

(** [d + timedelta(days=1)]; [None] is Python's [OverflowError]. *)
Definition next_day (d : date) : option date :=
  if day d <? days_in_month (year d) (month d) then
    Some (mkDate (year d) (month d) (day d + 1))
  else if month d <? 12 then Some (mkDate (year d) (month d + 1) 1)
  else if year d <? MAXYEAR then Some (mkDate (year d + 1) 1 1)
  else None.

(** ** [strptime(s, '%Y-%m-%d')] and [strftime('%Y-%m-%d')] *)

Definition digit_of_ascii (c : ascii) : option Z :=
  let n := Z.of_N (N_of_ascii c) in
  if (48 <=? n) && (n <=? 57) then Some (n - 48) else None.

Definition ascii_of_digit (n : Z) : ascii := ascii_of_N (Z.to_N (48 + n)).

Definition is_dash (c : ascii) : bool := Ascii.eqb c "-"%char.
Definition is_space (c : ascii) : bool := Ascii.eqb c " "%char.

(** [%Y] is the pattern [\d\d\d\d], here on ASCII digits. *)
Definition parse_Y (s : string) : option (Z * string) :=
  match s with
  | String a (String b (String c (String d rest))) =>
      match digit_of_ascii a, digit_of_ascii b, digit_of_ascii c, digit_of_ascii d with
      | Some a, Some b, Some c, Some d =>
          Some (1000 * a + 100 * b + 10 * c + d, rest)
      | _, _, _, _ => None
      end
  | _ => None
  end.

Definition expect_dash (s : string) : option string :=
  match s with
  | String c rest => if is_dash c then Some rest else None
  | EmptyString => None
  end.

(** [%m] is the pattern [1[0-2]|0[1-9]|[1-9]]; the alternatives are tried in
    that order and one is kept only if a dash follows it. *)
Definition parse_m (s : string) : option (Z * string) :=
  let two :=
    match s with
    | String a (String b rest) =>
        match digit_of_ascii a, digit_of_ascii b, expect_dash rest with
        | Some 1, Some b, Some rest' =>
            if b <=? 2 then Some (10 + b, rest') else None
        | Some 0, Some b, Some rest' =>
            if 1 <=? b then Some (b, rest') else None
        | _, _, _ => None
        end
    | _ => None
    end in
  match two with
  | Some r => Some r
  | None =>
      match s with
      | String a rest =>
          match digit_of_ascii a, expect_dash rest with
          | Some a, Some rest' => if 1 <=? a then Some (a, rest') else None
          | _, _ => None
          end
      | EmptyString => None
      end
  end.

(** [%d] is the pattern [3[0-1]|[1-2]\d|0[1-9]|[1-9]| [1-9]]; it comes last in
    the format, so the alternative that matches has to use up the string
    (otherwise [strptime] raises "unconverted data remains"). *)
Definition parse_d (s : string) : option Z :=
  match s with
  | String a (String b EmptyString) =>
      match digit_of_ascii a, digit_of_ascii b with
      | Some 3, Some b => if b <=? 1 then Some (30 + b) else None
      | Some 1, Some b => Some (10 + b)
      | Some 2, Some b => Some (20 + b)
      | Some 0, Some b => if 1 <=? b then Some b else None
      | None, Some b => if is_space a && (1 <=? b) then Some b else None
      | _, _ => None
      end
  | String a EmptyString =>
      match digit_of_ascii a with
      | Some a => if 1 <=? a then Some a else None
      | None => None
      end
  | _ => None
  end.

(** [datetime.strptime(s, '%Y-%m-%d')], as a date; [None] is [ValueError]. *)
Definition strptime (s : string) : option date :=
  match parse_Y s with
  | Some (y, s1) =>
      match expect_dash s1 with
      | Some s2 =>
          match parse_m s2 with
          | Some (m, s3) =>
              match parse_d s3 with
              | Some d =>
                  let r := mkDate y m d in
                  if valid_date r then Some r else None
              | None => None
              end
          | None => None
          end
      | None => None
      end
  | None => None
  end.

Definition pad2 (n : Z) : string :=
  String (ascii_of_digit (n / 10)) (String (ascii_of_digit (n mod 10)) "").

Definition pad4 (n : Z) : string :=
  String (ascii_of_digit (n / 1000))
    (String (ascii_of_digit ((n / 100) mod 10))
       (String (ascii_of_digit ((n / 10) mod 10))
          (String (ascii_of_digit (n mod 10)) ""))).

(** [%Y] of [strftime] as the C library of Linux writes it: the year in
    decimal without padding, so four digits from the year 1000 on and fewer
    before ('999' for the year 999). *)
Definition fmt_Y (n : Z) : string :=
  if n <? 10 then String (ascii_of_digit n) ""
  else if n <? 100 then pad2 n
  else if n <? 1000 then
    String (ascii_of_digit (n / 100))
      (String (ascii_of_digit ((n / 10) mod 10))
         (String (ascii_of_digit (n mod 10)) ""))
  else pad4 n.

(** [d.strftime('%Y-%m-%d')]. *)
Definition strftime (d : date) : string :=
  (fmt_Y (year d) ++ "-" ++ pad2 (month d) ++ "-" ++ pad2 (day d))%string.

(** [int(d.strftime('%Y%m%d'))]. *)
Definition yyyymmdd (d : date) : Z := year d * 10000 + month d * 100 + day d.

End Calendar.

Import Calendar.

(* ====================================================================== *)
(** * Tables of the warehouse and of the source database *)
(* ====================================================================== *)

(** A row of [dim_customer], the Type 2 dimension. *)
Record customer_row : Type := mkCustomer {
  customer_key : Z;
  customer_id : Z;
  first_name : string;
  last_name : string;
  email : string;
  phone : string;
  city : string;
  state : string;
  customer_tier : string;
  registration_date : string;
  valid_from : string;
  valid_to : string;
  is_current : Z;
  created_at : string;
  updated_at : string
}.

(** Rows of [dim_date], as [load_dim_date] builds them. *)
Module DimDate.
Record row : Type := mkRow {
  date_key : Z;
  full_date : string;
  year : Z;
  quarter : Z;
  month : Z;
  month_name : string;
  week_of_year : Z;
  day_of_year : Z;
  day_of_month : Z;
  day_of_week : Z;
  day_name : string;
  is_weekend : Z;
  is_holiday : Z;
  fiscal_year : Z;
  fiscal_quarter : Z
}.
End DimDate.

Module DimProduct.
Record row : Type := mkRow {
  product_key : Z;
  product_id : Z;
  product_name : string;
  category_id : Z;
  category_name : string;
  category_description : string;
  unit_price : float;
  is_active : Z;
  created_at : string;
  updated_at : string
}.
End DimProduct.

Module DimOrderStatus.
Record row : Type := mkRow {
  status_code : string;
  status_name : string;
  status_description : string;
  is_final_state : Z
}.
End DimOrderStatus.

Module DimPaymentMethod.
Record row : Type := mkRow {
  payment_method_code : string;
  payment_method_name : string;
  processing_fee_pct : float
}.
End DimPaymentMethod.

(** A row of [fact_sales]: the columns [load_fact_sales] writes.  A key that a
    left merge or a mapping did not resolve is NULL, here [None]. *)
Module Fact.
Record row : Type := mkRow {
  date_key : Z;
  customer_key : option Z;
  product_key : option Z;
  status_key : option Z;
  payment_method_key : option Z;
  order_id : Z;
  order_item_id : Z;
  quantity : Z;
  unit_price : float;
  line_total : float;
  discount_amount : float;
  tax_amount : float;
  net_revenue : float
}.
End Fact.

Record warehouse : Type := mkWarehouse {
  dim_date : list DimDate.row;
  dim_customer : list customer_row;
  dim_product : list DimProduct.row;
  dim_order_status : list DimOrderStatus.row;
  dim_payment_method : list DimPaymentMethod.row;
  fact_sales : list Fact.row
}.

(** The operational database [sales_analytics.db] that [setup_database.py]
    creates: the tables the ETL reads. *)
Module Src.
Record category : Type := mkCategory {
  category_id : Z;
  category_name : string;
  description : string
}.
Record product : Type := mkProduct {
  product_id : Z;
  product_name : string;
  p_category_id : Z;
  unit_price : float;
  stock_quantity : Z;
  is_active : Z
}.
Record customer : Type := mkCustomer {
  customer_id : Z;
  first_name : string;
  last_name : string;
  email : string;
  phone : string;
  city : string;
  state : string;
  registration_date : string;
  customer_tier : string
}.
Record order : Type := mkOrder {
  order_id : Z;
  o_customer_id : Z;
  order_date : string;
  ship_date : option string;
  order_status : string;
  total_amount : float
}.
Record order_item : Type := mkOrderItem {
  order_item_id : Z;
  oi_order_id : Z;
  oi_product_id : Z;
  quantity : Z;
  oi_unit_price : float;
  line_total : float
}.
Record db : Type := mkDb {
  categories : list category;
  products : list product;
  customers : list customer;
  orders : list order;
  order_items : list order_item
}.
End Src.

Inductive table : Type :=
| TDimDate | TDimCustomer | TDimProduct | TDimOrderStatus
| TDimPaymentMethod | TFactSales.

(* ====================================================================== *)
(** * Exceptions, output and the connection *)
(* ====================================================================== *)

Inductive exn : Type :=
| FileNotFoundError (msg : string)
| ValueError (msg : string)
| OverflowError
| EOFError
| DatabaseError (msg : string)
| KeyboardInterrupt.

(** Whether [except Exception] catches it: [KeyboardInterrupt] derives from
    [BaseException] only. *)
Definition is_Exception (e : exn) : bool :=
  match e with
  | KeyboardInterrupt => false
  | _ => true
  end.

(** What the scripts print, one constructor per message. *)
Inductive line : Type :=
| LUpdating (customer_id : Z) (new_tier effective_date : string)
| LNotFound (customer_id : Z)
| LTiers (current_tier new_tier : string)
| LNoChange
| LClosedOld (key : Z) (yesterday : string)
| LCreatedNew (key : Z) (effective_date new_tier : string)
| LScdCompleted
| LSourceMissing
| LConnected
| LMenu
| LInvalidChoice
| LEtlBanner
| LSchemaCreated
| LLoading (t : table)
| LSkipping (t : table) (count : Z)
| LLoaded (t : table) (count : Z)
| LExtracted (count : Z)
| LVerifyCount (t : table) (count : Z)
| LEtlCompleted
| LEtlFailed (e : exn)
| LTraceback (e : exn)
| LQueryResults
| LConnectionsClosed.

(** The places where a library call can raise: a statement the engine
    rejects, a file that is missing, an interrupted read. *)
Inductive site : Type :=
| SSelectCurrent | SUpdateClose | SInsertVersion | SCommit
| SOpenSchema | SExecScript
| SCount (t : table) | SExtract (t : table) | SLookup (t : table)
| SToSql (t : table)
| SQueries | SCloseConn.

(** Which calls fail in a run, and with what. *)
Definition faults : Type := site -> option exn.

(** Every library call succeeds. *)
Definition reliable : faults := fun _ => None.

(** What [datetime.now()] returns at each place the scripts read it. *)
Record clock : Type := mkClock {
  today : date;
  stamp_closed : string;
  stamp_created : string;
  stamp_updated : string
}.

(** One [sqlite3] connection to [data_warehouse.db] with the terminal:
    [committed] is the database file, [pending] what statements on the
    connection read and write; they differ while a transaction is open. *)
Record world : Type := mkWorld {
  committed : warehouse;
  pending : warehouse;
  stdout : list line;
  stdin : list string
}.

Inductive outcome (A : Type) : Type :=
| Ret (a : A)
| Raise (e : exn).
Arguments Ret {A} a.
Arguments Raise {A} e.

Definition M (A : Type) : Type := world -> outcome A * world.

Definition ret {A} (a : A) : M A := fun w => (Ret a, w).

Definition raise {A} (e : exn) : M A := fun w => (Raise e, w).

Definition bind {A B} (m : M A) (f : A -> M B) : M B :=
  fun w =>
    match m w with
    | (Ret a, w') => f a w'
    | (Raise e, w') => (Raise e, w')
    end.

Declare Scope py_scope.
Delimit Scope py_scope with py.
Notation "x <- m ;; k" := (bind m (fun x => k))
  (at level 61, m at next level, right associativity) : py_scope.
Notation "m ;; k" := (bind m (fun _ => k))
  (at level 61, right associativity) : py_scope.
Open Scope py_scope.

(** [try: body  except Exception as e: handler e]. *)
Definition try_except {A} (body : M A) (handler : exn -> M A) : M A :=
  fun w =>
    match body w with
    | (Ret a, w') => (Ret a, w')
    | (Raise e, w') => if is_Exception e then handler e w' else (Raise e, w')
    end.

Definition print (l : line) : M unit :=
  fun w => (Ret tt, mkWorld (committed w) (pending w) (stdout w ++ [l]) (stdin w)).

(** [input()]: the next line of the terminal, [EOFError] at its end. *)
Definition input : M string :=
  fun w =>
    match stdin w with
    | [] => (Raise EOFError, w)
    | s :: rest =>
        (Ret s, mkWorld (committed w) (pending w) (stdout w) rest)
    end.

(** A library call at site [s]: raises when the run has a fault there. *)
Definition call (f : faults) (s : site) : M unit :=
  match f s with
  | Some e => raise e
  | None => ret tt
  end.

(** How SQLite leaves the open transaction when a statement fails.  It undoes
    the failing statement alone, as for a constraint violation, or it rolls
    the whole transaction back, as it may for "database or disk is full", a
    disk I/O error or want of memory.  [r s] says which, for the call at site
    [s] of a run: set, the transaction is rolled back. *)
Definition reaction : Type := site -> bool.

(** The engine undoes the failing statement alone. *)
Definition statement_level : reaction := fun _ => false.

(** The transaction is rolled back: the connection sees the database file. *)
Definition rollback : M unit :=
  fun w => (Ret tt, mkWorld (committed w) (committed w) (stdout w) (stdin w)).

(** A statement at site [s] on a connection with a transaction. *)
Definition statement (r : reaction) (f : faults) (s : site) : M unit :=
  match f s with
  | Some e => (if r s then rollback else ret tt) ;; raise e
  | None => ret tt
  end.

Definition read : M warehouse := fun w => (Ret (pending w), w).

Definition write (h : warehouse) : M unit :=
  fun w => (Ret tt, mkWorld (committed w) h (stdout w) (stdin w)).

(** [conn.commit()]. *)
Definition commit (f : faults) : M unit :=
  call f SCommit ;;
  fun w => (Ret tt, mkWorld (pending w) (pending w) (stdout w) (stdin w)).

(** [conn.commit()], with the reaction of the engine when it fails. *)
Definition commit_under (r : reaction) (f : faults) : M unit :=
  statement r f SCommit ;;
  fun w => (Ret tt, mkWorld (pending w) (pending w) (stdout w) (stdin w)).

Definition set_dim_customer (t : list customer_row) (h : warehouse) : warehouse :=
  mkWarehouse (dim_date h) t (dim_product h) (dim_order_status h)
    (dim_payment_method h) (fact_sales h).

(* ====================================================================== *)
(** * [SCDManager] *)
(* ====================================================================== *)

(** Modelled from the spec: [data_modeling.sql], the DDL of the warehouse, is
    not among the sources.  The surrogate key is the table's integer primary
    key, "auto-assigned, immutable, never reused": SQLite gives a new row one
    more than the largest key in the table, and 1 in an empty table. *)
Definition next_rowid (keys : list Z) : Z :=
  match keys with
  | [] => 1
  | k :: ks => 1 + fold_left Z.max ks k
  end.

Definition is_current_of (cid : Z) (r : customer_row) : bool :=
  (customer_id r =? cid) && (is_current r =? 1).

(** [SELECT ... FROM dim_customer WHERE customer_id = ? AND is_current = 1]
    followed by [fetchone()]. *)
Definition fetch_current (r : reaction) (f : faults) (cid : Z) : M (option customer_row) :=
  statement r f SSelectCurrent ;;
  h <- read ;;
  ret (find (is_current_of cid) (dim_customer h)).

Definition close_row (yesterday stamp : string) (r : customer_row) : customer_row :=
  mkCustomer (customer_key r) (customer_id r) (first_name r) (last_name r)
    (email r) (phone r) (city r) (state r) (customer_tier r)
    (registration_date r) (valid_from r) yesterday 0 (created_at r) stamp.

(** [UPDATE dim_customer SET valid_to = ?, is_current = 0, updated_at = ?
     WHERE customer_key = ?]. *)
Definition close_by_key (key : Z) (yesterday stamp : string)
    (t : list customer_row) : list customer_row :=
  map (fun r => if customer_key r =? key then close_row yesterday stamp r else r) t.

Definition execute_close (r : reaction) (f : faults) (key : Z)
    (yesterday stamp : string) : M unit :=
  statement r f SUpdateClose ;;
  h <- read ;;
  write (set_dim_customer (close_by_key key yesterday stamp (dim_customer h)) h).

(** The row the INSERT of step 3 adds, under key [key]. *)
Definition new_version (key : Z) (cur : customer_row) (new_tier effective_date : string)
    (created updated : string) : customer_row :=
  mkCustomer key (customer_id cur) (first_name cur) (last_name cur)
    (email cur) (phone cur) (city cur) (state cur) new_tier
    (registration_date cur) effective_date "9999-12-31" 1 created updated.

(** [INSERT INTO dim_customer (...) VALUES (...)]; returns [cursor.lastrowid].
    When it fails, the close of step 2 stays in the open transaction or is
    rolled back with it, as the engine reacts. *)
Definition execute_insert (r : reaction) (f : faults) (cur : customer_row)
    (new_tier effective_date created updated : string) : M Z :=
  statement r f SInsertVersion ;;
  h <- read ;;
  let key := next_rowid (map customer_key (dim_customer h)) in
  write (set_dim_customer
           (dim_customer h ++ [new_version key cur new_tier effective_date created updated]) h) ;;
  ret key.

(** [(datetime.strptime(effective_date, '%Y-%m-%d') - timedelta(days=1))
      .strftime('%Y-%m-%d')]. *)
Definition day_before (effective_date : string) : M string :=
  match strptime effective_date with
  | None => raise (ValueError effective_date)
  | Some d =>
      match pred_day d with
      | None => raise OverflowError
      | Some y => ret (strftime y)
      end
  end.

(** [SCDManager.update_customer_tier], in a run in which the library calls
    [f] fail and the engine reacts to a failing statement as [r] says. *)
Definition update_customer_tier_under (r : reaction) (f : faults) (clk : clock)
    (customer_id : Z) (new_tier : string) (effective_date : option string) : M unit :=
  let effective_date :=
    match effective_date with
    | None => strftime (today clk)
    | Some s => s
    end in
  print (LUpdating customer_id new_tier effective_date) ;;
  (* Step 1: get the current record *)
  current_record <- fetch_current r f customer_id ;;
  match current_record with
  | None => print (LNotFound customer_id)
  | Some cur =>
      print (LTiers (customer_tier cur) new_tier) ;;
      if String.eqb (customer_tier cur) new_tier then print LNoChange
      else
        (* Step 2: close out the current record *)
        yesterday <- day_before effective_date ;;
        execute_close r f (customer_key cur) yesterday (stamp_closed clk) ;;
        print (LClosedOld (customer_key cur) yesterday) ;;
        (* Step 3: insert the new record with the updated tier *)
        new_key <- execute_insert r f cur new_tier effective_date
                     (stamp_created clk) (stamp_updated clk) ;;
        print (LCreatedNew new_key effective_date new_tier) ;;
        commit_under r f ;;
        print LScdCompleted
  end.

(** The same, in the runs in which the engine undoes a failing statement
    alone and leaves the transaction open. *)
Definition update_customer_tier (f : faults) (clk : clock)
    (customer_id : Z) (new_tier : string) (effective_date : option string) : M unit :=
  update_customer_tier_under statement_level f clk customer_id new_tier effective_date.

(** One call of [update_customer_tier], with the clock readings of that call. *)
Record tier_update : Type := mkUpdate {
  u_clock : clock;
  u_customer_id : Z;
  u_new_tier : string;
  u_effective_date : option string
}.

Definition apply_update (f : faults) (u : tier_update) (w : world) : world :=
  snd (update_customer_tier f (u_clock u) (u_customer_id u) (u_new_tier u)
         (u_effective_date u) w).

(** A sequence of calls on one connection; a call that raises leaves the
    connection as it is for the next one. *)
Definition run_updates (f : faults) (us : list tier_update) (w : world) : world :=
  fold_left (fun w u => apply_update f u w) us w.

(* ====================================================================== *)
(** * [DataWarehouseETL] *)
(* ====================================================================== *)

(** What a run of the ETL script is given.  [data_modeling_sql] is the effect
    on the rows of the warehouse of executing the script [data_modeling.sql],
    which is not among the sources and is taken as a parameter. *)
Record etl_env : Type := mkEnv {
  source_exists : bool;
  source : Src.db;
  data_modeling_sql : warehouse -> warehouse;
  etl_faults : faults;
  etl_clock : clock
}.

Definition set_dim_date (t : list DimDate.row) (h : warehouse) : warehouse :=
  mkWarehouse t (dim_customer h) (dim_product h) (dim_order_status h)
    (dim_payment_method h) (fact_sales h).

Definition set_dim_product (t : list DimProduct.row) (h : warehouse) : warehouse :=
  mkWarehouse (dim_date h) (dim_customer h) t (dim_order_status h)
    (dim_payment_method h) (fact_sales h).

Definition set_dim_order_status (t : list DimOrderStatus.row) (h : warehouse) : warehouse :=
  mkWarehouse (dim_date h) (dim_customer h) (dim_product h) t
    (dim_payment_method h) (fact_sales h).

Definition set_dim_payment_method (t : list DimPaymentMethod.row) (h : warehouse) : warehouse :=
  mkWarehouse (dim_date h) (dim_customer h) (dim_product h) (dim_order_status h)
    t (fact_sales h).

Definition set_fact_sales (t : list Fact.row) (h : warehouse) : warehouse :=
  mkWarehouse (dim_date h) (dim_customer h) (dim_product h) (dim_order_status h)
    (dim_payment_method h) t.

Definition row_count (t : table) (h : warehouse) : Z :=
  match t with
  | TDimDate => Z.of_nat (List.length (dim_date h))
  | TDimCustomer => Z.of_nat (List.length (dim_customer h))
  | TDimProduct => Z.of_nat (List.length (dim_product h))
  | TDimOrderStatus => Z.of_nat (List.length (dim_order_status h))
  | TDimPaymentMethod => Z.of_nat (List.length (dim_payment_method h))
  | TFactSales => Z.of_nat (List.length (fact_sales h))
  end.

(** [cursor.execute("SELECT COUNT( * ) FROM t"); cursor.fetchone()[0]]. *)
Definition select_count (f : faults) (t : table) : M Z :=
  call f (SCount t) ;;
  h <- read ;;
  ret (row_count t h).

(** [df.to_sql(t, conn, ...)]: pandas writes the rows and commits. *)
Definition to_sql (f : faults) (t : table) (store : warehouse -> warehouse) : M unit :=
  call f (SToSql t) ;;
  h <- read ;;
  write (store h) ;;
  commit f.

(** [DataWarehouseETL.__init__]. *)
Definition etl_init (env : etl_env) : M unit :=
  if negb (source_exists env) then
    print LSourceMissing ;;
    raise (FileNotFoundError "Source database not found: sales_analytics.db")
  else print LConnected.

Definition create_warehouse_schema (env : etl_env) : M unit :=
  let f := etl_faults env in
  call f SOpenSchema ;;
  call f SExecScript ;;
  h <- read ;;
  write (data_modeling_sql env h) ;;
  commit f ;;
  print LSchemaCreated.

(** ** [load_dim_date] *)

Definition month_name_of (m : Z) : string :=
  match m with
  | 1 => "January" | 2 => "February" | 3 => "March" | 4 => "April"
  | 5 => "May" | 6 => "June" | 7 => "July" | 8 => "August"
  | 9 => "September" | 10 => "October" | 11 => "November" | _ => "December"
  end.

Definition day_name_of (wd : Z) : string :=
  match wd with
  | 0 => "Monday" | 1 => "Tuesday" | 2 => "Wednesday" | 3 => "Thursday"
  | 4 => "Friday" | 5 => "Saturday" | _ => "Sunday"
  end.

(** Ordinal of the Monday that starts ISO week 1 of year [y]. *)
Definition iso_week1_monday (y : Z) : Z :=
  let firstday := toordinal (mkDate y 1 1) in
  let firstweekday := (firstday + 6) mod 7 in
  let week1monday := firstday - firstweekday in
  if 3 <? firstweekday then week1monday + 7 else week1monday.

(** [d.isocalendar()[1]]. *)
Definition iso_week (d : date) : Z :=
  let t := toordinal d in
  let week := (t - iso_week1_monday (Calendar.year d)) / 7 in
  if week <? 0 then (t - iso_week1_monday (Calendar.year d - 1)) / 7 + 1
  else if (52 <=? week) && (iso_week1_monday (Calendar.year d + 1) <=? t) then 1
  else week + 1.

Definition date_row (current : date) : DimDate.row :=
  let y := Calendar.year current in
  let m := Calendar.month current in
  DimDate.mkRow
    (yyyymmdd current)
    (strftime current)
    y
    ((m - 1) / 3 + 1)
    m
    (month_name_of m)
    (iso_week current)
    (days_before_month y m + Calendar.day current)
    (Calendar.day current)
    (weekday current)
    (day_name_of (weekday current))
    (if 5 <=? weekday current then 1 else 0)
    0
    (if 7 <=? m then y else y - 1)
    (((m - 7) mod 12) / 3 + 1).

(** The loop [while current <= end: ...; current += timedelta(days=1)]; the
    date moves one day towards [end] at each turn, [fuel] bounds the turns. *)
Fixpoint date_rows (fuel : nat) (current end_ : date) : outcome (list DimDate.row) :=
  match fuel with
  | O => Ret []
  | S fuel' =>
      if toordinal current <=? toordinal end_ then
        match next_day current with
        | None => Raise OverflowError
        | Some current' =>
            match date_rows fuel' current' end_ with
            | Ret rows => Ret (date_row current :: rows)
            | Raise e => Raise e
            end
        end
      else Ret []
  end.

Definition lift {A} (o : outcome A) : M A :=
  match o with
  | Ret a => ret a
  | Raise e => raise e
  end.

Definition parse_date (s : string) : M date :=
  match strptime s with
  | Some d => ret d
  | None => raise (ValueError s)
  end.

Definition load_dim_date (env : etl_env) (start_date end_date : string) : M unit :=
  let f := etl_faults env in
  print (LLoading TDimDate) ;;
  count <- select_count f TDimDate ;;
  if 0 <? count then print (LSkipping TDimDate count)
  else
    start <- parse_date start_date ;;
    end_ <- parse_date end_date ;;
    dates <- lift (date_rows (Z.to_nat (toordinal end_ - toordinal start + 1)) start end_) ;;
    to_sql f TDimDate (fun h => set_dim_date (dim_date h ++ dates) h) ;;
    print (LLoaded TDimDate (Z.of_nat (List.length dates))).

(** ** [load_dim_customer] *)

(** Appending rows whose integer primary key the engine assigns. *)
Fixpoint append_auto {A R} (key_of : R -> Z) (mk : Z -> A -> R)
    (t : list R) (new : list A) : list R :=
  match new with
  | [] => t
  | a :: rest =>
      append_auto key_of mk (t ++ [mk (next_rowid (map key_of t)) a]) rest
  end.

Definition initial_version (clk : clock) (key : Z) (c : Src.customer) : customer_row :=
  mkCustomer key (Src.customer_id c) (Src.first_name c) (Src.last_name c)
    (Src.email c) (Src.phone c) (Src.city c) (Src.state c)
    (Src.customer_tier c) (Src.registration_date c)
    (Src.registration_date c) "9999-12-31" 1
    (stamp_created clk) (stamp_updated clk).

Definition load_dim_customer (env : etl_env) : M unit :=
  let f := etl_faults env in
  print (LLoading TDimCustomer) ;;
  count <- select_count f TDimCustomer ;;
  if 0 <? count then print (LSkipping TDimCustomer count)
  else
    call f (SExtract TDimCustomer) ;;
    let df := Src.customers (source env) in
    to_sql f TDimCustomer
      (fun h => set_dim_customer
                  (append_auto customer_key (initial_version (etl_clock env))
                     (dim_customer h) df) h) ;;
    print (LLoaded TDimCustomer (Z.of_nat (List.length df))).

(** ** [load_dim_product] *)

(** [FROM products p JOIN categories c ON p.category_id = c.category_id]. *)
Definition products_with_category (s : Src.db) : list (Src.product * Src.category) :=
  flat_map
    (fun p =>
       map (fun c => (p, c))
         (filter (fun c => Src.p_category_id p =? Src.category_id c) (Src.categories s)))
    (Src.products s).

Definition product_row (clk : clock) (key : Z) (pc : Src.product * Src.category)
    : DimProduct.row :=
  let (p, c) := pc in
  DimProduct.mkRow key (Src.product_id p) (Src.product_name p) (Src.p_category_id p)
    (Src.category_name c) (Src.description c) (Src.unit_price p) (Src.is_active p)
    (stamp_created clk) (stamp_updated clk).

Definition load_dim_product (env : etl_env) : M unit :=
  let f := etl_faults env in
  print (LLoading TDimProduct) ;;
  count <- select_count f TDimProduct ;;
  if 0 <? count then print (LSkipping TDimProduct count)
  else
    call f (SExtract TDimProduct) ;;
    let df := products_with_category (source env) in
    to_sql f TDimProduct
      (fun h => set_dim_product
                  (append_auto DimProduct.product_key (product_row (etl_clock env))
                     (dim_product h) df) h) ;;
    print (LLoaded TDimProduct (Z.of_nat (List.length df))).

(** ** [load_dim_order_status] and [load_dim_payment_method] *)

Definition statuses : list DimOrderStatus.row :=
  [ DimOrderStatus.mkRow "PENDING" "Pending" "Order placed, awaiting processing" 0;
    DimOrderStatus.mkRow "SHIPPED" "Shipped" "Order shipped to customer" 0;
    DimOrderStatus.mkRow "COMPLETED" "Completed" "Order delivered and completed" 1;
    DimOrderStatus.mkRow "CANCELLED" "Cancelled" "Order cancelled" 1 ].

Definition load_dim_order_status (env : etl_env) : M unit :=
  let f := etl_faults env in
  print (LLoading TDimOrderStatus) ;;
  (* if_exists='replace': the table is dropped and written anew *)
  to_sql f TDimOrderStatus (fun h => set_dim_order_status statuses h) ;;
  print (LLoaded TDimOrderStatus (Z.of_nat (List.length statuses))).

Definition methods : list DimPaymentMethod.row :=
  [ DimPaymentMethod.mkRow "CC" "Credit Card" 0x1.7333333333333p+1%float;
    DimPaymentMethod.mkRow "DC" "Debit Card" 1.5%float;
    DimPaymentMethod.mkRow "PP" "PayPal" 3.5%float;
    DimPaymentMethod.mkRow "AP" "Apple Pay" 2.5%float ].

Definition load_dim_payment_method (env : etl_env) : M unit :=
  let f := etl_faults env in
  print (LLoading TDimPaymentMethod) ;;
  to_sql f TDimPaymentMethod (fun h => set_dim_payment_method methods h) ;;
  print (LLoaded TDimPaymentMethod (Z.of_nat (List.length methods))).

(** ** [load_fact_sales] *)

(** A row of [df_source], the result of the extraction query. *)
Record sale : Type := mkSale {
  s_order_id : Z;
  s_order_item_id : Z;
  s_order_date : string;
  s_customer_id : Z;
  s_product_id : Z;
  s_order_status : string;
  s_payment_method : string;
  s_quantity : Z;
  s_unit_price : float;
  s_line_total : float;
  s_discount_amount : float;
  s_tax_amount : float
}.

(** The CASE on [o.order_id % 4]; SQLite's [%] truncates like C. *)
Definition inferred_payment_method (order_id : Z) : string :=
  if Z.rem order_id 4 =? 0 then "Credit Card"
  else if Z.rem order_id 4 =? 1 then "Debit Card"
  else if Z.rem order_id 4 =? 2 then "PayPal"
  else "Apple Pay".

Definition sale_of (o : Src.order) (oi : Src.order_item) : sale :=
  mkSale (Src.order_id o) (Src.order_item_id oi) (Src.order_date o)
    (Src.o_customer_id o) (Src.oi_product_id oi) (Src.order_status o)
    (inferred_payment_method (Src.order_id o))
    (Src.quantity oi) (Src.oi_unit_price oi) (Src.line_total oi)
    0%float (Src.line_total oi * 0x1.47ae147ae147bp-4)%float.

(** [FROM orders o JOIN order_items oi ON o.order_id = oi.order_id
     WHERE o.order_status = 'Completed'].  SQL leaves the order of the rows
    to the engine: with [order_id] the primary key of [orders], as
    [setup_database.py] declares it, SQLite scans [order_items] and looks the
    order of each line up, so the lines come in the order of [order_items]. *)
Definition extract_sales (s : Src.db) : list sale :=
  flat_map
    (fun oi =>
       map (fun o => sale_of o oi)
         (filter
            (fun o =>
               (Src.order_id o =? Src.oi_order_id oi) &&
               String.eqb (Src.order_status o) "Completed")
            (Src.orders s)))
    (Src.order_items s).

(** [str.strip()] on ASCII text: the white space it removes is tab to
    carriage return, the separators 28 to 31 and space. *)
Definition is_py_space (c : ascii) : bool :=
  let n := Z.of_N (N_of_ascii c) in
  ((9 <=? n) && (n <=? 13)) || ((28 <=? n) && (n <=? 32)).

Fixpoint lstrip (s : string) : string :=
  match s with
  | String c rest => if is_py_space c then lstrip rest else s
  | EmptyString => EmptyString
  end.

Fixpoint string_rev (s : string) : string :=
  match s with
  | String c rest => (string_rev rest ++ String c "")%string
  | EmptyString => EmptyString
  end.

Definition strip (s : string) : string :=
  string_rev (lstrip (string_rev (lstrip s))).

(** Decimal digits, single underscores allowed between two digits. *)
Fixpoint py_digits (acc : Z) (after_digit : bool) (s : string) : option Z :=
  match s with
  | EmptyString => if after_digit then Some acc else None
  | String c rest =>
      match digit_of_ascii c with
      | Some d => py_digits (10 * acc + d) true rest
      | None =>
          if Ascii.eqb c "_"%char && after_digit then py_digits acc false rest
          else None
      end
  end.

(** The white space [int] skips around the digits of ASCII text: tab, line
    feed, vertical tab, form feed, carriage return and space ([str.strip]
    removes the separators 28 to 31 as well, [int] does not). *)
Definition is_c_space (c : ascii) : bool :=
  let n := Z.of_N (N_of_ascii c) in
  ((9 <=? n) && (n <=? 13)) || (n =? 32).

Fixpoint skip_spaces (s : string) : string :=
  match s with
  | String c rest => if is_c_space c then skip_spaces rest else s
  | EmptyString => EmptyString
  end.

(** [int(s)] on ASCII text; [None] is [ValueError]. *)
Definition py_int (s : string) : option Z :=
  match string_rev (skip_spaces (string_rev (skip_spaces s))) with
  | String "+"%char rest => py_digits 0 false rest
  | String "-"%char rest => option_map Z.opp (py_digits 0 false rest)
  | t => py_digits 0 false t
  end.

(** [x.replace('-', '')]. *)
Fixpoint remove_dashes (s : string) : string :=
  match s with
  | String c rest => if is_dash c then remove_dashes rest else String c (remove_dashes rest)
  | EmptyString => EmptyString
  end.

(** [df['order_date'].apply(lambda x: int(x.replace('-', '')))]. *)
Fixpoint with_date_keys (df : list sale) : outcome (list (sale * Z)) :=
  match df with
  | [] => Ret []
  | s :: rest =>
      match py_int (remove_dashes (s_order_date s)) with
      | None => Raise (ValueError (s_order_date s))
      | Some k =>
          match with_date_keys rest with
          | Ret rows => Ret ((s, k) :: rows)
          | Raise e => Raise e
          end
      end
  end.

(** [left.merge(right, on=key, how='left')]: every left row is kept, once for
    each right row with the same key, and once with NULLs when there is none. *)
Definition left_merge {L R} (key_l : L -> Z) (key_r : R -> Z)
    (left : list L) (right : list R) : list (L * option R) :=
  flat_map
    (fun l =>
       match filter (fun r => key_l l =? key_r r) right with
       | [] => [(l, None)]
       | matches => map (fun r => (l, Some r)) matches
       end)
    left.

(** [SELECT customer_key, customer_id FROM dim_customer WHERE is_current = 1]. *)
Definition current_customer_keys (h : warehouse) : list (Z * Z) :=
  map (fun r => (customer_key r, customer_id r))
    (filter (fun r => is_current r =? 1) (dim_customer h)).

(** [SELECT product_key, product_id FROM dim_product]. *)
Definition product_keys (h : warehouse) : list (Z * Z) :=
  map (fun r => (DimProduct.product_key r, DimProduct.product_id r)) (dim_product h).

Definition status_mapping (status : string) : option Z :=
  if String.eqb status "Completed" then Some 3
  else if String.eqb status "Pending" then Some 1
  else if String.eqb status "Shipped" then Some 2
  else if String.eqb status "Cancelled" then Some 4
  else None.

Definition payment_mapping (method : string) : option Z :=
  if String.eqb method "Credit Card" then Some 1
  else if String.eqb method "Debit Card" then Some 2
  else if String.eqb method "PayPal" then Some 3
  else if String.eqb method "Apple Pay" then Some 4
  else None.

Definition fact_row (x : sale * Z * option (Z * Z) * option (Z * Z)) : Fact.row :=
  let '(s, date_key, c, p) := x in
  Fact.mkRow date_key (option_map fst c) (option_map fst p)
    (status_mapping (s_order_status s)) (payment_mapping (s_payment_method s))
    (s_order_id s) (s_order_item_id s) (s_quantity s) (s_unit_price s)
    (s_line_total s) (s_discount_amount s) (s_tax_amount s)
    (s_line_total s - s_discount_amount s + s_tax_amount s)%float.

(** The transformation of [df_source] into [df_fact], given the two key
    tables read from the warehouse. *)
Definition transform_sales (df : list (sale * Z)) (customers products : list (Z * Z))
    : list Fact.row :=
  let df1 := left_merge (fun x => s_customer_id (fst x)) snd df customers in
  let df2 := left_merge (fun x => s_product_id (fst (fst x))) snd df1 products in
  map fact_row df2.

Definition load_fact_sales (env : etl_env) : M unit :=
  let f := etl_faults env in
  print (LLoading TFactSales) ;;
  count <- select_count f TFactSales ;;
  if 0 <? count then print (LSkipping TFactSales count)
  else
    call f (SExtract TFactSales) ;;
    let df_source := extract_sales (source env) in
    print (LExtracted (Z.of_nat (List.length df_source))) ;;
    df_dated <- lift (with_date_keys df_source) ;;
    call f (SLookup TDimCustomer) ;;
    h <- read ;;
    let dim_customer := current_customer_keys h in
    call f (SLookup TDimProduct) ;;
    h' <- read ;;
    let dim_product := product_keys h' in
    let df_fact := transform_sales df_dated dim_customer dim_product in
    to_sql f TFactSales (fun h => set_fact_sales (fact_sales h ++ df_fact) h) ;;
    print (LLoaded TFactSales (Z.of_nat (List.length df_fact))).

(** ** [verify_warehouse], [run_sample_queries], [close] *)

Definition verified_tables : list table :=
  [TDimDate; TDimCustomer; TDimProduct; TDimOrderStatus; TDimPaymentMethod; TFactSales].

Fixpoint verify_tables (f : faults) (ts : list table) : M unit :=
  match ts with
  | [] => ret tt
  | t :: rest =>
      count <- select_count f t ;;
      print (LVerifyCount t count) ;;
      verify_tables f rest
  end.

Definition verify_warehouse (env : etl_env) : M unit :=
  verify_tables (etl_faults env) verified_tables.

(** The four analytical queries only read; their result sets are not
    modelled beyond the fact that they are printed. *)
Definition run_sample_queries (env : etl_env) : M unit :=
  call (etl_faults env) SQueries ;;
  print LQueryResults.

(** [conn.close()]: what was not committed is lost. *)
Definition close (f : faults) : M unit :=
  call f SCloseConn ;;
  (fun w => (Ret tt, mkWorld (committed w) (committed w) (stdout w) (stdin w))) ;;
  print LConnectionsClosed.

(** ** [run_full_etl] and [main] *)

(** The body of the [try] of [run_full_etl]; the loaders are called with
    their default arguments. *)
Definition etl_steps (env : etl_env) : M unit :=
  create_warehouse_schema env ;;
  load_dim_date env "2023-01-01" "2025-12-31" ;;
  load_dim_customer env ;;
  load_dim_product env ;;
  load_dim_order_status env ;;
  load_dim_payment_method env ;;
  load_fact_sales env ;;
  verify_warehouse env ;;
  print LEtlCompleted.

Definition run_full_etl (env : etl_env) : M unit :=
  print LEtlBanner ;;
  try_except (etl_steps env)
    (fun e => print (LEtlFailed e) ;; print (LTraceback e)).

(** [main] of [create_data_warehouse.py]. *)
Definition etl_main (env : etl_env) : M unit :=
  etl_init env ;;
  print LMenu ;;
  raw <- input ;;
  let choice := strip raw in
  (if String.eqb choice "" || String.eqb choice "1" then
     run_full_etl env ;;
     input ;;
     run_sample_queries env
   else if String.eqb choice "2" then verify_warehouse env
   else if String.eqb choice "3" then run_sample_queries env
   else print LInvalidChoice) ;;
  close (etl_faults env).

(* ====================================================================== *)
(** * Notions used to state the properties *)
(* ====================================================================== *)

(** The effective date of a call: the argument, or today's date. *)
Definition effective (clk : clock) (effective_date : option string) : string :=
  match effective_date with
  | None => strftime (today clk)
  | Some s => s
  end.

(** The two writes of a tier update on the rows of [dim_customer]. *)
Definition close_and_insert (clk : clock) (cur : customer_row)
    (new_tier eff yesterday : string) (t : list customer_row) : list customer_row :=
  let closed := close_by_key (customer_key cur) yesterday (stamp_closed clk) t in
  closed ++ [new_version (next_rowid (map customer_key closed)) cur new_tier eff
               (stamp_created clk) (stamp_updated clk)].

(** The rows of [dim_customer] after a call in which no library call fails. *)
Definition type2_step (clk : clock) (cid : Z) (new_tier eff : string)
    (t : list customer_row) : list customer_row :=
  match find (is_current_of cid) t with
  | None => t
  | Some cur =>
      if String.eqb (customer_tier cur) new_tier then t
      else
        match strptime eff with
        | None => t
        | Some d =>
            match pred_day d with
            | None => t
            | Some y => close_and_insert clk cur new_tier eff (strftime y) t
            end
        end
  end.

(** How far a call got, whatever fails: nothing written, the old row closed
    but no new row, or both writes done. *)
Inductive progress (clk : clock) (cid : Z) (new_tier eff : string)
    (t t' : list customer_row) : Prop :=
| Untouched : t' = t -> progress clk cid new_tier eff t t'
| ClosedOnly cur d y :
    find (is_current_of cid) t = Some cur ->
    customer_tier cur <> new_tier ->
    strptime eff = Some d -> pred_day d = Some y ->
    t' = close_by_key (customer_key cur) (strftime y) (stamp_closed clk) t ->
    progress clk cid new_tier eff t t'
| ClosedAndInserted cur d y :
    find (is_current_of cid) t = Some cur ->
    customer_tier cur <> new_tier ->
    strptime eff = Some d -> pred_day d = Some y ->
    t' = close_and_insert clk cur new_tier eff (strftime y) t ->
    progress clk cid new_tier eff t t'.

(** Number of rows of natural key [cid] with [is_current = 1]. *)
Definition current_count (cid : Z) (t : list customer_row) : nat :=
  List.length (filter (is_current_of cid) t).

(** A warehouse with two customers, each with one current version, and a
    clock. *)
Definition alice : customer_row :=
  mkCustomer 1 1 "Alice" "Nguyen" "alice.nguyen1@email.com" "555-0100"
    "Austin" "TX" "Bronze" "2024-01-01" "2024-01-01" "9999-12-31" 1
    "2024-01-01 09:00:00" "2024-01-01 09:00:00".

Definition bob : customer_row :=
  mkCustomer 2 2 "Bob" "Ortiz" "bob.ortiz2@email.com" "555-0101"
    "Denver" "CO" "Gold" "2023-11-20" "2023-11-20" "9999-12-31" 1
    "2024-01-01 09:00:00" "2024-01-01 09:00:00".

Definition demo_fact : Fact.row :=
  Fact.mkRow 20240305 (Some 1) (Some 1) (Some 3) (Some 2) 5 9 2
    10%float 20%float 0%float 0x1.999999999999ap0%float 0x1.599999999999ap4%float.

Definition demo_warehouse : warehouse :=
  mkWarehouse [] [alice; bob] [] statuses methods [demo_fact].

Definition demo_world : world :=
  mkWorld demo_warehouse demo_warehouse [] [].

Definition demo_clock : clock :=
  mkClock (mkDate 2025 10 30) "2025-10-30 10:00:00" "2025-10-30 10:00:01"
    "2025-10-30 10:00:02".

(** [update_customer_tier(customer_id=1, new_tier='Silver',
     effective_date='2024-06-15')], the call of [demonstrate_scd_type2]. *)
Definition demo_update : tier_update :=
  mkUpdate demo_clock 1 "Silver" (Some "2024-06-15").

(** Customer 1's two versions after [demo_update]. *)
Definition alice_closed : customer_row :=
  mkCustomer 1 1 "Alice" "Nguyen" "alice.nguyen1@email.com" "555-0100"
    "Austin" "TX" "Bronze" "2024-01-01" "2024-01-01" "2024-06-14" 0
    "2024-01-01 09:00:00" "2025-10-30 10:00:00".

Definition alice_silver : customer_row :=
  mkCustomer 3 1 "Alice" "Nguyen" "alice.nguyen1@email.com" "555-0100"
    "Austin" "TX" "Silver" "2024-01-01" "2024-06-15" "9999-12-31" 1
    "2025-10-30 10:00:01" "2025-10-30 10:00:02".

(** Five calls in a row: two customers, a repeated tier, a malformed date. *)
Definition demo_updates : list tier_update :=
  [ demo_update;
    mkUpdate demo_clock 2 "Platinum" (Some "2024-07-01");
    mkUpdate demo_clock 1 "Silver" (Some "2024-08-01");
    mkUpdate demo_clock 1 "Gold" (Some "2024-09-01");
    mkUpdate demo_clock 1 "Platinum" (Some "not a date") ].

(** [h'] has the tables of [h], [dim_customer] apart. *)
Definition same_but_dim_customer (h h' : warehouse) : Prop :=
  dim_date h' = dim_date h /\
  dim_product h' = dim_product h /\
  dim_order_status h' = dim_order_status h /\
  dim_payment_method h' = dim_payment_method h /\
  fact_sales h' = fact_sales h.

(** A run in which the engine rejects the INSERT of step 3. *)
Definition insert_fails : faults :=
  fun s =>
    match s with
    | SInsertVersion => Some (DatabaseError "constraint failed")
    | _ => None
    end.

(** A run in which the INSERT of step 3 finds the disk full. *)
Definition disk_full : faults :=
  fun s =>
    match s with
    | SInsertVersion => Some (DatabaseError "database or disk is full")
    | _ => None
    end.

(** Every exception [m] can raise satisfies [P]. *)
Definition raises_only (P : exn -> Prop) {A} (m : M A) : Prop :=
  forall w e w', m w = (Raise e, w') -> P e.

(** The world after the lines [ls] are printed. *)
Definition printed (ls : list line) (w : world) : world :=
  mkWorld (committed w) (pending w) (stdout w ++ ls) (stdin w).

(** A source database with two customers and three orders, one of them of a
    customer the warehouse does not know. *)
Definition demo_source : Src.db :=
  Src.mkDb
    [ Src.mkCategory 1 "Electronics" "Electronic devices and accessories" ]
    [ Src.mkProduct 1 "Laptop" 1 10%float 25 1 ]
    [ Src.mkCustomer 1 "Alice" "Nguyen" "alice.nguyen1@email.com" "555-0100"
        "Austin" "TX" "2024-01-01" "Bronze";
      Src.mkCustomer 2 "Bob" "Ortiz" "bob.ortiz2@email.com" "555-0101"
        "Denver" "CO" "2023-11-20" "Gold" ]
    [ Src.mkOrder 5 1 "2024-03-05" (Some "2024-03-07") "Completed" 20%float;
      Src.mkOrder 6 2 "2024-03-06" None "Pending" 10%float;
      Src.mkOrder 7 3 "2024-03-08" (Some "2024-03-09") "Completed" 30%float ]
    [ Src.mkOrderItem 9 5 1 2 10%float 20%float;
      Src.mkOrderItem 10 6 1 1 10%float 10%float;
      Src.mkOrderItem 11 7 1 3 10%float 30%float ].

(** A run of the ETL on it: the source is there, the schema script writes no
    rows, no library call fails. *)
Definition demo_env : etl_env :=
  mkEnv true demo_source (fun h => h) reliable demo_clock.

(** A new [data_warehouse.db], and a connection just opened on it. *)
Definition empty_warehouse : warehouse := mkWarehouse [] [] [] [] [] [].

Definition fresh_world (keyboard : list string) : world :=
  mkWorld empty_warehouse empty_warehouse [] keyboard.

(** A run in which the engine rejects the write of [dim_customer]. *)
Definition customer_load_fails : faults :=
  fun s =>
    match s with
    | SToSql TDimCustomer => Some (DatabaseError "disk I/O error")
    | _ => None
    end.


(** [m] returns normally, replaces the warehouse the connection sees by [F] of
    it, and either commits that or, when [sure] is not set, may also leave
    everything as it was. *)
Definition effect (sure : bool) (m : M unit) (F : warehouse -> warehouse) : Prop :=
  forall w, exists out c,
    m w = (Ret tt, mkWorld c (F (pending w)) out (stdin w)) /\
    (c = F (pending w) \/
     (sure = false /\ c = committed w /\ F (pending w) = pending w)).

(** The same, for an [m] that may also end with an exception. *)
Definition effect_any (sure : bool) (m : M unit) (F : warehouse -> warehouse) : Prop :=
  forall w, exists r out c,
    m w = (r, mkWorld c (F (pending w)) out (stdin w)) /\
    (c = F (pending w) \/
     (sure = false /\ c = committed w /\ F (pending w) = pending w)).

(** The rows [load_dim_date] builds for its default range. *)
Definition default_date_rows : list DimDate.row :=
  match date_rows 1096 (mkDate 2023 1 1) (mkDate 2025 12 31) with
  | Ret rows => rows
  | Raise _ => []
  end.

(** The loaders as functions on the warehouse, when no library call fails. *)
Definition guarded {A} (t : list A) (h loaded : warehouse) : warehouse :=
  match t with
  | [] => loaded
  | _ :: _ => h
  end.

Definition dates_loaded (h : warehouse) : warehouse :=
  guarded (dim_date h) h (set_dim_date (dim_date h ++ default_date_rows) h).

Definition customers_loaded (env : etl_env) (h : warehouse) : warehouse :=
  guarded (dim_customer h) h
    (set_dim_customer
       (append_auto customer_key (initial_version (etl_clock env))
          (dim_customer h) (Src.customers (source env))) h).

Definition products_loaded (env : etl_env) (h : warehouse) : warehouse :=
  guarded (dim_product h) h
    (set_dim_product
       (append_auto DimProduct.product_key (product_row (etl_clock env))
          (dim_product h) (products_with_category (source env))) h).

Definition facts_loaded (env : etl_env) (h : warehouse) : warehouse :=
  guarded (fact_sales h) h
    (match with_date_keys (extract_sales (source env)) with
     | Ret df =>
         set_fact_sales
           (fact_sales h
              ++ transform_sales df (current_customer_keys h) (product_keys h)) h
     | Raise _ => h
     end).

(** The warehouse after [run_full_etl], as a function of the one before. *)
Definition etl_loaded (env : etl_env) (h : warehouse) : warehouse :=
  facts_loaded env
    (set_dim_payment_method methods
       (set_dim_order_status statuses
          (products_loaded env
             (customers_loaded env
                (dates_loaded (data_modeling_sql env h)))))).

(** A count-guarded table: kept when it has rows, loaded when it has none. *)
Definition or_load {A} (t loaded : list A) : list A :=
  match t with
  | [] => loaded
  | _ :: _ => t
  end.

Definition customers_of (env : etl_env) : list customer_row :=
  append_auto customer_key (initial_version (etl_clock env)) [] (Src.customers (source env)).

Definition products_of (env : etl_env) : list DimProduct.row :=
  append_auto DimProduct.product_key (product_row (etl_clock env)) []
    (products_with_category (source env)).

Definition facts_of (env : etl_env) (dc : list customer_row) (dp : list DimProduct.row)
    : list Fact.row :=
  match with_date_keys (extract_sales (source env)) with
  | Ret df =>
      transform_sales df
        (map (fun r => (customer_key r, customer_id r)) (filter (fun r => is_current r =? 1) dc))
        (map (fun r => (DimProduct.product_key r, DimProduct.product_id r)) dp)
  | Raise _ => []
  end.

(** Every count-guarded table has rows. *)
Definition loaded (h : warehouse) : Prop :=
  dim_date h <> [] /\ dim_customer h <> [] /\ dim_product h <> [] /\ fact_sales h <> [].

(** How the customer key [key] of a fact row relates to the sale [s] it was
    made from: the key of a current dimension row of the sale's customer, or
    NULL when the customer has no current row. *)
Definition resolved (dim : list customer_row) (s : sale) (key : option Z) : Prop :=
  match key with
  | Some k =>
      exists r, In r dim /\ is_current r = 1 /\ customer_id r = s_customer_id s /\
                customer_key r = k
  | None =>
      forall r, In r dim -> is_current r = 1 -> customer_id r <> s_customer_id s
  end.

(** The warehouse with its dimensions loaded and no fact yet. *)
Definition dimensions_only : world :=
  mkWorld (set_fact_sales [] demo_warehouse) (set_fact_sales [] demo_warehouse) [] [].

(** The sale of order 7, placed by customer 3, whom [dim_customer] lacks. *)
Definition unmatched_sale : sale :=
  sale_of (Src.mkOrder 7 3 "2024-03-08" (Some "2024-03-09") "Completed" 30%float)
    (Src.mkOrderItem 11 7 1 3 10%float 30%float).

(** [date.max.toordinal()], the ordinal of 9999-12-31. *)
Definition ordinal_max : Z := 3652059.

(** The first and the last day of a version, as ordinals, when the columns
    hold dates. *)
Definition from_ord (r : customer_row) : option Z :=
  option_map toordinal (strptime (valid_from r)).

Definition to_ord (r : customer_row) : option Z :=
  option_map toordinal (strptime (valid_to r)).

(** Day [n] between [a] and [b]: [b] included when [closed] is set (the
    interval is [a, b]), excluded otherwise (the interval is [a, b)). *)
Definition within (closed : bool) (a n b : Z) : Prop :=
  a <= n /\ if closed then n <= b else n < b.

(** Day [n] is in the validity interval of row [r], the columns read as
    dates.  On columns written in the ISO form this is what SQL's BETWEEN
    gives on their text; on other text [strptime] accepts ('2024-6-5') it is
    not. *)
Definition covers (closed : bool) (r : customer_row) (n : Z) : Prop :=
  exists a b, from_ord r = Some a /\ to_ord r = Some b /\ within closed a n b.

(** The rows of natural key [cid], in table order. *)
Definition versions (cid : Z) (t : list customer_row) : list customer_row :=
  filter (fun r => customer_id r =? cid) t.

(** No day is in the intervals of two rows. *)
Definition no_overlap (closed : bool) (vs : list customer_row) : Prop :=
  forall i j r1 r2 n,
    i <> j -> nth_error vs i = Some r1 -> nth_error vs j = Some r2 ->
    covers closed r1 n -> covers closed r2 n -> False.

(** Every day from the start of a row to the end of a row is in the interval
    of some row: the union of the intervals is one interval. *)
Definition no_gap (closed : bool) (vs : list customer_row) : Prop :=
  forall r1 r2 a b n,
    In r1 vs -> In r2 vs -> from_ord r1 = Some a -> to_ord r2 = Some b ->
    within closed a n b ->
    exists r, In r vs /\ covers closed r n.

(** The tier change takes effect no earlier than the current version began. *)
Definition later_than_current (cid : Z) (new_tier eff : string)
    (t : list customer_row) : bool :=
  match find (is_current_of cid) t with
  | None => true
  | Some cur =>
      if String.eqb (customer_tier cur) new_tier then true
      else
        match strptime eff, strptime (valid_from cur) with
        | Some e, Some f => toordinal f <=? toordinal e
        | _, _ => true
        end
  end.

(** No update of the sequence is dated before the version it closes. *)
Fixpoint forward_dated (us : list tier_update) (t : list customer_row) : bool :=
  match us with
  | [] => true
  | u :: rest =>
      let eff := effective (u_clock u) (u_effective_date u) in
      later_than_current (u_customer_id u) (u_new_tier u) eff t &&
      forward_dated rest (type2_step (u_clock u) (u_customer_id u) (u_new_tier u) eff t)
  end.

(** The versions tile the days from [a] to 9999-12-31 in table order: each
    begins the day after the one before ended, none ends more than a day
    before it begins, and the last one, and only it, is current. *)
Fixpoint chain_from (a : Z) (vs : list customer_row) : Prop :=
  match vs with
  | [] => a = ordinal_max + 1
  | r :: rest =>
      from_ord r = Some a /\
      exists b, to_ord r = Some b /\ a <= b + 1 /\
                (is_current r = 1 <-> rest = []) /\
                chain_from (b + 1) rest
  end.

Definition history_ok (vs : list customer_row) : Prop :=
  vs = [] \/ exists a, chain_from a vs.

(** A date column written as the scripts write their dates: 'YYYY-MM-DD' with
    two digits for month and day, a day of a year from 1000 on.  The columns
    are text and SQL compares them byte by byte; on text of this form that is
    the order of the days. *)
Definition iso_date (s : string) : bool :=
  match strptime s with
  | Some d => String.eqb (strftime d) s && (1000 <=? year d)
  | None => false
  end.

(** [day BETWEEN valid_from AND valid_to], on the text of the columns. *)
Definition between (day : string) (r : customer_row) : bool :=
  String.leb (valid_from r) day && String.leb day (valid_to r).

(** [SELECT ... FROM dim_customer
     WHERE customer_id = cid AND day BETWEEN valid_from AND valid_to],
    the point-in-time query of [demonstrate_scd_type2]. *)
Definition as_of (cid : Z) (day : string) (t : list customer_row) : list customer_row :=
  filter (fun r => (customer_id r =? cid) && between day r) t.

(** The tier change, when the call makes one, is dated by text of that form,
    after 1000-01-01, so that the day before it is written in that form too. *)
Definition iso_effective (cid : Z) (new_tier eff : string)
    (t : list customer_row) : bool :=
  match find (is_current_of cid) t with
  | None => true
  | Some cur =>
      if String.eqb (customer_tier cur) new_tier then true
      else iso_date eff && negb (String.eqb eff "1000-01-01")
  end.

Fixpoint iso_dated (us : list tier_update) (t : list customer_row) : bool :=
  match us with
  | [] => true
  | u :: rest =>
      let eff := effective (u_clock u) (u_effective_date u) in
      iso_effective (u_customer_id u) (u_new_tier u) eff t &&
      iso_dated rest (type2_step (u_clock u) (u_customer_id u) (u_new_tier u) eff t)
  end.

(** Both date columns of every row are written in that form. *)
Definition iso_columns (t : list customer_row) : Prop :=
  forall r, In r t -> iso_date (valid_from r) = true /\ iso_date (valid_to r) = true.

(* ====================================================================== *)
(** * [SCDManager.show_current_customers] and further notions *)
(* ====================================================================== *)

(** [ORDER BY]: the rows in ascending order of [leb]; the order the engine
    gives to rows that compare equal is not fixed by SQL, here they keep
    their table order. *)
Fixpoint insert_by {A} (leb : A -> A -> bool) (x : A) (l : list A) : list A :=
  match l with
  | [] => [x]
  | y :: rest => if leb x y then x :: l else y :: insert_by leb x rest
  end.

Definition order_by {A} (leb : A -> A -> bool) (l : list A) : list A :=
  fold_right (insert_by leb) [] l.

(** [ORDER BY valid_from]: text columns compare byte by byte. *)
Definition by_valid_from (r1 r2 : customer_row) : bool :=
  String.leb (valid_from r1) (valid_from r2).

(** [ORDER BY customer_id, valid_from]. *)
Definition by_customer_then_valid_from (r1 r2 : customer_row) : bool :=
  (customer_id r1 <? customer_id r2) ||
  ((customer_id r1 =? customer_id r2) && String.leb (valid_from r1) (valid_from r2)).

(** Python's truth value of the argument in [if customer_id:]: [None] and 0
    are false. *)
Definition truthy (customer_id : option Z) : bool :=
  match customer_id with
  | None => false
  | Some n => negb (n =? 0)
  end.

(** The rows [show_current_customers] reads from [dim_customer] and prints
    (it prints eight of their columns): those of the given customer in
    order of [valid_from], or, when the argument is missing or false, those
    of customers 1 to 5 in order of [customer_id] and [valid_from]. *)
Definition show_current_customers (cid : option Z) (h : warehouse)
    : list customer_row :=
  if truthy cid then
    order_by by_valid_from
      (filter (fun r =>
                 match cid with
                 | Some c => customer_id r =? c
                 | None => false
                 end) (dim_customer h))
  else
    order_by by_customer_then_valid_from
      (filter (fun r => (1 <=? customer_id r) && (customer_id r <=? 5))
         (dim_customer h)).


(** Rows made from [new], with the keys [b], [b + 1], ... in that order. *)
Fixpoint keyed {A R} (mk : Z -> A -> R) (b : Z) (new : list A) : list R :=
  match new with
  | [] => []
  | a :: rest => mk b a :: keyed mk (b + 1) rest
  end.

(** A source whose completed order carries a timestamp, not a date. *)
Definition timestamped_source : Src.db :=
  Src.mkDb
    (Src.categories demo_source) (Src.products demo_source) (Src.customers demo_source)
    [ Src.mkOrder 5 1 "2024-03-05 10:30:00" None "Completed" 20%float ]
    [ Src.mkOrderItem 9 5 1 2 10%float 20%float ].

Definition timestamped_env : etl_env :=
  mkEnv true timestamped_source (fun h => h) reliable demo_clock.

(** [m] commits nothing: however it ends, the database file is what it was. *)
Definition commits_nothing {A} (m : M A) : Prop :=
  forall w, committed (snd (m w)) = committed w.

(* ====================================================================== *)
(** * Examples of the calendar functions *)
(* ====================================================================== *)

Example strptime_ex1 : strptime "2024-06-15" = Some (mkDate 2024 6 15).
Proof. reflexivity. Qed.

Example strptime_ex2 : strptime "2024-6-5" = Some (mkDate 2024 6 5).
Proof. reflexivity. Qed.

Example strptime_ex3 : strptime "2023-02-29" = None.
Proof. reflexivity. Qed.

Example strptime_ex4 : strptime "2024-13-01" = None.
Proof. reflexivity. Qed.

Example strftime_ex1 : strftime (mkDate 2024 6 14) = "2024-06-14".
Proof. reflexivity. Qed.

Example pred_day_ex1 : pred_day (mkDate 2024 3 1) = Some (mkDate 2024 2 29).
Proof. reflexivity. Qed.

Example toordinal_ex1 : toordinal (mkDate 2024 6 15) = 739052.
Proof. reflexivity. Qed.

Example weekday_ex1 : weekday (mkDate 2024 6 15) = 5.
Proof. reflexivity. Qed.

(* ====================================================================== *)
(** * What one tier update does to the connection *)
(* ====================================================================== *)

Lemma set_dim_customer_same (h : warehouse) : set_dim_customer (dim_customer h) h = h.
Proof. destruct h; reflexivity. Qed.

Lemma dim_customer_set (t : list customer_row) (h : warehouse) :
  dim_customer (set_dim_customer t h) = t.
Proof. reflexivity. Qed.

Lemma set_dim_customer_twice (t1 t2 : list customer_row) (h : warehouse) :
  set_dim_customer t2 (set_dim_customer t1 h) = set_dim_customer t2 h.
Proof. reflexivity. Qed.

Lemma update_not_found f clk cid new_tier eff w :
  f SSelectCurrent = None ->
  find (is_current_of cid) (dim_customer (pending w)) = None ->
  update_customer_tier f clk cid new_tier eff w =
    (Ret tt,
     mkWorld (committed w) (pending w)
       ((stdout w ++ [LUpdating cid new_tier (effective clk eff)]) ++ [LNotFound cid])
       (stdin w)).
Proof.
  intros Hf Hfind. unfold update_customer_tier, update_customer_tier_under, fetch_current, statement, statement_level, rollback, bind, print, read, ret.
  rewrite Hf. cbn. rewrite Hfind. reflexivity.
Qed.

Lemma update_same_tier f clk cid new_tier eff w cur :
  f SSelectCurrent = None ->
  find (is_current_of cid) (dim_customer (pending w)) = Some cur ->
  customer_tier cur = new_tier ->
  update_customer_tier f clk cid new_tier eff w =
    (Ret tt,
     mkWorld (committed w) (pending w)
       (((stdout w ++ [LUpdating cid new_tier (effective clk eff)])
           ++ [LTiers (customer_tier cur) new_tier]) ++ [LNoChange])
       (stdin w)).
Proof.
  intros Hf Hfind Htier.
  unfold update_customer_tier, update_customer_tier_under, fetch_current, statement, statement_level, rollback, bind, print, read, ret.
  rewrite Hf. cbn. rewrite Hfind. cbn.
  rewrite (proj2 (String.eqb_eq _ _) Htier). reflexivity.
Qed.

Lemma update_changes clk cid new_tier eff w cur d y :
  find (is_current_of cid) (dim_customer (pending w)) = Some cur ->
  customer_tier cur <> new_tier ->
  strptime (effective clk eff) = Some d ->
  pred_day d = Some y ->
  let h := set_dim_customer
             (close_and_insert clk cur new_tier (effective clk eff) (strftime y)
                (dim_customer (pending w)))
             (pending w) in
  exists out,
    update_customer_tier reliable clk cid new_tier eff w =
      (Ret tt, mkWorld h h out (stdin w)).
Proof.
  intros Hfind Htier Hd Hy h.
  unfold update_customer_tier, update_customer_tier_under, fetch_current, execute_close, execute_insert,
    day_before, commit_under, statement, statement_level, rollback, reliable, bind, print, read, write, ret.
  subst h. destruct eff as [s|]; cbn [effective] in *;
    cbn -[strptime strftime pred_day next_rowid String.eqb];
    rewrite Hfind; cbn -[strptime strftime pred_day next_rowid String.eqb];
    rewrite (proj2 (String.eqb_neq _ _) Htier);
    rewrite Hd, Hy; cbn -[strptime strftime pred_day next_rowid];
    eexists; reflexivity.
Qed.

Lemma update_bad_date f clk cid new_tier eff w cur :
  f SSelectCurrent = None ->
  find (is_current_of cid) (dim_customer (pending w)) = Some cur ->
  customer_tier cur <> new_tier ->
  strptime (effective clk eff) = None ->
  exists out,
    update_customer_tier f clk cid new_tier eff w =
      (Raise (ValueError (effective clk eff)),
       mkWorld (committed w) (pending w) out (stdin w)).
Proof.
  intros Hf Hfind Htier Hd.
  unfold update_customer_tier, update_customer_tier_under, fetch_current, day_before, statement, statement_level, rollback, bind, print, read, ret, raise.
  rewrite Hf.
  destruct eff as [s|]; cbn [effective] in *;
    cbn -[strptime strftime pred_day String.eqb];
    rewrite Hfind; cbn -[strptime strftime pred_day String.eqb];
    rewrite (proj2 (String.eqb_neq _ _) Htier);
    rewrite Hd; eexists; reflexivity.
Qed.

Lemma update_shape f clk cid new_tier eff w :
  let w' := snd (update_customer_tier f clk cid new_tier eff w) in
  exists t',
    pending w' = set_dim_customer t' (pending w) /\
    progress clk cid new_tier (effective clk eff) (dim_customer (pending w)) t' /\
    (committed w' = committed w \/ committed w' = pending w') /\
    stdin w' = stdin w.
Proof.
  assert (Hsame :
    exists t',
      pending w = set_dim_customer t' (pending w) /\
      progress clk cid new_tier (effective clk eff) (dim_customer (pending w)) t' /\
      (committed w = committed w \/ committed w = pending w) /\
      stdin w = stdin w).
  { exists (dim_customer (pending w)).
    rewrite set_dim_customer_same. repeat split; auto. now apply Untouched. }
  cbv zeta.
  unfold update_customer_tier, update_customer_tier_under, fetch_current, execute_close, execute_insert,
    day_before, commit_under, statement, statement_level, rollback, bind, print, read, write, ret, raise.
  fold (effective clk eff).
  destruct (f SSelectCurrent) eqn:Hsel;
    cbn -[strptime strftime pred_day next_rowid String.eqb effective];
    [apply Hsame|].
  destruct (find (is_current_of cid) (dim_customer (pending w))) as [cur|] eqn:Hfind;
    cbn -[strptime strftime pred_day next_rowid String.eqb effective];
    [|apply Hsame].
  destruct (String.eqb (customer_tier cur) new_tier) eqn:Htier;
    cbn -[strptime strftime pred_day next_rowid String.eqb effective];
    [apply Hsame|].
  apply String.eqb_neq in Htier.
  destruct (strptime (effective clk eff)) as [d|] eqn:Hd;
    cbn -[strptime strftime pred_day next_rowid String.eqb effective];
    [|apply Hsame].
  destruct (pred_day d) as [y|] eqn:Hy;
    cbn -[strptime strftime pred_day next_rowid String.eqb effective];
    [|apply Hsame].
  destruct (f SUpdateClose) eqn:Hupd;
    cbn -[strptime strftime pred_day next_rowid String.eqb effective];
    [apply Hsame|].
  destruct (f SInsertVersion) eqn:Hins;
    cbn -[strptime strftime pred_day next_rowid String.eqb effective].
  - eexists. split; [reflexivity|]. split; [|auto].
    eapply ClosedOnly; eauto.
  - destruct (f SCommit) eqn:Hcom;
      cbn -[strptime strftime pred_day next_rowid String.eqb effective].
    + eexists. split; [reflexivity|]. split; [|auto].
      eapply ClosedAndInserted; eauto.
    + eexists. split; [reflexivity|]. split; [|auto].
      eapply ClosedAndInserted; eauto.
Qed.

Lemma update_reliable clk cid new_tier eff w :
  let w' := snd (update_customer_tier reliable clk cid new_tier eff w) in
  pending w' =
    set_dim_customer
      (type2_step clk cid new_tier (effective clk eff) (dim_customer (pending w)))
      (pending w) /\
  (committed w' = committed w \/ committed w' = pending w').
Proof.
  cbv zeta.
  unfold update_customer_tier, update_customer_tier_under, fetch_current, execute_close, execute_insert,
    day_before, commit_under, statement, statement_level, rollback, reliable, bind, print, read, write, ret, raise, type2_step.
  fold (effective clk eff).
  cbn -[strptime strftime pred_day next_rowid String.eqb effective].
  destruct (find (is_current_of cid) (dim_customer (pending w))) as [cur|] eqn:Hfind;
    cbn -[strptime strftime pred_day next_rowid String.eqb effective];
    [|rewrite set_dim_customer_same; auto].
  destruct (String.eqb (customer_tier cur) new_tier) eqn:Htier;
    cbn -[strptime strftime pred_day next_rowid String.eqb effective];
    [rewrite set_dim_customer_same; auto|].
  destruct (strptime (effective clk eff)) as [d|] eqn:Hd;
    cbn -[strptime strftime pred_day next_rowid String.eqb effective];
    [|rewrite set_dim_customer_same; auto].
  destruct (pred_day d) as [y|] eqn:Hy;
    cbn -[strptime strftime pred_day next_rowid String.eqb effective];
    [|rewrite set_dim_customer_same; auto].
  split; [reflexivity|auto].
Qed.

(* ====================================================================== *)
(** * Current rows and surrogate keys *)
(* ====================================================================== *)

Lemma closed_not_current cid y s r : is_current_of cid (close_row y s r) = false.
Proof. unfold is_current_of. cbn. apply andb_false_r. Qed.

Lemma new_version_current cid key cur tier eff c u :
  is_current_of cid (new_version key cur tier eff c u) = (customer_id cur =? cid).
Proof. unfold is_current_of. cbn. apply andb_true_r. Qed.

Lemma keys_close_by_key key y s t :
  map customer_key (close_by_key key y s t) = map customer_key t.
Proof.
  unfold close_by_key. rewrite map_map. apply map_ext.
  intros r. destruct (customer_key r =? key); reflexivity.
Qed.

Lemma ids_close_by_key key y s t :
  map customer_id (close_by_key key y s t) = map customer_id t.
Proof.
  unfold close_by_key. rewrite map_map. apply map_ext.
  intros r. destruct (customer_key r =? key); reflexivity.
Qed.

Lemma current_count_app cid t r :
  current_count cid (t ++ [r]) =
    (current_count cid t + if is_current_of cid r then 1 else 0)%nat.
Proof.
  unfold current_count. rewrite filter_app, length_app. cbn.
  destruct (is_current_of cid r); reflexivity.
Qed.

Lemma current_count_close_le cid key y s t :
  (current_count cid (close_by_key key y s t) <= current_count cid t)%nat.
Proof.
  unfold current_count, close_by_key. induction t as [|r t IH]; cbn; [lia|].
  destruct (customer_key r =? key).
  - rewrite closed_not_current. destruct (is_current_of cid r); cbn; lia.
  - destruct (is_current_of cid r); cbn; lia.
Qed.

Lemma found_current cid t cur :
  find (is_current_of cid) t = Some cur ->
  In cur t /\ customer_id cur = cid /\ is_current cur = 1.
Proof.
  intros H. apply find_some in H. destruct H as [Hin Hc].
  unfold is_current_of in Hc. apply andb_prop in Hc. destruct Hc as [H1 H2].
  apply Z.eqb_eq in H1. apply Z.eqb_eq in H2. auto.
Qed.

Lemma current_count_close_found cid y s t cur :
  (current_count cid t <= 1)%nat ->
  find (is_current_of cid) t = Some cur ->
  current_count cid (close_by_key (customer_key cur) y s t) = 0%nat.
Proof.
  unfold current_count, close_by_key. induction t as [|r t IH]; cbn; [discriminate|].
  destruct (is_current_of cid r) eqn:Hr; cbn; intros Hle Hf.
  - injection Hf as <-. rewrite Z.eqb_refl, closed_not_current.
    pose proof (current_count_close_le cid (customer_key r) y s t) as Hc.
    unfold current_count, close_by_key in Hc. lia.
  - destruct (customer_key r =? customer_key cur).
    + rewrite closed_not_current. auto.
    + rewrite Hr. auto.
Qed.

Lemma same_key_same_row (t : list customer_row) a b :
  NoDup (map customer_key t) -> In a t -> In b t ->
  customer_key a = customer_key b -> a = b.
Proof.
  induction t as [|r t IH]; cbn; [tauto|].
  intros Hnd Ha Hb Hk. inversion Hnd as [|k ks Hnotin Hnd']; subst.
  destruct Ha as [->|Ha], Hb as [->|Hb]; auto.
  - exfalso. apply Hnotin. rewrite Hk. now apply in_map.
  - exfalso. apply Hnotin. rewrite <- Hk. now apply in_map.
Qed.

(** With unique surrogate keys the UPDATE touches the found row only, so the
    count of another natural key does not move. *)
Lemma current_count_close_other cid k y s t cur :
  NoDup (map customer_key t) -> In cur t -> customer_id cur = cid -> k <> cid ->
  current_count k (close_by_key (customer_key cur) y s t) = current_count k t.
Proof.
  intros Hnd Hin Hid Hk. unfold current_count, close_by_key.
  assert (H : forall r, In r t ->
            is_current_of k (if customer_key r =? customer_key cur
                             then close_row y s r else r) = is_current_of k r).
  { intros r Hr. destruct (customer_key r =? customer_key cur) eqn:E; [|reflexivity].
    apply Z.eqb_eq in E. assert (r = cur) by (eapply same_key_same_row; eauto).
    subst r. rewrite closed_not_current. unfold is_current_of.
    destruct (customer_id cur =? k) eqn:E'; [|reflexivity].
    apply Z.eqb_eq in E'. congruence. }
  clear Hnd Hin. induction t as [|r t IH]; cbn; [reflexivity|].
  rewrite (H r (or_introl eq_refl)).
  destruct (is_current_of k r); cbn; rewrite IH; auto;
    intros r' Hr'; apply H; now right.
Qed.

Lemma fold_max_ge (ks : list Z) (a : Z) :
  a <= fold_left Z.max ks a /\ forall k, In k ks -> k <= fold_left Z.max ks a.
Proof.
  revert a. induction ks as [|x ks IH]; cbn; intros a.
  - split; [lia|tauto].
  - destruct (IH (Z.max a x)) as [H1 H2]. split; [lia|].
    intros k [->|Hk]; [lia|auto].
Qed.

Lemma next_rowid_fresh (keys : list Z) k : In k keys -> k < next_rowid keys.
Proof.
  destruct keys as [|a ks]; unfold next_rowid; cbn [In]; [tauto|].
  destruct (fold_max_ge ks a) as [H1 H2].
  intros [->|Hk]; [lia|]. specialize (H2 _ Hk). lia.
Qed.

Lemma NoDup_snoc (l : list Z) x : NoDup l -> ~ In x l -> NoDup (l ++ [x]).
Proof.
  intros Hl Hx. apply NoDup_app; auto.
  - constructor; [cbn; tauto|constructor].
  - intros a Ha [<-|[]]. auto.
Qed.

Lemma keys_close_and_insert clk cur tier eff y t :
  map customer_key (close_and_insert clk cur tier eff y t) =
    map customer_key t ++ [next_rowid (map customer_key t)].
Proof.
  unfold close_and_insert. rewrite map_app, keys_close_by_key. reflexivity.
Qed.

Lemma progress_keys clk cid tier eff t t' :
  progress clk cid tier eff t t' ->
  exists extra, map customer_key t' = map customer_key t ++ extra /\
    (NoDup (map customer_key t) -> NoDup (map customer_key t')).
Proof.
  intros [->|cur d y _ _ _ _ ->|cur d y _ _ _ _ ->].
  - exists []. rewrite app_nil_r. auto.
  - exists []. rewrite app_nil_r, keys_close_by_key. auto.
  - exists [next_rowid (map customer_key t)]. rewrite keys_close_and_insert.
    split; [reflexivity|]. intros Hnd. apply NoDup_snoc; auto.
    intros Hin. apply next_rowid_fresh in Hin. lia.
Qed.

Lemma progress_at_most_one clk cid tier eff t t' :
  progress clk cid tier eff t t' ->
  (forall k, (current_count k t <= 1)%nat) ->
  forall k, (current_count k t' <= 1)%nat.
Proof.
  intros [->|cur d y _ _ _ _ ->|cur d y Hf _ _ _ ->] H k; auto.
  - pose proof (current_count_close_le k (customer_key cur) (strftime y) (stamp_closed clk) t).
    specialize (H k). lia.
  - unfold close_and_insert. rewrite current_count_app, new_version_current.
    destruct (found_current _ _ _ Hf) as (Hin & Hid & _).
    destruct (customer_id cur =? k) eqn:E.
    + apply Z.eqb_eq in E. assert (Hk : k = cid) by congruence. rewrite Hk.
      rewrite current_count_close_found; auto.
    + pose proof (current_count_close_le k (customer_key cur) (strftime y) (stamp_closed clk) t).
      specialize (H k). lia.
Qed.

Lemma type2_step_progress clk cid tier eff t :
  progress clk cid tier eff t (type2_step clk cid tier eff t).
Proof.
  unfold type2_step.
  destruct (find (is_current_of cid) t) as [cur|] eqn:Hf; [|now apply Untouched].
  destruct (String.eqb (customer_tier cur) tier) eqn:Ht; [now apply Untouched|].
  apply String.eqb_neq in Ht.
  destruct (strptime eff) as [d|] eqn:Hd; [|now apply Untouched].
  destruct (pred_day d) as [y|] eqn:Hy; [|now apply Untouched].
  eapply ClosedAndInserted; eauto.
Qed.

Lemma type2_step_exactly_one clk cid tier eff t k :
  NoDup (map customer_key t) ->
  (forall k, (current_count k t <= 1)%nat) ->
  current_count k t = 1%nat ->
  current_count k (type2_step clk cid tier eff t) = 1%nat.
Proof.
  intros Hnd Hle Hk. unfold type2_step.
  destruct (find (is_current_of cid) t) as [cur|] eqn:Hf; auto.
  destruct (String.eqb (customer_tier cur) tier); auto.
  destruct (strptime eff) as [d|]; auto.
  destruct (pred_day d) as [y|]; auto.
  unfold close_and_insert. rewrite current_count_app, new_version_current.
  destruct (found_current _ _ _ Hf) as (Hin & Hid & _).
  destruct (customer_id cur =? k) eqn:E.
  - apply Z.eqb_eq in E. assert (Hkc : k = cid) by congruence. rewrite Hkc.
    rewrite current_count_close_found; auto.
  - apply Z.eqb_neq in E.
    rewrite (current_count_close_other cid k); auto; try lia; congruence.
Qed.

Lemma run_updates_invariant (P : world -> Prop) f :
  (forall u w, P w -> P (apply_update f u w)) ->
  forall us w, P w -> P (run_updates f us w).
Proof.
  intros Hstep us. unfold run_updates.
  induction us as [|u us IH]; cbn; intros w Hw; auto.
Qed.

Lemma apply_update_reliable u w :
  pending (apply_update reliable u w) =
    set_dim_customer
      (type2_step (u_clock u) (u_customer_id u) (u_new_tier u)
         (effective (u_clock u) (u_effective_date u)) (dim_customer (pending w)))
      (pending w).
Proof. unfold apply_update. apply update_reliable. Qed.

(* ====================================================================== *)
(** * The demonstration of [demonstrate_scd_type2] *)
(* ====================================================================== *)

Example demo_update_rows :
  dim_customer (pending (apply_update reliable demo_update demo_world)) =
    [alice_closed; bob; alice_silver].
Proof. reflexivity. Qed.

(* ====================================================================== *)
(** * The tier update: close and insert, no-op, not found *)
(* ====================================================================== *)

(** C1. When the customer has a current row [cur] whose tier differs from the
    new tier and the effective date is a date with a day before it, the call
    returns normally and [dim_customer] becomes: every row under [cur]'s
    surrogate key with [valid_to] set to the day before the effective date,
    [is_current] set to 0 and [updated_at] refreshed, all other rows and
    columns as they were, followed by one new row that copies [customer_id],
    [first_name], [last_name], [email], [phone], [city], [state] and
    [registration_date] from [cur], carries the new tier, has [valid_from]
    equal to the effective date, [valid_to] equal to '9999-12-31' and
    [is_current] equal to 1; the other tables are untouched and the result is
    committed. *)
Theorem update_customer_tier_closes_and_inserts
    (clk : clock) (cid : Z) (new_tier : string) (eff : option string)
    (w : world) (cur : customer_row) (d y : date) :
  find (is_current_of cid) (dim_customer (pending w)) = Some cur ->
  customer_tier cur <> new_tier ->
  strptime (effective clk eff) = Some d ->
  pred_day d = Some y ->
  let res := update_customer_tier reliable clk cid new_tier eff w in
  let t := dim_customer (pending w) in
  let t' :=
    map (fun r =>
           if customer_key r =? customer_key cur then
             mkCustomer (customer_key r) (customer_id r) (first_name r) (last_name r)
               (email r) (phone r) (city r) (state r) (customer_tier r)
               (registration_date r) (valid_from r) (strftime y) 0
               (created_at r) (stamp_closed clk)
           else r) t
    ++ [mkCustomer (next_rowid (map customer_key t)) (customer_id cur)
          (first_name cur) (last_name cur) (email cur) (phone cur) (city cur)
          (state cur) new_tier (registration_date cur) (effective clk eff)
          "9999-12-31" 1 (stamp_created clk) (stamp_updated clk)] in
  fst res = Ret tt /\
  In cur t /\ customer_id cur = cid /\ is_current cur = 1 /\
  pending (snd res) = set_dim_customer t' (pending w) /\
  committed (snd res) = pending (snd res).
Proof.
  intros Hfind Htier Hd Hy res t t'.
  destruct (update_changes clk cid new_tier eff w cur d y Hfind Htier Hd Hy) as [out Hout].
  subst res. rewrite Hout. cbn [fst snd pending committed].
  destruct (found_current _ _ _ Hfind) as (Hin & Hid & Hcur).
  repeat split; auto.
  unfold close_and_insert. rewrite keys_close_by_key. reflexivity.
Qed.

(** The example of the specification: customer 1, Bronze since 2024-01-01,
    moved to Silver on 2024-06-15. *)
Lemma update_customer_tier_closes_and_inserts_witness :
  fst (update_customer_tier reliable demo_clock 1 "Silver" (Some "2024-06-15") demo_world)
    = Ret tt /\
  dim_customer
    (pending (snd (update_customer_tier reliable demo_clock 1 "Silver"
                     (Some "2024-06-15") demo_world)))
    = [alice_closed; bob; alice_silver] /\
  valid_to alice_closed = "2024-06-14" /\ is_current alice_closed = 0 /\
  customer_tier alice_silver = "Silver" /\ valid_from alice_silver = "2024-06-15" /\
  valid_to alice_silver = "9999-12-31" /\ is_current alice_silver = 1.
Proof.
  destruct (update_customer_tier_closes_and_inserts demo_clock 1 "Silver"
              (Some "2024-06-15") demo_world alice (mkDate 2024 6 15) (mkDate 2024 6 14))
    as (Hret & _ & _ & _ & Hpending & _).
  - reflexivity.
  - discriminate.
  - reflexivity.
  - reflexivity.
  - split; [exact Hret|]. split; [rewrite Hpending; reflexivity|].
    repeat split; reflexivity.
Defined.

(** C4. When the customer's current row already has the requested tier, the
    call changes neither the committed database nor what the connection
    sees: no row is inserted, none is modified; it prints that the tier has
    not changed and returns. *)
Theorem update_customer_tier_same_tier_noop
    (f : faults) (clk : clock) (cid : Z) (new_tier : string)
    (eff : option string) (w : world) (cur : customer_row) :
  find (is_current_of cid) (dim_customer (pending w)) = Some cur ->
  customer_tier cur = new_tier ->
  let res := update_customer_tier f clk cid new_tier eff w in
  committed (snd res) = committed w /\
  pending (snd res) = pending w /\
  (f SSelectCurrent = None ->
   fst res = Ret tt /\
   stdout (snd res) =
     stdout w ++ [LUpdating cid new_tier (effective clk eff);
                  LTiers (customer_tier cur) new_tier; LNoChange]).
Proof.
  intros Hfind Htier res. subst res.
  destruct (f SSelectCurrent) as [e|] eqn:Hsel.
  - unfold update_customer_tier, update_customer_tier_under, fetch_current, statement, statement_level, rollback, bind, print, raise.
    rewrite Hsel. cbn [fst snd committed pending].
    split; [reflexivity|]. split; [reflexivity|]. discriminate.
  - rewrite (update_same_tier f clk cid new_tier eff w cur Hsel Hfind Htier).
    cbn [fst snd committed pending stdout].
    split; [reflexivity|]. split; [reflexivity|].
    intros _. split; [reflexivity|]. now rewrite <- !app_assoc.
Qed.

Lemma update_customer_tier_same_tier_noop_witness :
  committed (snd (update_customer_tier reliable demo_clock 1 "Bronze" None demo_world))
    = committed demo_world /\
  pending (snd (update_customer_tier reliable demo_clock 1 "Bronze" None demo_world))
    = pending demo_world.
Proof.
  destruct (update_customer_tier_same_tier_noop reliable demo_clock 1 "Bronze" None
              demo_world alice) as (Hc & Hp & _).
  - reflexivity.
  - reflexivity.
  - split; assumption.
Defined.

(** C5. When no row of [dim_customer] with the given [customer_id] has
    [is_current = 1], the call changes neither the committed database nor
    what the connection sees, and it reports the failure: it prints the
    not-found message and returns. *)
Theorem update_customer_tier_not_found
    (f : faults) (clk : clock) (cid : Z) (new_tier : string)
    (eff : option string) (w : world) :
  (forall r, In r (dim_customer (pending w)) ->
             customer_id r = cid -> is_current r <> 1) ->
  let res := update_customer_tier f clk cid new_tier eff w in
  committed (snd res) = committed w /\
  pending (snd res) = pending w /\
  (f SSelectCurrent = None ->
   fst res = Ret tt /\
   stdout (snd res) =
     stdout w ++ [LUpdating cid new_tier (effective clk eff); LNotFound cid]).
Proof.
  intros Hnone res. subst res.
  assert (Hfind : find (is_current_of cid) (dim_customer (pending w)) = None).
  { destruct (find (is_current_of cid) (dim_customer (pending w))) as [r|] eqn:E; auto.
    destruct (found_current _ _ _ E) as (Hin & Hid & Hc).
    exfalso. exact (Hnone r Hin Hid Hc). }
  destruct (f SSelectCurrent) as [e|] eqn:Hsel.
  - unfold update_customer_tier, update_customer_tier_under, fetch_current, statement, statement_level, rollback, bind, print, raise.
    rewrite Hsel. cbn [fst snd committed pending].
    split; [reflexivity|]. split; [reflexivity|]. discriminate.
  - rewrite (update_not_found f clk cid new_tier eff w Hsel Hfind).
    cbn [fst snd committed pending stdout].
    split; [reflexivity|]. split; [reflexivity|].
    intros _. split; [reflexivity|]. now rewrite <- !app_assoc.
Qed.

Lemma update_customer_tier_not_found_witness :
  committed (snd (update_customer_tier reliable demo_clock 7 "Gold" None demo_world))
    = committed demo_world /\
  pending (snd (update_customer_tier reliable demo_clock 7 "Gold" None demo_world))
    = pending demo_world /\
  stdout (snd (update_customer_tier reliable demo_clock 7 "Gold" None demo_world))
    = [LUpdating 7 "Gold" "2025-10-30"; LNotFound 7].
Proof.
  destruct (update_customer_tier_not_found reliable demo_clock 7 "Gold" None demo_world)
    as (Hc & Hp & Hout).
  - cbn. intros r [<-|[<-|[]]]; cbn; discriminate.
  - destruct (Hout eq_refl) as [_ Hs].
    split; [exact Hc|]. split; [exact Hp|]. rewrite Hs. reflexivity.
Defined.

(* ====================================================================== *)
(** * One current row per natural key *)
(* ====================================================================== *)

Lemma apply_update_at_most_one f u w :
  (forall k, (current_count k (dim_customer (pending w)) <= 1)%nat) ->
  forall k, (current_count k (dim_customer (pending (apply_update f u w))) <= 1)%nat.
Proof.
  intros H. unfold apply_update.
  destruct (update_shape f (u_clock u) (u_customer_id u) (u_new_tier u)
              (u_effective_date u) w) as (t' & Hp & Hprog & _).
  rewrite Hp, dim_customer_set. eapply progress_at_most_one; eauto.
Qed.

Lemma apply_update_unique_keys f u w :
  NoDup (map customer_key (dim_customer (pending w))) ->
  NoDup (map customer_key (dim_customer (pending (apply_update f u w)))).
Proof.
  intros H. unfold apply_update.
  destruct (update_shape f (u_clock u) (u_customer_id u) (u_new_tier u)
              (u_effective_date u) w) as (t' & Hp & Hprog & _).
  rewrite Hp, dim_customer_set.
  destruct (progress_keys _ _ _ _ _ _ Hprog) as (extra & _ & Hnd). auto.
Qed.

(** C2. Starting from a table in which every natural key has at most one
    current row, every state reached by a sequence of tier updates has at
    most one current row per natural key; and when the surrogate keys are
    unique, a natural key that starts with one current row has exactly one
    after any number of updates, on that key or on others. *)
Theorem one_current_row_per_key (us : list tier_update) (w : world) :
  (forall k, (current_count k (dim_customer (pending w)) <= 1)%nat) ->
  let w' := run_updates reliable us w in
  (forall k, (current_count k (dim_customer (pending w')) <= 1)%nat) /\
  (NoDup (map customer_key (dim_customer (pending w))) ->
   forall k, current_count k (dim_customer (pending w)) = 1%nat ->
             current_count k (dim_customer (pending w')) = 1%nat).
Proof.
  intros Hle w'. subst w'. split.
  - apply (run_updates_invariant
             (fun w => forall k, (current_count k (dim_customer (pending w)) <= 1)%nat));
      auto.
    intros u w0. apply apply_update_at_most_one.
  - intros Hnd k Hk.
    apply (run_updates_invariant
             (fun w =>
                NoDup (map customer_key (dim_customer (pending w))) /\
                (forall k, (current_count k (dim_customer (pending w)) <= 1)%nat) /\
                current_count k (dim_customer (pending w)) = 1%nat) reliable);
      auto.
    intros u w0 (Hnd0 & Hle0 & Hk0). split; [|split].
    + now apply apply_update_unique_keys.
    + now apply apply_update_at_most_one.
    + rewrite apply_update_reliable, dim_customer_set.
      now apply type2_step_exactly_one.
Qed.

Lemma one_current_row_per_key_witness :
  (forall k, (current_count k
                (dim_customer (pending (run_updates reliable demo_updates demo_world)))
              <= 1)%nat) /\
  current_count 1
    (dim_customer (pending (run_updates reliable demo_updates demo_world))) = 1%nat.
Proof.
  assert (Hle : forall k, (current_count k (dim_customer (pending demo_world)) <= 1)%nat).
  { intros k. unfold current_count, is_current_of. cbn -[Z.eqb].
    destruct (1 =? k) eqn:E1; destruct (2 =? k) eqn:E2; cbn; lia. }
  destruct (one_current_row_per_key demo_updates demo_world Hle) as [H1 H2].
  split; [exact H1|]. apply H2.
  - cbn. repeat constructor; cbn; intuition discriminate.
  - reflexivity.
Defined.

(* ====================================================================== *)
(** * The fact table and the surrogate keys are left alone *)
(* ====================================================================== *)

Lemma same_but_dim_customer_set t h : same_but_dim_customer h (set_dim_customer t h).
Proof. repeat split. Qed.

(** C7. Whatever sequence of tier updates runs on the connection, and
    whichever library calls fail in it, the connection sees [fact_sales] (and
    every table other than [dim_customer]) row for row as before; the
    committed [fact_sales] is the one committed before or the one the
    connection saw before; and the rows that were in [dim_customer] keep
    their surrogate keys, in the same positions, new keys only being added
    after them. *)
Theorem dimension_updates_leave_facts (f : faults) (us : list tier_update) (w : world) :
  let w' := run_updates f us w in
  fact_sales (pending w') = fact_sales (pending w) /\
  List.length (fact_sales (pending w')) = List.length (fact_sales (pending w)) /\
  same_but_dim_customer (pending w) (pending w') /\
  (fact_sales (committed w') = fact_sales (committed w) \/
   fact_sales (committed w') = fact_sales (pending w)) /\
  exists new_keys,
    map customer_key (dim_customer (pending w')) =
      map customer_key (dim_customer (pending w)) ++ new_keys.
Proof.
  cbv zeta.
  pose (P := fun w0 : world =>
    same_but_dim_customer (pending w) (pending w0) /\
    (fact_sales (committed w0) = fact_sales (committed w) \/
     fact_sales (committed w0) = fact_sales (pending w)) /\
    exists new_keys,
      map customer_key (dim_customer (pending w0)) =
        map customer_key (dim_customer (pending w)) ++ new_keys).
  assert (HP : P (run_updates f us w)).
  { apply run_updates_invariant.
    - intros u w0 (Hsame & Hcom & (ks & Hks)). unfold apply_update.
      destruct (update_shape f (u_clock u) (u_customer_id u) (u_new_tier u)
                  (u_effective_date u) w0) as (t' & Hp & Hprog & Hc & _).
      assert (Hs' : same_but_dim_customer (pending w)
                      (pending (snd (update_customer_tier f (u_clock u) (u_customer_id u)
                                       (u_new_tier u) (u_effective_date u) w0)))).
      { rewrite Hp. destruct Hsame as (A & B & C & D & E).
        repeat split; cbn; auto. }
      split; [exact Hs'|]. split.
      + destruct Hc as [Hc|Hc]; rewrite Hc; auto.
        right. apply Hs'.
      + destruct (progress_keys _ _ _ _ _ _ Hprog) as (extra & Hextra & _).
        exists (ks ++ extra). rewrite Hp, dim_customer_set, Hextra, Hks.
        now rewrite app_assoc.
    - split; [repeat split|]. split; [auto|]. exists []. now rewrite app_nil_r. }
  destruct HP as (Hsame & Hcom & Hkeys).
  assert (Hf : fact_sales (pending (run_updates f us w)) = fact_sales (pending w))
    by apply Hsame.
  split; [exact Hf|]. split; [now rewrite Hf|]. auto.
Qed.

(* ====================================================================== *)
(** * The close and the insert when a statement fails *)
(* ====================================================================== *)

(** What a call commits is nothing, or the close and the insert together. *)
Lemma update_commits_both_or_nothing f clk cid new_tier eff w :
  let res := update_customer_tier f clk cid new_tier eff w in
  committed (snd res) = committed w \/
  (fst res = Ret tt /\
   exists cur d y,
     find (is_current_of cid) (dim_customer (pending w)) = Some cur /\
     strptime (effective clk eff) = Some d /\ pred_day d = Some y /\
     committed (snd res) =
       set_dim_customer
         (close_and_insert clk cur new_tier (effective clk eff) (strftime y)
            (dim_customer (pending w)))
         (pending w) /\
     pending (snd res) = committed (snd res)).
Proof.
  cbv zeta.
  unfold update_customer_tier, update_customer_tier_under, fetch_current, execute_close, execute_insert,
    day_before, commit_under, statement, statement_level, rollback, bind, print, read, write, ret, raise.
  fold (effective clk eff).
  destruct (f SSelectCurrent);
    cbn -[strptime strftime pred_day next_rowid String.eqb effective]; auto.
  destruct (find (is_current_of cid) (dim_customer (pending w))) as [cur|] eqn:Hfind;
    cbn -[strptime strftime pred_day next_rowid String.eqb effective]; auto.
  destruct (String.eqb (customer_tier cur) new_tier);
    cbn -[strptime strftime pred_day next_rowid String.eqb effective]; auto.
  destruct (strptime (effective clk eff)) as [d|] eqn:Hd;
    cbn -[strptime strftime pred_day next_rowid String.eqb effective]; auto.
  destruct (pred_day d) as [y|] eqn:Hy;
    cbn -[strptime strftime pred_day next_rowid String.eqb effective]; auto.
  destruct (f SUpdateClose);
    cbn -[strptime strftime pred_day next_rowid String.eqb effective]; auto.
  destruct (f SInsertVersion);
    cbn -[strptime strftime pred_day next_rowid String.eqb effective]; auto.
  destruct (f SCommit);
    cbn -[strptime strftime pred_day next_rowid String.eqb effective]; auto.
  right. split; [reflexivity|]. exists cur, d, y. repeat split; auto.
Qed.

(** A failing statement of a run whose engine undoes statements alone is a
    failing call. *)
Lemma statement_level_call f s w : statement statement_level f s w = call f s w.
Proof. unfold statement, statement_level, call, bind, ret. destruct (f s); reflexivity. Qed.

(** C6, as the code has it.  When the INSERT fails after the UPDATE has run,
    the call raises with nothing committed: the database file is as it was.
    The function itself issues no rollback, so what the connection sees is
    left to the engine: if it rolled the transaction back, the table as
    committed; if it undid the INSERT alone, as for a constraint violation,
    the table with the old row closed and no new row, so that the customer
    has no current row there, and that state is what a later commit on the
    connection writes.  Closing the connection discards it. *)
Theorem failed_insert_commits_nothing
    (r : reaction) (f : faults) (clk : clock) (cid : Z) (new_tier : string)
    (eff : option string) (w : world) (cur : customer_row) (d y : date) (e : exn) :
  f SSelectCurrent = None ->
  find (is_current_of cid) (dim_customer (pending w)) = Some cur ->
  customer_tier cur <> new_tier ->
  strptime (effective clk eff) = Some d ->
  pred_day d = Some y ->
  f SUpdateClose = None ->
  f SInsertVersion = Some e ->
  let res := update_customer_tier_under r f clk cid new_tier eff w in
  let closed :=
    set_dim_customer
      (close_by_key (customer_key cur) (strftime y) (stamp_closed clk)
         (dim_customer (pending w)))
      (pending w) in
  fst res = Raise e /\
  committed (snd res) = committed w /\
  pending (snd res) = (if r SInsertVersion then committed w else closed) /\
  (r SInsertVersion = false ->
   (current_count cid (dim_customer (pending w)) <= 1)%nat ->
   current_count cid (dim_customer (pending (snd res))) = 0%nat /\
   committed (snd (commit reliable (snd res))) = closed) /\
  pending (snd (close reliable (snd res))) = committed w.
Proof.
  intros Hsel Hfind Htier Hd Hy Hupd Hins res closed. subst res closed.
  unfold update_customer_tier_under, fetch_current, execute_close, execute_insert,
    day_before, commit_under, commit, close, statement, rollback, call, reliable,
    bind, print, read, write, ret, raise.
  fold (effective clk eff). rewrite Hsel.
  cbn -[strptime strftime pred_day next_rowid String.eqb effective].
  rewrite Hfind.
  cbn -[strptime strftime pred_day next_rowid String.eqb effective].
  rewrite (proj2 (String.eqb_neq _ _) Htier), Hd.
  cbn -[strptime strftime pred_day next_rowid String.eqb effective].
  rewrite Hy, Hupd.
  cbn -[strptime strftime pred_day next_rowid String.eqb effective].
  rewrite Hins.
  destruct (r SInsertVersion);
    cbn -[strptime strftime pred_day next_rowid String.eqb effective].
  - repeat split; auto; discriminate.
  - repeat split; auto. now apply current_count_close_found.
Qed.

Lemma failed_insert_commits_nothing_witness :
  fst (update_customer_tier_under statement_level insert_fails demo_clock 1 "Silver"
         (Some "2024-06-15") demo_world) = Raise (DatabaseError "constraint failed") /\
  committed (snd (update_customer_tier_under statement_level insert_fails demo_clock 1
                    "Silver" (Some "2024-06-15") demo_world)) = committed demo_world /\
  dim_customer
    (pending (snd (update_customer_tier_under statement_level insert_fails demo_clock 1
                     "Silver" (Some "2024-06-15") demo_world))) = [alice_closed; bob] /\
  dim_customer
    (pending (snd (update_customer_tier_under (fun _ => true) disk_full demo_clock 1
                     "Silver" (Some "2024-06-15") demo_world))) = [alice; bob].
Proof.
  destruct (failed_insert_commits_nothing statement_level insert_fails demo_clock 1
              "Silver" (Some "2024-06-15") demo_world alice (mkDate 2024 6 15)
              (mkDate 2024 6 14) (DatabaseError "constraint failed"))
    as (Hret & Hcom & Hpen & _);
    [reflexivity|reflexivity|discriminate|reflexivity|reflexivity|reflexivity|reflexivity|].
  destruct (failed_insert_commits_nothing (fun _ => true) disk_full demo_clock 1
              "Silver" (Some "2024-06-15") demo_world alice (mkDate 2024 6 15)
              (mkDate 2024 6 14) (DatabaseError "database or disk is full"))
    as (_ & _ & Hpen' & _);
    [reflexivity|reflexivity|discriminate|reflexivity|reflexivity|reflexivity|reflexivity|].
  split; [exact Hret|]. split; [exact Hcom|].
  split; [rewrite Hpen|rewrite Hpen']; reflexivity.
Defined.

(** C6, as the specification states it, fails.  The INSERT for customer 1 is
    rejected after the UPDATE has run: customer 1, who had one current row,
    has none on the connection once the call has failed; and the next call
    that succeeds on the connection, a tier update of customer 2, commits
    that state to the database file. *)
Lemma close_without_insert_is_observable :
  let failed :=
    update_customer_tier insert_fails demo_clock 1 "Silver" (Some "2024-06-15")
      demo_world in
  let next :=
    update_customer_tier reliable demo_clock 2 "Platinum" (Some "2024-07-01")
      (snd failed) in
  current_count 1 (dim_customer (pending demo_world)) = 1%nat /\
  fst failed = Raise (DatabaseError "constraint failed") /\
  current_count 1 (dim_customer (pending (snd failed))) = 0%nat /\
  fst next = Ret tt /\
  current_count 1 (dim_customer (committed (snd next))) = 0%nat /\
  In alice_closed (dim_customer (committed (snd next))).
Proof. cbv zeta. repeat split; try reflexivity. cbn. auto. Qed.

(* ====================================================================== *)
(** * Which exceptions leave the ETL script *)
(* ====================================================================== *)

Section RaisesOnly.
Variable P : exn -> Prop.

Lemma raises_only_ret {A} (a : A) : raises_only P (ret a).
Proof. intros w e w' H. discriminate. Qed.

Lemma raises_only_raise {A} (e : exn) : P e -> raises_only P (@raise A e).
Proof. intros He w e' w' H. injection H as <- _. exact He. Qed.

Lemma raises_only_print l : raises_only P (print l).
Proof. intros w e w' H. discriminate. Qed.

Lemma raises_only_read : raises_only P read.
Proof. intros w e w' H. discriminate. Qed.

Lemma raises_only_write h : raises_only P (write h).
Proof. intros w e w' H. discriminate. Qed.

Lemma raises_only_bind {A B} (m : M A) (k : A -> M B) :
  raises_only P m -> (forall a, raises_only P (k a)) -> raises_only P (bind m k).
Proof.
  intros Hm Hk w e w' H. unfold bind in H.
  destruct (m w) as [[a|e0] w0] eqn:E.
  - eapply Hk; eauto.
  - injection H as <- _. eapply Hm; eauto.
Qed.

Lemma raises_only_call f s :
  (forall e, f s = Some e -> P e) -> raises_only P (call f s).
Proof.
  intros Hf. unfold call. destruct (f s) as [e|].
  - apply raises_only_raise. auto.
  - apply raises_only_ret.
Qed.

Lemma raises_only_if {A} (b : bool) (m1 m2 : M A) :
  raises_only P m1 -> raises_only P m2 -> raises_only P (if b then m1 else m2).
Proof. destruct b; auto. Qed.

End RaisesOnly.

Create HintDb raises.

Section EtlRaises.
Variable env : etl_env.
Hypothesis faults_are_exceptions :
  forall s e, etl_faults env s = Some e -> is_Exception e = true.

Let P := fun e => is_Exception e = true.

Ltac raises :=
  repeat first
    [ solve [auto with raises nocore]
    | apply raises_only_print
    | apply raises_only_read
    | apply raises_only_write
    | apply raises_only_ret
    | apply raises_only_call; intros ?; apply faults_are_exceptions
    | apply raises_only_raise; reflexivity
    | apply raises_only_if
    | apply raises_only_bind; [|intros ?] ].

Lemma commit_raises : raises_only P (commit (etl_faults env)).
Proof.
  unfold commit. apply raises_only_bind; [|intros ?].
  - apply raises_only_call. intros e. apply faults_are_exceptions.
  - intros w e w' H. discriminate.
Qed.
#[local] Hint Resolve commit_raises : raises.

Lemma to_sql_raises t store : raises_only P (to_sql (etl_faults env) t store).
Proof. unfold to_sql. raises. Qed.
#[local] Hint Resolve to_sql_raises : raises.

Lemma select_count_raises t : raises_only P (select_count (etl_faults env) t).
Proof. unfold select_count. raises. Qed.
#[local] Hint Resolve select_count_raises : raises.

Lemma date_rows_raises fuel a b e :
  date_rows fuel a b = Raise e -> e = OverflowError.
Proof.
  revert a. induction fuel as [|n IH]; cbn; intros a H; [discriminate|].
  destruct (toordinal a <=? toordinal b); [|discriminate].
  destruct (next_day a) as [a'|]; [|congruence].
  destruct (date_rows n a' b) eqn:E; [discriminate|].
  injection H as <-. eauto.
Qed.

Lemma with_date_keys_raises df e :
  with_date_keys df = Raise e -> exists s, e = ValueError s.
Proof.
  induction df as [|s df IH]; cbn; intros H; [discriminate|].
  destruct (py_int (remove_dashes (s_order_date s))).
  - destruct (with_date_keys df); [discriminate|]. injection H as <-. auto.
  - injection H as <-. eauto.
Qed.

Lemma parse_date_raises s : raises_only P (parse_date s).
Proof. unfold parse_date. destruct (strptime s); raises. Qed.
#[local] Hint Resolve parse_date_raises : raises.

Lemma lift_date_rows_raises fuel a b : raises_only P (lift (date_rows fuel a b)).
Proof.
  unfold lift. destruct (date_rows fuel a b) eqn:E; raises.
  apply date_rows_raises in E. subst. apply raises_only_raise. reflexivity.
Qed.
#[local] Hint Resolve lift_date_rows_raises : raises.

Lemma lift_with_date_keys_raises df : raises_only P (lift (with_date_keys df)).
Proof.
  unfold lift. destruct (with_date_keys df) eqn:E; raises.
  apply with_date_keys_raises in E. destruct E as [s ->].
  apply raises_only_raise. reflexivity.
Qed.
#[local] Hint Resolve lift_with_date_keys_raises : raises.










End EtlRaises.



Example failed_customer_load_is_printed :
  In (LEtlFailed (DatabaseError "disk I/O error"))
    (stdout (snd (run_full_etl
                    (mkEnv true demo_source (fun h => h) customer_load_fails demo_clock)
                    (fresh_world [])))).
Proof. vm_compute. tauto. Qed.


(* ====================================================================== *)
(** * What the loaders do to the warehouse *)
(* ====================================================================== *)

Lemma effect_is_any sure m F : effect sure m F -> effect_any sure m F.
Proof.
  intros H w. destruct (H w) as (out & c & E & Hc). exists (Ret tt), out, c. auto.
Qed.

Lemma effect_weaken s m F : effect s m F -> effect false m F.
Proof.
  intros H w. destruct (H w) as (out & c & E & [Hc|(_ & Hc)]);
    exists out, c; auto.
Qed.

Lemma effect_print l : effect false (print l) (fun h => h).
Proof.
  intros w. exists (stdout w ++ [l]), (committed w). split; [reflexivity|]. auto.
Qed.

Lemma effect_bind s1 s2 m1 m2 F1 F2 :
  effect s1 m1 F1 -> effect s2 m2 F2 ->
  effect (s1 || s2) (m1 ;; m2) (fun h => F2 (F1 h)).
Proof.
  intros H1 H2 w. unfold bind.
  destruct (H1 w) as (out1 & c1 & E1 & Hc1). rewrite E1.
  destruct (H2 (mkWorld c1 (F1 (pending w)) out1 (stdin w))) as (out2 & c2 & E2 & Hc2).
  cbn [pending committed stdin] in *. rewrite E2.
  exists out2, c2. split; [reflexivity|].
  destruct Hc2 as [->|(-> & -> & Hid2)]; [now left|].
  rewrite Hid2.
  destruct Hc1 as [->|(-> & -> & Hid1)]; [now left|].
  right. rewrite Hid1. auto.
Qed.

Lemma effect_any_bind s1 s2 m1 m2 F1 F2 :
  effect s1 m1 F1 -> effect_any s2 m2 F2 ->
  effect_any (s1 || s2) (m1 ;; m2) (fun h => F2 (F1 h)).
Proof.
  intros H1 H2 w. unfold bind.
  destruct (H1 w) as (out1 & c1 & E1 & Hc1). rewrite E1.
  destruct (H2 (mkWorld c1 (F1 (pending w)) out1 (stdin w))) as (r & out2 & c2 & E2 & Hc2).
  cbn [pending committed stdin] in *. rewrite E2.
  exists r, out2, c2. split; [reflexivity|].
  destruct Hc2 as [->|(-> & -> & Hid2)]; [now left|].
  rewrite Hid2.
  destruct Hc1 as [->|(-> & -> & Hid1)]; [now left|].
  right. rewrite Hid1. auto.
Qed.

(** Something that changes nothing may follow without changing the effect. *)
Lemma effect_any_then s m k F :
  effect_any s m F -> effect false k (fun h => h) -> effect_any s (m ;; k) F.
Proof.
  intros H1 H2 w. unfold bind.
  destruct (H1 w) as (r & out1 & c1 & E1 & Hc1). rewrite E1.
  destruct r as [[]|e].
  - destruct (H2 (mkWorld c1 (F (pending w)) out1 (stdin w))) as (out2 & c2 & E2 & Hc2).
    cbn [pending committed stdin] in *. rewrite E2.
    exists (Ret tt), out2, c2. split; [reflexivity|].
    destruct Hc2 as [->|(_ & -> & _)]; [now left|]. exact Hc1.
  - exists (Raise e), out1, c1. auto.
Qed.

Lemma effect_any_try s body handler F :
  effect_any s body F ->
  (forall e, effect false (handler e) (fun h => h)) ->
  effect_any s (try_except body handler) F.
Proof.
  intros H1 H2 w. unfold try_except.
  destruct (H1 w) as (r & out1 & c1 & E1 & Hc1). rewrite E1.
  destruct r as [[]|e].
  - exists (Ret tt), out1, c1. auto.
  - destruct (is_Exception e).
    + destruct (H2 e (mkWorld c1 (F (pending w)) out1 (stdin w)))
        as (out2 & c2 & E2 & Hc2).
      cbn [pending committed stdin] in *. rewrite E2.
      exists (Ret tt), out2, c2. split; [reflexivity|].
      destruct Hc2 as [->|(_ & -> & _)]; [now left|]. exact Hc1.
    + exists (Raise e), out1, c1. auto.
Qed.

Lemma count_positive {A} (l : list A) :
  (0 <? Z.of_nat (List.length l)) = match l with [] => false | _ => true end.
Proof. destruct l; reflexivity. Qed.

Lemma default_date_rows_length : List.length default_date_rows = 1096%nat.
Proof. vm_compute. reflexivity. Qed.

Lemma default_date_rows_built :
  date_rows (Z.to_nat (toordinal (mkDate 2025 12 31) - toordinal (mkDate 2023 1 1) + 1))
    (mkDate 2023 1 1) (mkDate 2025 12 31) = Ret default_date_rows.
Proof.
  change (Z.to_nat (toordinal (mkDate 2025 12 31) - toordinal (mkDate 2023 1 1) + 1))
    with 1096%nat.
  unfold default_date_rows.
  destruct (date_rows 1096 (mkDate 2023 1 1) (mkDate 2025 12 31)) eqn:E; [reflexivity|].
  vm_compute in E. discriminate.
Qed.

Section Loaders.
Variable env : etl_env.
Hypothesis no_fault : forall s, etl_faults env s = None.

Ltac run_loader :=
  unfold select_count, to_sql, commit, call, bind, print, read, write, ret, raise, lift;
  rewrite ?no_fault;
  cbn [fst snd committed pending stdout stdin row_count].

Lemma create_warehouse_schema_effect :
  effect true (create_warehouse_schema env) (data_modeling_sql env).
Proof.
  intros w. unfold create_warehouse_schema. run_loader.
  eexists _, _. split; [reflexivity|]. now left.
Qed.

Lemma load_dim_date_effect :
  effect false (load_dim_date env "2023-01-01" "2025-12-31") dates_loaded.
Proof.
  intros w. unfold load_dim_date, dates_loaded, parse_date. run_loader.
  rewrite count_positive.
  destruct (dim_date (pending w)) as [|r t] eqn:E; cbn [guarded].
  - change (strptime "2023-01-01") with (Some (mkDate 2023 1 1)).
    change (strptime "2025-12-31") with (Some (mkDate 2025 12 31)).
    run_loader. rewrite default_date_rows_built. run_loader. rewrite E.
    eexists _, _. split; [reflexivity|]. now left.
  - eexists _, _. split; [reflexivity|]. right. auto.
Qed.

Lemma load_dim_customer_effect :
  effect false (load_dim_customer env) (customers_loaded env).
Proof.
  intros w. unfold load_dim_customer, customers_loaded. run_loader.
  rewrite count_positive.
  destruct (dim_customer (pending w)) as [|r t] eqn:E; cbn [guarded].
  - run_loader. rewrite E. eexists _, _. split; [reflexivity|]. now left.
  - eexists _, _. split; [reflexivity|]. right. auto.
Qed.

Lemma load_dim_product_effect :
  effect false (load_dim_product env) (products_loaded env).
Proof.
  intros w. unfold load_dim_product, products_loaded. run_loader.
  rewrite count_positive.
  destruct (dim_product (pending w)) as [|r t] eqn:E; cbn [guarded].
  - run_loader. rewrite E. eexists _, _. split; [reflexivity|]. now left.
  - eexists _, _. split; [reflexivity|]. right. auto.
Qed.

Lemma load_dim_order_status_effect :
  effect true (load_dim_order_status env) (set_dim_order_status statuses).
Proof.
  intros w. unfold load_dim_order_status. run_loader.
  eexists _, _. split; [reflexivity|]. now left.
Qed.

Lemma load_dim_payment_method_effect :
  effect true (load_dim_payment_method env) (set_dim_payment_method methods).
Proof.
  intros w. unfold load_dim_payment_method. run_loader.
  eexists _, _. split; [reflexivity|]. now left.
Qed.

Lemma load_fact_sales_effect :
  effect_any false (load_fact_sales env) (facts_loaded env).
Proof.
  intros w. unfold load_fact_sales, facts_loaded. run_loader.
  rewrite count_positive.
  destruct (fact_sales (pending w)) as [|r t] eqn:E; cbn [guarded].
  - destruct (with_date_keys (extract_sales (source env))) as [df|e]; run_loader.
    + rewrite E. eexists _, _, _. split; [reflexivity|]. now left.
    + eexists _, _, _. split; [reflexivity|]. right. auto.
  - eexists _, _, _. split; [reflexivity|]. right. auto.
Qed.

Lemma verify_tables_effect ts :
  effect false (verify_tables (etl_faults env) ts) (fun h => h).
Proof.
  induction ts as [|t ts IH]; cbn [verify_tables].
  - intros w. exists (stdout w), (committed w). split; [destruct w; reflexivity|]. auto.
  - intros w. run_loader.
    destruct (IH (mkWorld (committed w) (pending w)
                    (stdout w ++ [LVerifyCount t (row_count t (pending w))]) (stdin w)))
      as (out & c & Ev & Hc).
    cbn [pending committed stdin] in *. rewrite Ev.
    exists out, c. auto.
Qed.

Lemma run_full_etl_effect : effect_any true (run_full_etl env) (etl_loaded env).
Proof.
  unfold run_full_etl, etl_steps.
  apply (effect_any_bind false true _ _ (fun h => h) (etl_loaded env) (effect_print _)).
  apply effect_any_try; [|intros e; apply (effect_bind false false _ _ _ _
                                            (effect_print _) (effect_print _))].
  unfold etl_loaded.
  apply (effect_any_bind true false _ _ _
           (fun h => facts_loaded env
                       (set_dim_payment_method methods
                          (set_dim_order_status statuses
                             (products_loaded env (customers_loaded env (dates_loaded h))))))
           create_warehouse_schema_effect).
  apply (effect_any_bind false false _ _ _
           (fun h => facts_loaded env
                       (set_dim_payment_method methods
                          (set_dim_order_status statuses
                             (products_loaded env (customers_loaded env h)))))
           load_dim_date_effect).
  apply (effect_any_bind false false _ _ _
           (fun h => facts_loaded env
                       (set_dim_payment_method methods
                          (set_dim_order_status statuses (products_loaded env h))))
           load_dim_customer_effect).
  apply (effect_any_bind false false _ _ _
           (fun h => facts_loaded env
                       (set_dim_payment_method methods (set_dim_order_status statuses h)))
           load_dim_product_effect).
  apply (effect_any_bind false false _ _ _
           (fun h => facts_loaded env (set_dim_payment_method methods h))
           (effect_weaken _ _ _ load_dim_order_status_effect)).
  apply (effect_any_bind false false _ _ _ (facts_loaded env)
           (effect_weaken _ _ _ load_dim_payment_method_effect)).
  apply effect_any_then; [apply load_fact_sales_effect|].
  apply (effect_bind false false _ _ (fun h => h) (fun h => h)
           (verify_tables_effect _) (effect_print _)).
Qed.

End Loaders.

(* ====================================================================== *)
(** * Running the ETL on a warehouse that is already loaded *)
(* ====================================================================== *)

Lemma etl_loaded_tables env h :
  (forall h, data_modeling_sql env h = h) ->
  etl_loaded env h =
    mkWarehouse
      (or_load (dim_date h) default_date_rows)
      (or_load (dim_customer h) (customers_of env))
      (or_load (dim_product h) (products_of env))
      statuses methods
      (or_load (fact_sales h)
         (facts_of env (or_load (dim_customer h) (customers_of env))
            (or_load (dim_product h) (products_of env)))).
Proof.
  intros Hschema. unfold etl_loaded. rewrite Hschema.
  unfold facts_loaded, products_loaded, customers_loaded, dates_loaded, facts_of,
    customers_of, products_of, current_customer_keys, product_keys.
  destruct h as [dd dc dp dos dpm fs].
  destruct dd, dc, dp, fs; cbn [guarded or_load dim_date dim_customer dim_product
    dim_order_status dim_payment_method fact_sales set_dim_date set_dim_customer
    set_dim_product set_dim_order_status set_dim_payment_method set_fact_sales app];
    try reflexivity;
    destruct (with_date_keys (extract_sales (source env))); reflexivity.
Qed.

Lemma length_append_auto {A R} (key_of : R -> Z) (mk : Z -> A -> R) new t :
  List.length (append_auto key_of mk t new) = (List.length t + List.length new)%nat.
Proof.
  revert t. induction new as [|a new IH]; intros t; cbn [append_auto List.length].
  - lia.
  - rewrite IH, length_app. cbn. lia.
Qed.

Lemma or_load_again {A} (t l l' : list A) :
  (l = [] -> l' = []) -> or_load (or_load t l) l' = or_load t l.
Proof.
  intros H. destruct t; cbn; [|reflexivity].
  destruct l; cbn; [|reflexivity]. now apply H.
Qed.

Lemma or_load_nonempty {A} (t l : list A) : t <> [] -> or_load t l = t.
Proof. destruct t; [congruence|reflexivity]. Qed.

Lemma customers_of_empty env env' :
  source env' = source env -> customers_of env = [] -> customers_of env' = [].
Proof.
  unfold customers_of. intros -> H.
  apply (f_equal (@List.length _)) in H. rewrite length_append_auto in H.
  destruct (Src.customers (source env)); [reflexivity|discriminate].
Qed.

Lemma products_of_empty env env' :
  source env' = source env -> products_of env = [] -> products_of env' = [].
Proof.
  unfold products_of. intros -> H.
  apply (f_equal (@List.length _)) in H. rewrite length_append_auto in H.
  destruct (products_with_category (source env)); [reflexivity|discriminate].
Qed.

Lemma facts_of_same_source env env' dc dp :
  source env' = source env -> facts_of env' dc dp = facts_of env dc dp.
Proof. unfold facts_of. now intros ->. Qed.

Lemma default_date_rows_nonempty : default_date_rows <> [].
Proof.
  intros H. apply (f_equal (@List.length _)) in H.
  rewrite default_date_rows_length in H. discriminate.
Qed.

Lemma etl_loaded_again env env' h :
  (forall h, data_modeling_sql env h = h) ->
  (forall h, data_modeling_sql env' h = h) ->
  source env' = source env \/ loaded (etl_loaded env h) ->
  etl_loaded env' (etl_loaded env h) = etl_loaded env h.
Proof.
  intros Hs Hs' Hcase.
  rewrite (etl_loaded_tables env' _ Hs').
  rewrite (etl_loaded_tables env h Hs) in *. unfold loaded in Hcase.
  cbn [dim_date dim_customer dim_product fact_sales] in *.
  destruct Hcase as [Hsrc|(Hd & Hc & Hp & Hf)].
  - rewrite (or_load_again (dim_date h)) by auto.
    rewrite (or_load_again (dim_customer h)) by (apply customers_of_empty; auto).
    rewrite (or_load_again (dim_product h)) by (apply products_of_empty; auto).
    rewrite (or_load_again (fact_sales h));
      [reflexivity|rewrite (facts_of_same_source env env') by auto; auto].
  - rewrite (or_load_nonempty _ default_date_rows Hd).
    rewrite (or_load_nonempty _ (customers_of env') Hc).
    rewrite (or_load_nonempty _ (products_of env') Hp).
    rewrite (or_load_nonempty _ _ Hf). reflexivity.
Qed.

(** On a warehouse whose guarded tables have rows, the ETL keeps them and
    rewrites the two replace-mode tables, whatever the source holds. *)
Lemma etl_loaded_keeps env h :
  (forall h, data_modeling_sql env h = h) ->
  loaded h ->
  etl_loaded env h = set_dim_payment_method methods (set_dim_order_status statuses h).
Proof.
  intros Hs (Hd & Hc & Hp & Hf). rewrite (etl_loaded_tables env h Hs).
  rewrite (or_load_nonempty _ _ Hd), (or_load_nonempty _ _ Hc),
    (or_load_nonempty _ _ Hp), (or_load_nonempty _ _ Hf).
  destruct h; reflexivity.
Qed.

Lemma run_full_etl_tables env w :
  (forall s, etl_faults env s = None) ->
  pending (snd (run_full_etl env w)) = etl_loaded env (pending w) /\
  committed (snd (run_full_etl env w)) = etl_loaded env (pending w).
Proof.
  intros Hf.
  destruct (run_full_etl_effect env Hf w) as (r & out & c & E & Hc). rewrite E.
  cbn [snd pending committed].
  destruct Hc as [->|(Hfalse & _)]; [auto|discriminate].
Qed.

(** C10. Let the ETL run once, with no library call failing and a schema
    script that writes no rows, and then a second time in the same way.
    If the second run reads the same source, or if the first run left rows
    in each of the four count-guarded tables, the second run leaves every
    table as the first run left it, in what the connection sees and in what
    is committed: the guarded loaders skip (or load the same nothing) and
    the two replace-mode loaders write the same fixed rows. *)
Theorem run_full_etl_twice (env1 env2 : etl_env) (w0 : world) :
  (forall s, etl_faults env1 s = None) ->
  (forall s, etl_faults env2 s = None) ->
  (forall h, data_modeling_sql env1 h = h) ->
  (forall h, data_modeling_sql env2 h = h) ->
  let w1 := snd (run_full_etl env1 w0) in
  let w2 := snd (run_full_etl env2 w1) in
  source env2 = source env1 \/ loaded (pending w1) ->
  pending w2 = pending w1 /\ committed w2 = committed w1.
Proof.
  intros Hf1 Hf2 Hs1 Hs2 w1 w2 Hcase.
  destruct (run_full_etl_tables env1 w0 Hf1) as [Hp1 Hc1].
  destruct (run_full_etl_tables env2 w1 Hf2) as [Hp2 Hc2].
  fold w1 in Hp1, Hc1. fold w2 in Hp2, Hc2.
  rewrite Hp2, Hc2, Hc1, Hp1.
  rewrite Hp1 in Hcase.
  rewrite (etl_loaded_again env1 env2 _ Hs1 Hs2 Hcase). auto.
Qed.

Lemma run_full_etl_twice_witness :
  pending (snd (run_full_etl demo_env (snd (run_full_etl demo_env (fresh_world [])))))
    = pending (snd (run_full_etl demo_env (fresh_world []))) /\
  committed (snd (run_full_etl demo_env (snd (run_full_etl demo_env (fresh_world [])))))
    = committed (snd (run_full_etl demo_env (fresh_world []))).
Proof.
  apply (run_full_etl_twice demo_env demo_env (fresh_world [])).
  - reflexivity.
  - reflexivity.
  - reflexivity.
  - reflexivity.
  - left. reflexivity.
Defined.

(* ====================================================================== *)
(** * The customer key of a loaded fact row *)
(* ====================================================================== *)

Lemma in_left_merge {L R} (kl : L -> Z) (kr : R -> Z) left right l o :
  In (l, o) (left_merge kl kr left right) <->
  In l left /\
  match o with
  | None => forall r, In r right -> kl l <> kr r
  | Some r => In r right /\ kl l = kr r
  end.
Proof.
  unfold left_merge. rewrite in_flat_map. split.
  - intros (l0 & Hl0 & Hin).
    destruct (filter (fun r => kl l0 =? kr r) right) as [|m ms] eqn:E.
    + destruct Hin as [Heq|[]]. injection Heq as <- <-. split; [assumption|].
      intros r Hr Hk.
      assert (Hf : In r (filter (fun r => kl l0 =? kr r) right)).
      { apply filter_In. split; [assumption|]. now apply Z.eqb_eq. }
      rewrite E in Hf. destruct Hf.
    + apply in_map_iff in Hin. destruct Hin as (r & Heq & Hr).
      injection Heq as <- <-. rewrite <- E in Hr. apply filter_In in Hr.
      destruct Hr as [Hr Hk]. apply Z.eqb_eq in Hk. auto.
  - intros (Hl & Ho). exists l. split; [assumption|].
    destruct (filter (fun r => kl l =? kr r) right) as [|m ms] eqn:E.
    + destruct o as [r|].
      * destruct Ho as [Hr Hk].
        assert (Hf : In r (filter (fun r => kl l =? kr r) right)).
        { apply filter_In. split; [assumption|]. now apply Z.eqb_eq. }
        rewrite E in Hf. destruct Hf.
      * now left.
    + destruct o as [r|].
      * destruct Ho as [Hr Hk]. apply in_map_iff. exists r. split; [reflexivity|].
        rewrite <- E. apply filter_In. split; [assumption|]. now apply Z.eqb_eq.
      * exfalso. assert (Hm : In m (filter (fun r => kl l =? kr r) right))
          by (rewrite E; now left).
        apply filter_In in Hm. destruct Hm as [Hm Hk]. apply Z.eqb_eq in Hk.
        exact (Ho m Hm Hk).
Qed.

(** A left row always comes out of the merge, with some right row or none. *)
Lemma left_merge_keeps {L R} (kl : L -> Z) (kr : R -> Z) left right l :
  In l left -> exists o, In (l, o) (left_merge kl kr left right).
Proof.
  intros Hl. unfold left_merge.
  destruct (filter (fun r => kl l =? kr r) right) as [|m ms] eqn:E.
  - exists None. apply in_flat_map. exists l. split; [assumption|]. rewrite E. now left.
  - exists (Some m). apply in_flat_map. exists l. split; [assumption|]. rewrite E.
    cbn. now left.
Qed.

Lemma with_date_keys_sales df dated :
  with_date_keys df = Ret dated -> map fst dated = df.
Proof.
  revert dated. induction df as [|s df IH]; cbn; intros dated H.
  - injection H as <-. reflexivity.
  - destruct (py_int (remove_dashes (s_order_date s))) as [k|]; [|discriminate].
    destruct (with_date_keys df) as [rows|]; [|discriminate].
    injection H as <-. cbn. now rewrite (IH rows).
Qed.

Lemma current_customer_keys_in h k cid :
  In (k, cid) (current_customer_keys h) <->
  exists r, In r (dim_customer h) /\ is_current r = 1 /\ customer_id r = cid /\
            customer_key r = k.
Proof.
  unfold current_customer_keys. rewrite in_map_iff. split.
  - intros (r & Heq & Hr). injection Heq as <- <-. apply filter_In in Hr.
    destruct Hr as [Hr Hc]. apply Z.eqb_eq in Hc. eauto.
  - intros (r & Hr & Hc & <- & <-). exists r. split; [reflexivity|].
    apply filter_In. split; [assumption|]. now apply Z.eqb_eq.
Qed.

Lemma merged_customer_resolved h s (k : Z) o left :
  In ((s, k), o)
    (left_merge (fun x : sale * Z => s_customer_id (fst x)) snd left
       (current_customer_keys h)) ->
  resolved (dim_customer h) s (option_map fst o).
Proof.
  intros H. apply in_left_merge in H. destruct H as [_ Ho].
  destruct o as [[key cid]|]; cbn in *.
  - destruct Ho as [Hin Hk]. apply current_customer_keys_in in Hin.
    destruct Hin as (r & Hr & Hc & Hid & Hkey). exists r. repeat split; auto. congruence.
  - intros r Hr Hc Hid.
    apply (Ho (customer_key r, customer_id r)); [|cbn; congruence].
    apply current_customer_keys_in. eauto.
Qed.

Lemma transform_sales_from dated customers products f :
  In f (transform_sales dated customers products) <->
  exists s k c p,
    In (s, k, c) (left_merge (fun x : sale * Z => s_customer_id (fst x)) snd dated customers) /\
    In (s, k, c, p)
      (left_merge (fun x : sale * Z * option (Z * Z) => s_product_id (fst (fst x))) snd
         (left_merge (fun x : sale * Z => s_customer_id (fst x)) snd dated customers)
         products) /\
    f = fact_row (s, k, c, p).
Proof.
  unfold transform_sales. rewrite in_map_iff. split.
  - intros ([[[s k] c] p] & Hf & Hin). exists s, k, c, p.
    split; [|split]; auto. apply in_left_merge in Hin. apply Hin.
  - intros (s & k & c & p & _ & Hin & ->). eauto.
Qed.

Lemma load_fact_sales_loads env w dated :
  (forall s, etl_faults env s = None) ->
  fact_sales (pending w) = [] ->
  with_date_keys (extract_sales (source env)) = Ret dated ->
  exists out,
    load_fact_sales env w =
      (Ret tt,
       let h := set_fact_sales
                  (transform_sales dated (current_customer_keys (pending w))
                     (product_keys (pending w))) (pending w) in
       mkWorld h h out (stdin w)).
Proof.
  intros Hf Hempty Hdated.
  unfold load_fact_sales, select_count, to_sql, commit, call, bind, print, read,
    write, ret, raise, lift.
  rewrite !Hf. cbn [fst snd committed pending stdout stdin row_count].
  rewrite Hempty. cbn [List.length Z.of_nat Z.ltb Z.compare].
  rewrite Hdated, ?Hf. unfold ret. cbn [fst snd committed pending stdout stdin].
  rewrite Hempty. cbn [app]. eexists. reflexivity.
Qed.

(** C8. When [load_fact_sales] loads (the fact table is empty, no library
    call fails, every order date converts to a date key), it returns
    normally and commits, and: every sale the extraction query returns has a
    row in [fact_sales], with its [order_id] and [order_item_id], whose
    [customer_key] is the key of a row of [dim_customer] with
    [is_current = 1] and the sale's [customer_id], or NULL when the customer
    has no such row, so a sale without a match is loaded, not dropped; and
    every row of [fact_sales] is made from an extracted sale in that way. *)
Theorem load_fact_sales_customer_keys (env : etl_env) (w : world)
    (dated : list (sale * Z)) :
  (forall s, etl_faults env s = None) ->
  fact_sales (pending w) = [] ->
  with_date_keys (extract_sales (source env)) = Ret dated ->
  let res := load_fact_sales env w in
  let dim := dim_customer (pending w) in
  let facts := fact_sales (pending (snd res)) in
  fst res = Ret tt /\
  committed (snd res) = pending (snd res) /\
  (forall s, In s (extract_sales (source env)) ->
     exists f, In f facts /\
       Fact.order_id f = s_order_id s /\
       Fact.order_item_id f = s_order_item_id s /\
       resolved dim s (Fact.customer_key f)) /\
  (forall s, In s (extract_sales (source env)) ->
     (forall r, In r dim -> is_current r = 1 -> customer_id r <> s_customer_id s) ->
     exists f, In f facts /\
       Fact.order_id f = s_order_id s /\
       Fact.order_item_id f = s_order_item_id s /\
       Fact.customer_key f = None) /\
  (forall f, In f facts ->
     exists s, In s (extract_sales (source env)) /\
       Fact.order_id f = s_order_id s /\
       Fact.order_item_id f = s_order_item_id s /\
       resolved dim s (Fact.customer_key f)).
Proof.
  intros Hf Hempty Hdated res dim facts.
  destruct (load_fact_sales_loads env w dated Hf Hempty Hdated) as [out Hrun].
  subst res facts dim. rewrite Hrun. cbn [fst snd pending committed fact_sales set_fact_sales].
  pose proof (with_date_keys_sales _ _ Hdated) as Hsales.
  assert (Hall : forall s, In s (extract_sales (source env)) ->
            exists f, In f (transform_sales dated (current_customer_keys (pending w))
                              (product_keys (pending w))) /\
              Fact.order_id f = s_order_id s /\
              Fact.order_item_id f = s_order_item_id s /\
              resolved (dim_customer (pending w)) s (Fact.customer_key f)).
  { intros s Hs. rewrite <- Hsales in Hs. apply in_map_iff in Hs.
    destruct Hs as ([s' k] & Heq & Hin). cbn in Heq. subst s'.
    destruct (left_merge_keeps (fun x : sale * Z => s_customer_id (fst x)) snd
                dated (current_customer_keys (pending w)) (s, k) Hin) as [c Hc].
    destruct (left_merge_keeps
                (fun x : sale * Z * option (Z * Z) => s_product_id (fst (fst x))) snd
                _ (product_keys (pending w)) (s, k, c) Hc) as [p Hp].
    exists (fact_row (s, k, c, p)). split.
    - apply transform_sales_from. exists s, k, c, p. auto.
    - cbn. repeat split. eapply merged_customer_resolved; eauto. }
  split; [reflexivity|]. split; [reflexivity|]. split; [exact Hall|]. split.
  - intros s Hs Hnone. destruct (Hall s Hs) as (f & Hin & Ho & Hi & Hres).
    exists f. repeat split; auto.
    destruct (Fact.customer_key f) as [k|]; [|reflexivity].
    destruct Hres as (r & Hr & Hc & Hid & _). exfalso. exact (Hnone r Hr Hc Hid).
  - intros f Hin. apply transform_sales_from in Hin.
    destruct Hin as (s & k & c & p & Hc & _ & ->).
    exists s. split.
    + rewrite <- Hsales. apply in_map_iff. exists (s, k). split; [reflexivity|].
      apply in_left_merge in Hc. apply Hc.
    + cbn. repeat split. eapply merged_customer_resolved; eauto.
Qed.

Lemma load_fact_sales_customer_keys_witness :
  exists f,
    In f (fact_sales (pending (snd (load_fact_sales demo_env dimensions_only)))) /\
    Fact.order_id f = 7 /\ Fact.order_item_id f = 11 /\ Fact.customer_key f = None.
Proof.
  destruct (load_fact_sales_customer_keys demo_env dimensions_only
              (match with_date_keys (extract_sales demo_source) with
               | Ret d => d
               | Raise _ => []
               end))
    as (_ & _ & _ & Hnone & _).
  - reflexivity.
  - reflexivity.
  - reflexivity.
  - apply (Hnone unmatched_sale).
    + cbn. right. left. reflexivity.
    + cbn. intros r [<-|[<-|[]]] _; cbn; discriminate.
Defined.

Example load_fact_sales_demo :
  map (fun f => (Fact.order_item_id f, Fact.date_key f, Fact.customer_key f))
    (fact_sales (pending (snd (load_fact_sales demo_env dimensions_only))))
  = [(9, 20240305, Some 1); (11, 20240308, None)].
Proof. reflexivity. Qed.

(* ====================================================================== *)
(** * Calendar arithmetic *)
(* ====================================================================== *)

Ltac Zify.zify_post_hook ::= Z.to_euclidean_division_equations.

Lemma strptime_valid s d : strptime s = Some d -> valid_date d = true.
Proof.
  unfold strptime. intros H.
  destruct (parse_Y s) as [[y s1]|]; [|discriminate].
  destruct (expect_dash s1) as [s2|]; [|discriminate].
  destruct (parse_m s2) as [[m s3]|]; [|discriminate].
  destruct (parse_d s3) as [dd|]; [|discriminate].
  destruct (valid_date (mkDate y m dd)) eqn:E; [|discriminate].
  injection H as <-. exact E.
Qed.

Lemma valid_date_bounds d :
  valid_date d = true ->
  1 <= year d <= 9999 /\ 1 <= month d <= 12 /\
  1 <= day d <= days_in_month (year d) (month d).
Proof. unfold valid_date, MINYEAR, MAXYEAR. lia. Qed.

Lemma days_in_month_range y m : 1 <= m <= 12 -> 28 <= days_in_month y m <= 31.
Proof.
  intros H. assert (m = 1 \/ m = 2 \/ m = 3 \/ m = 4 \/ m = 5 \/ m = 6 \/ m = 7 \/
                    m = 8 \/ m = 9 \/ m = 10 \/ m = 11 \/ m = 12) as Hm by lia.
  unfold days_in_month.
  repeat (destruct Hm as [->|Hm]); try subst m; try destruct (is_leap y); lia.
Qed.

Lemma days_before_month_next y m :
  1 <= m <= 11 ->
  days_before_month y (m + 1) = days_before_month y m + days_in_month y m.
Proof.
  intros H. assert (m = 1 \/ m = 2 \/ m = 3 \/ m = 4 \/ m = 5 \/ m = 6 \/ m = 7 \/
                    m = 8 \/ m = 9 \/ m = 10 \/ m = 11) as Hm by lia.
  unfold days_before_month, days_in_month.
  repeat (destruct Hm as [->|Hm]); try subst m; cbn -[is_leap];
    destruct (is_leap y); reflexivity.
Qed.

Lemma days_before_year_next y :
  days_before_year (y + 1) = days_before_year y + (if is_leap y then 366 else 365).
Proof.
  unfold days_before_year, is_leap.
  destruct ((y mod 4 =? 0) && (negb (y mod 100 =? 0) || (y mod 400 =? 0))) eqn:E; lia.
Qed.

Lemma pred_day_spec d y :
  valid_date d = true -> pred_day d = Some y ->
  valid_date y = true /\ toordinal y = toordinal d - 1.
Proof.
  intros Hv Hp. apply valid_date_bounds in Hv. destruct Hv as (Hy & Hm & Hd).
  destruct d as [yy mm dd]. cbn [year month day] in *.
  unfold pred_day in Hp. cbn [year month day] in Hp.
  destruct (1 <? dd) eqn:E1.
  - injection Hp as <-. split.
    + unfold valid_date, MINYEAR, MAXYEAR. cbn [year month day]. lia.
    + unfold toordinal. cbn [year month day]. lia.
  - destruct (1 <? mm) eqn:E2.
    + injection Hp as <-.
      pose proof (days_in_month_range yy (mm - 1)) as Hr.
      pose proof (days_before_month_next yy (mm - 1)) as Hn.
      replace (mm - 1 + 1) with mm in Hn by lia. split.
      * unfold valid_date, MINYEAR, MAXYEAR. cbn [year month day]. lia.
      * unfold toordinal. cbn [year month day]. lia.
    + unfold MINYEAR in Hp. destruct (1 <? yy) eqn:E3; [|discriminate].
      injection Hp as <-.
      pose proof (days_before_year_next (yy - 1)) as Hn.
      replace (yy - 1 + 1) with yy in Hn by lia.
      assert (mm = 1) by lia. assert (dd = 1) by lia. subst mm dd. split.
      * unfold valid_date, MINYEAR, MAXYEAR. cbn. lia.
      * unfold toordinal, days_before_month. cbn [year month day].
        cbn -[is_leap days_before_year]. rewrite Hn.
        destruct (is_leap (yy - 1)); cbn; lia.
Qed.

Lemma days_before_month_bound y m d :
  1 <= m <= 12 -> 1 <= d <= days_in_month y m ->
  1 <= days_before_month y m + d <= (if is_leap y then 366 else 365).
Proof.
  intros H Hd. assert (m = 1 \/ m = 2 \/ m = 3 \/ m = 4 \/ m = 5 \/ m = 6 \/ m = 7 \/
                    m = 8 \/ m = 9 \/ m = 10 \/ m = 11 \/ m = 12) as Hm by lia.
  unfold days_before_month, days_in_month in *.
  destruct (is_leap y);
    repeat (destruct Hm as [->|Hm]); try subst m; cbn -[Z.add] in *; lia.
Qed.

Lemma days_before_year_mono y y' : y <= y' -> days_before_year y <= days_before_year y'.
Proof. unfold days_before_year. lia. Qed.

Lemma toordinal_range d : valid_date d = true -> 1 <= toordinal d <= ordinal_max.
Proof.
  intros Hv. apply valid_date_bounds in Hv. destruct Hv as (Hy & Hm & Hd).
  pose proof (days_before_month_bound _ _ _ Hm Hd) as Hb.
  pose proof (days_before_year_next (year d)) as Hn.
  pose proof (days_before_year_mono (year d + 1) 10000 ltac:(lia)) as Hmono.
  pose proof (days_before_year_mono 1 (year d) ltac:(lia)) as Hmono'.
  change (days_before_year 10000) with 3652059 in Hmono.
  change (days_before_year 1) with 0 in Hmono'.
  unfold toordinal, ordinal_max. destruct (is_leap (year d)); lia.
Qed.

Lemma digit_roundtrip k : 0 <= k <= 9 -> digit_of_ascii (ascii_of_digit k) = Some k.
Proof.
  intros H. assert (k = 0 \/ k = 1 \/ k = 2 \/ k = 3 \/ k = 4 \/ k = 5 \/ k = 6 \/
                    k = 7 \/ k = 8 \/ k = 9) as Hk by lia.
  repeat (destruct Hk as [->|Hk]); try subst k; reflexivity.
Qed.

Lemma parse_Y_pad4 y rest :
  0 <= y <= 9999 -> parse_Y (pad4 y ++ rest) = Some (y, rest).
Proof.
  intros H. unfold pad4, parse_Y. cbn [append].
  rewrite !digit_roundtrip by lia. f_equal. f_equal. lia.
Qed.

Lemma parse_m_pad2 m rest :
  1 <= m <= 12 -> parse_m (pad2 m ++ String "-" rest) = Some (m, rest).
Proof.
  intros H. assert (m = 1 \/ m = 2 \/ m = 3 \/ m = 4 \/ m = 5 \/ m = 6 \/ m = 7 \/
                    m = 8 \/ m = 9 \/ m = 10 \/ m = 11 \/ m = 12) as Hm by lia.
  repeat (destruct Hm as [->|Hm]); try subst m; reflexivity.
Qed.

Lemma parse_d_pad2 d : 1 <= d <= 31 -> parse_d (pad2 d) = Some d.
Proof.
  intros H.
  assert (Hd : (1 <= d <= 8) \/ (9 <= d <= 16) \/ (17 <= d <= 24) \/ (25 <= d <= 31)) by lia.
  destruct Hd as [Hd|[Hd|[Hd|Hd]]].
  - assert (d = 1 \/ d = 2 \/ d = 3 \/ d = 4 \/ d = 5 \/ d = 6 \/ d = 7 \/ d = 8) as Hk by lia.
    repeat (destruct Hk as [->|Hk]); try subst d; reflexivity.
  - assert (d = 9 \/ d = 10 \/ d = 11 \/ d = 12 \/ d = 13 \/ d = 14 \/ d = 15 \/ d = 16)
      as Hk by lia.
    repeat (destruct Hk as [->|Hk]); try subst d; reflexivity.
  - assert (d = 17 \/ d = 18 \/ d = 19 \/ d = 20 \/ d = 21 \/ d = 22 \/ d = 23 \/ d = 24)
      as Hk by lia.
    repeat (destruct Hk as [->|Hk]); try subst d; reflexivity.
  - assert (d = 25 \/ d = 26 \/ d = 27 \/ d = 28 \/ d = 29 \/ d = 30 \/ d = 31) as Hk by lia.
    repeat (destruct Hk as [->|Hk]); try subst d; reflexivity.
Qed.

Lemma fmt_Y_pad4 y : 1000 <= y -> fmt_Y y = pad4 y.
Proof.
  intros H. unfold fmt_Y.
  destruct (y <? 10) eqn:E1; [lia|]. destruct (y <? 100) eqn:E2; [lia|].
  destruct (y <? 1000) eqn:E3; [lia|]. reflexivity.
Qed.

(** A date of a year from 1000 on is written so that it parses back; what
    [strftime] writes for an earlier year, [strptime] rejects. *)
Lemma strptime_strftime d :
  valid_date d = true -> 1000 <= year d -> strptime (strftime d) = Some d.
Proof.
  intros Hv Hk. pose proof (valid_date_bounds _ Hv) as (Hy & Hm & Hd).
  pose proof (days_in_month_range (year d) (month d) Hm) as Hr.
  unfold strptime, strftime. rewrite fmt_Y_pad4 by assumption.
  rewrite parse_Y_pad4 by lia. cbn [append expect_dash is_dash Ascii.eqb Bool.eqb].
  rewrite parse_m_pad2 by lia. rewrite parse_d_pad2 by lia.
  destruct d as [y m dd]. cbn [year month day] in *. now rewrite Hv.
Qed.

Lemma next_day_spec d d' :
  valid_date d = true -> next_day d = Some d' ->
  valid_date d' = true /\ toordinal d' = toordinal d + 1.
Proof.
  intros Hv Hn. apply valid_date_bounds in Hv. destruct Hv as (Hy & Hm & Hd).
  destruct d as [yy mm dd]. cbn [year month day] in *.
  unfold next_day in Hn. cbn [year month day] in Hn.
  destruct (dd <? days_in_month yy mm) eqn:E1.
  - injection Hn as <-. split.
    + unfold valid_date, MINYEAR, MAXYEAR. cbn [year month day]. lia.
    + unfold toordinal. cbn [year month day]. lia.
  - destruct (mm <? 12) eqn:E2.
    + injection Hn as <-.
      pose proof (days_in_month_range yy (mm + 1) ltac:(lia)) as Hr.
      pose proof (days_before_month_next yy mm ltac:(lia)) as Hnext. split.
      * unfold valid_date, MINYEAR, MAXYEAR. cbn [year month day]. lia.
      * unfold toordinal. cbn [year month day]. lia.
    + unfold MAXYEAR in Hn. destruct (yy <? 9999) eqn:E3; [|discriminate].
      injection Hn as <-.
      pose proof (days_before_year_next yy) as Hnext.
      assert (mm = 12) by lia. subst mm.
      assert (dd = 31) by (cbn in Hd, E1; lia). subst dd. split.
      * unfold valid_date, MINYEAR, MAXYEAR. cbn. lia.
      * unfold toordinal, days_before_month. cbn [year month day].
        cbn -[is_leap days_before_year Z.add]. rewrite Hnext.
        destruct (is_leap yy); cbn -[Z.add]; lia.
Qed.

(** The fuel [load_dim_date] is given is enough: with one more turn allowed
    the loop builds the same rows, so it ends because [current] has passed
    [end], not because the turns ran out. *)
Lemma date_rows_enough_fuel (n : nat) (current end_ : date) :
  valid_date current = true ->
  toordinal end_ - toordinal current + 1 <= Z.of_nat n ->
  date_rows (S n) current end_ = date_rows n current end_.
Proof.
  revert current. induction n as [|n IH]; intros current Hv Hn.
  - cbn [date_rows]. destruct (toordinal current <=? toordinal end_) eqn:E; [lia|reflexivity].
  - change (date_rows (S (S n)) current end_)
      with (if toordinal current <=? toordinal end_ then
              match next_day current with
              | None => Raise OverflowError
              | Some current' =>
                  match date_rows (S n) current' end_ with
                  | Ret rows => Ret (date_row current :: rows)
                  | Raise e => Raise e
                  end
              end
            else Ret []).
    change (date_rows (S n) current end_)
      with (if toordinal current <=? toordinal end_ then
              match next_day current with
              | None => Raise OverflowError
              | Some current' =>
                  match date_rows n current' end_ with
                  | Ret rows => Ret (date_row current :: rows)
                  | Raise e => Raise e
                  end
              end
            else Ret []).
    destruct (toordinal current <=? toordinal end_); [|reflexivity].
    destruct (next_day current) as [current'|] eqn:En; [|reflexivity].
    destruct (next_day_spec _ _ Hv En) as [Hv' Ho].
    rewrite (IH current' Hv') by lia. reflexivity.
Qed.

(** Without an effective date the call uses today's date, which parses back
    to itself. *)
Lemma effective_today clk :
  valid_date (today clk) = true -> 1000 <= year (today clk) ->
  strptime (effective clk None) = Some (today clk).
Proof. intros H Hy. unfold effective. now apply strptime_strftime. Qed.

Lemma yyyymmdd_injective d d' :
  valid_date d = true -> valid_date d' = true -> yyyymmdd d' = yyyymmdd d -> d' = d.
Proof.
  intros Hv Hv' H.
  pose proof (valid_date_bounds _ Hv) as (Hy & Hm & Hd).
  pose proof (valid_date_bounds _ Hv') as (Hy' & Hm' & Hd').
  pose proof (days_in_month_range (year d) _ Hm).
  pose proof (days_in_month_range (year d') _ Hm').
  unfold yyyymmdd in H. destruct d, d'. cbn [year month day] in *. f_equal; lia.
Qed.

Lemma days_before_month_mono y m m' :
  1 <= m -> m < m' -> m' <= 12 ->
  days_before_month y m + days_in_month y m <= days_before_month y m'.
Proof.
  intros H1 H2 H3.
  assert (Hm : m = 1 \/ m = 2 \/ m = 3 \/ m = 4 \/ m = 5 \/ m = 6 \/ m = 7 \/
               m = 8 \/ m = 9 \/ m = 10 \/ m = 11) by lia.
  assert (Hm' : m' = 2 \/ m' = 3 \/ m' = 4 \/ m' = 5 \/ m' = 6 \/ m' = 7 \/
                m' = 8 \/ m' = 9 \/ m' = 10 \/ m' = 11 \/ m' = 12) by lia.
  unfold days_before_month, days_in_month.
  repeat (destruct Hm as [->|Hm]); try subst m;
    repeat (destruct Hm' as [->|Hm']); try subst m'; try lia;
    cbn -[is_leap]; destruct (is_leap y); cbn; lia.
Qed.

(** The order of the days is the order of their keys year, month, day. *)
Lemma toordinal_lt d1 d2 :
  valid_date d1 = true -> valid_date d2 = true ->
  yyyymmdd d1 < yyyymmdd d2 -> toordinal d1 < toordinal d2.
Proof.
  intros Hv1 Hv2 Hk.
  pose proof (valid_date_bounds _ Hv1) as (Hy1 & Hm1 & Hd1).
  pose proof (valid_date_bounds _ Hv2) as (Hy2 & Hm2 & Hd2).
  pose proof (days_in_month_range (year d1) _ Hm1) as Hr1.
  pose proof (days_in_month_range (year d2) _ Hm2) as Hr2.
  pose proof (days_before_month_bound _ _ _ Hm1 Hd1) as Hb1.
  pose proof (days_before_month_bound _ _ _ Hm2 Hd2) as Hb2.
  destruct d1 as [y1 m1 dd1], d2 as [y2 m2 dd2].
  unfold yyyymmdd in Hk. unfold toordinal. cbn [year month day] in *.
  assert (Hcase : y1 < y2 \/ (y1 = y2 /\ m1 < m2) \/ (y1 = y2 /\ m1 = m2 /\ dd1 < dd2))
    by lia.
  destruct Hcase as [Hlt|[(-> & Hlt)|(-> & -> & Hlt)]].
  - pose proof (days_before_year_next y1) as Hn.
    pose proof (days_before_year_mono (y1 + 1) y2 ltac:(lia)) as Hmono.
    destruct (is_leap y1); destruct (is_leap y2); lia.
  - pose proof (days_before_month_mono y2 m1 m2 ltac:(lia) Hlt ltac:(lia)). lia.
  - lia.
Qed.

Lemma toordinal_leb_key d1 d2 :
  valid_date d1 = true -> valid_date d2 = true ->
  (toordinal d1 <=? toordinal d2) = (yyyymmdd d1 <=? yyyymmdd d2).
Proof.
  intros Hv1 Hv2.
  destruct (Z.lt_trichotomy (yyyymmdd d1) (yyyymmdd d2)) as [Hlt|[Heq|Hgt]].
  - pose proof (toordinal_lt _ _ Hv1 Hv2 Hlt). lia.
  - rewrite (yyyymmdd_injective _ _ Hv2 Hv1 Heq). lia.
  - pose proof (toordinal_lt _ _ Hv2 Hv1 Hgt). lia.
Qed.

Lemma compare_digit a b :
  0 <= a <= 9 -> 0 <= b <= 9 ->
  Ascii.compare (ascii_of_digit a) (ascii_of_digit b) = (a ?= b).
Proof.
  intros Ha Hb.
  assert (Hka : a = 0 \/ a = 1 \/ a = 2 \/ a = 3 \/ a = 4 \/ a = 5 \/ a = 6 \/
                a = 7 \/ a = 8 \/ a = 9) by lia.
  assert (Hkb : b = 0 \/ b = 1 \/ b = 2 \/ b = 3 \/ b = 4 \/ b = 5 \/ b = 6 \/
                b = 7 \/ b = 8 \/ b = 9) by lia.
  repeat (destruct Hka as [->|Hka]); try subst a;
    repeat (destruct Hkb as [->|Hkb]); try subst b; reflexivity.
Qed.

Ltac compare_next a b :=
  destruct (Z.compare_spec a b);
  [ subst; cbv iota
  | symmetry; apply Z.compare_lt_iff; lia
  | symmetry; apply Z.compare_gt_iff; lia ].

(** Text of the form YYYY-MM-DD compares as the number YYYYMMDD does. *)
Lemma compare_iso_text a1 a2 a3 a4 a5 a6 a7 a8 b1 b2 b3 b4 b5 b6 b7 b8 :
  0 <= a1 <= 9 -> 0 <= a2 <= 9 -> 0 <= a3 <= 9 -> 0 <= a4 <= 9 ->
  0 <= a5 <= 9 -> 0 <= a6 <= 9 -> 0 <= a7 <= 9 -> 0 <= a8 <= 9 ->
  0 <= b1 <= 9 -> 0 <= b2 <= 9 -> 0 <= b3 <= 9 -> 0 <= b4 <= 9 ->
  0 <= b5 <= 9 -> 0 <= b6 <= 9 -> 0 <= b7 <= 9 -> 0 <= b8 <= 9 ->
  String.compare
    (String (ascii_of_digit a1) (String (ascii_of_digit a2) (String (ascii_of_digit a3)
    (String (ascii_of_digit a4) (String "-" (String (ascii_of_digit a5)
    (String (ascii_of_digit a6) (String "-" (String (ascii_of_digit a7)
    (String (ascii_of_digit a8) ""))))))))))
    (String (ascii_of_digit b1) (String (ascii_of_digit b2) (String (ascii_of_digit b3)
    (String (ascii_of_digit b4) (String "-" (String (ascii_of_digit b5)
    (String (ascii_of_digit b6) (String "-" (String (ascii_of_digit b7)
    (String (ascii_of_digit b8) ""))))))))))
  = (10000000 * a1 + 1000000 * a2 + 100000 * a3 + 10000 * a4
     + 1000 * a5 + 100 * a6 + 10 * a7 + a8
     ?= 10000000 * b1 + 1000000 * b2 + 100000 * b3 + 10000 * b4
        + 1000 * b5 + 100 * b6 + 10 * b7 + b8).
Proof.
  intros A1 A2 A3 A4 A5 A6 A7 A8 B1 B2 B3 B4 B5 B6 B7 B8.
  cbn [String.compare]. rewrite !compare_digit by assumption.
  change (Ascii.compare "-" "-") with Eq. cbv iota.
  compare_next a1 b1. compare_next a2 b2. compare_next a3 b3. compare_next a4 b4.
  compare_next a5 b5. compare_next a6 b6. compare_next a7 b7. compare_next a8 b8.
  symmetry. apply Z.compare_refl.
Qed.

Lemma strftime_leb d1 d2 :
  valid_date d1 = true -> valid_date d2 = true ->
  1000 <= year d1 -> 1000 <= year d2 ->
  String.leb (strftime d1) (strftime d2) = (toordinal d1 <=? toordinal d2).
Proof.
  intros Hv1 Hv2 Hk1 Hk2.
  rewrite (toordinal_leb_key _ _ Hv1 Hv2).
  pose proof (valid_date_bounds _ Hv1) as (Hy1 & Hm1 & Hd1).
  pose proof (valid_date_bounds _ Hv2) as (Hy2 & Hm2 & Hd2).
  pose proof (days_in_month_range (year d1) _ Hm1) as Hr1.
  pose proof (days_in_month_range (year d2) _ Hm2) as Hr2.
  unfold String.leb, Z.leb, strftime. rewrite !fmt_Y_pad4 by assumption.
  unfold pad4, pad2. cbn [append].
  rewrite compare_iso_text by lia.
  replace (10000000 * (year d1 / 1000) + 1000000 * ((year d1 / 100) mod 10)
           + 100000 * ((year d1 / 10) mod 10) + 10000 * (year d1 mod 10)
           + 1000 * (month d1 / 10) + 100 * (month d1 mod 10)
           + 10 * (day d1 / 10) + day d1 mod 10) with (yyyymmdd d1)
    by (unfold yyyymmdd; lia).
  replace (10000000 * (year d2 / 1000) + 1000000 * ((year d2 / 100) mod 10)
           + 100000 * ((year d2 / 10) mod 10) + 10000 * (year d2 mod 10)
           + 1000 * (month d2 / 10) + 100 * (month d2 mod 10)
           + 10 * (day d2 / 10) + day d2 mod 10) with (yyyymmdd d2)
    by (unfold yyyymmdd; lia).
  destruct (yyyymmdd d1 ?= yyyymmdd d2); reflexivity.
Qed.

Lemma iso_date_spec s :
  iso_date s = true ->
  exists d, strptime s = Some d /\ s = strftime d /\ valid_date d = true /\ 1000 <= year d.
Proof.
  unfold iso_date. intros H. destruct (strptime s) as [d|] eqn:E; [|discriminate].
  apply andb_prop in H. destruct H as [H1 H2]. apply String.eqb_eq in H1.
  exists d. split; [reflexivity|]. split; [now symmetry|].
  split; [now apply strptime_valid in E | lia].
Qed.

Lemma iso_date_strftime d :
  valid_date d = true -> 1000 <= year d -> iso_date (strftime d) = true.
Proof.
  intros Hv Hk. unfold iso_date. rewrite (strptime_strftime _ Hv Hk).
  rewrite String.eqb_refl. cbn [andb]. lia.
Qed.

(** On text of the ISO form the comparison of SQL is the comparison of the
    days. *)
Lemma iso_leb s1 s2 d1 d2 :
  iso_date s1 = true -> iso_date s2 = true ->
  strptime s1 = Some d1 -> strptime s2 = Some d2 ->
  String.leb s1 s2 = (toordinal d1 <=? toordinal d2).
Proof.
  intros H1 H2 E1 E2.
  destruct (iso_date_spec _ H1) as (e1 & E1' & -> & Hv1 & Hk1).
  destruct (iso_date_spec _ H2) as (e2 & E2' & -> & Hv2 & Hk2).
  rewrite E1 in E1'. injection E1' as <-. rewrite E2 in E2'. injection E2' as <-.
  now apply strftime_leb.
Qed.

(** The day before an ISO date after 1000-01-01 is in a year from 1000 on. *)
Lemma day_before_iso eff d y :
  iso_date eff = true -> eff <> "1000-01-01" ->
  strptime eff = Some d -> pred_day d = Some y -> 1000 <= year y.
Proof.
  intros Hiso Hne Hd Hy.
  destruct (iso_date_spec _ Hiso) as (d' & Hd' & Heq & Hv & Hk).
  rewrite Hd in Hd'. injection Hd' as <-.
  pose proof (valid_date_bounds _ Hv) as (Hyr & Hm & Hdd).
  destruct d as [yy mm dd]. cbn [year month day] in *.
  unfold pred_day, MINYEAR in Hy. cbn [year month day] in Hy.
  destruct (1 <? dd) eqn:E1; [injection Hy as <-; exact Hk|].
  destruct (1 <? mm) eqn:E2; [injection Hy as <-; exact Hk|].
  destruct (1 <? yy) eqn:E3; [|discriminate]. injection Hy as <-. cbn [year].
  assert (yy <> 1000); [|lia].
  intros ->. apply Hne. rewrite Heq.
  assert (mm = 1) by lia. assert (dd = 1) by lia. subst. reflexivity.
Qed.

(* ====================================================================== *)
(** * The validity intervals of a customer's versions *)
(* ====================================================================== *)

Lemma chain_row_bounds a vs r :
  chain_from a vs -> In r vs ->
  exists f t,
    from_ord r = Some f /\ to_ord r = Some t /\ a <= f /\ f <= t + 1 /\ t <= ordinal_max.
Proof.
  revert a. induction vs as [|r0 vs IH]; cbn [chain_from In]; intros a H Hin; [tauto|].
  destruct H as (Hf & b & Ht & Hab & _ & Hrest).
  assert (Hmax : b <= ordinal_max).
  { clear - Hrest. revert b Hrest. induction vs as [|r1 vs IH]; cbn [chain_from]; intros b H.
    - lia.
    - destruct H as (_ & b' & _ & Hle & _ & H'). specialize (IH _ H'). lia. }
  destruct Hin as [<-|Hin].
  - exists a, b. repeat split; auto; lia.
  - destruct (IH _ Hrest Hin) as (f & t & H1 & H2 & H3 & H4 & H5).
    exists f, t. repeat split; auto; lia.
Qed.

Lemma covers_closed_range r n f t :
  from_ord r = Some f -> to_ord r = Some t -> covers true r n -> f <= n <= t.
Proof.
  intros Hf Ht (a & b & Ha & Hb & Hw). unfold within in Hw.
  rewrite Hf in Ha. rewrite Ht in Hb. injection Ha as <-. injection Hb as <-. lia.
Qed.

Lemma chain_no_gap a vs n :
  chain_from a vs -> a <= n <= ordinal_max -> exists r, In r vs /\ covers true r n.
Proof.
  revert a. induction vs as [|r0 vs IH]; cbn [chain_from In]; intros a H Hn; [lia|].
  destruct H as (Hf & b & Ht & Hab & _ & Hrest).
  destruct (Z_le_gt_dec n b) as [Hle|Hgt].
  - exists r0. split; [now left|]. exists a, b. unfold within. repeat split; auto; lia.
  - destruct (IH (b + 1) Hrest ltac:(lia)) as (r & Hin & Hc). exists r. auto.
Qed.

Lemma chain_no_overlap a vs : chain_from a vs -> no_overlap true vs.
Proof.
  revert a. induction vs as [|r0 vs IH]; intros a H i j r1 r2 n Hij H1 H2 C1 C2.
  - destruct i; discriminate.
  - cbn [chain_from] in H. destruct H as (Hf & b & Ht & Hab & _ & Hrest).
    assert (Hlate : forall r, In r vs -> covers true r n -> b + 1 <= n).
    { intros r Hin Hc.
      destruct (chain_row_bounds _ _ _ Hrest Hin) as (f & t & Hrf & Hrt & Hlo & _).
      pose proof (covers_closed_range _ _ _ _ Hrf Hrt Hc). lia. }
    destruct i as [|i], j as [|j]; cbn [nth_error] in H1, H2.
    + congruence.
    + injection H1 as <-. apply nth_error_In in H2.
      pose proof (covers_closed_range _ _ _ _ Hf Ht C1).
      pose proof (Hlate _ H2 C2). lia.
    + injection H2 as <-. apply nth_error_In in H1.
      pose proof (covers_closed_range _ _ _ _ Hf Ht C2).
      pose proof (Hlate _ H1 C1). lia.
    + apply (IH _ Hrest i j r1 r2 n); auto.
Qed.

Lemma history_no_overlap vs : history_ok vs -> no_overlap true vs.
Proof.
  intros [->|(a & H)].
  - intros i j r1 r2 n _ H1. destruct i; discriminate.
  - eapply chain_no_overlap; eauto.
Qed.

Lemma history_no_gap vs : history_ok vs -> no_gap true vs.
Proof.
  intros [->|(a & H)] r1 r2 f t n H1 H2 Hf Ht Hw; [destruct H1|].
  destruct (chain_row_bounds _ _ _ H H1) as (f1 & t1 & Hf1 & _ & Hlo & _).
  destruct (chain_row_bounds _ _ _ H H2) as (f2 & t2 & _ & Ht2 & _ & _ & Hhi).
  unfold within in Hw.
  apply (chain_no_gap a vs n H). rewrite Hf in Hf1. rewrite Ht in Ht2.
  injection Hf1 as <-. injection Ht2 as <-. lia.
Qed.

Lemma chain_current_last a vs r :
  chain_from a vs -> In r vs -> is_current r = 1 -> exists vs0, vs = vs0 ++ [r].
Proof.
  revert a. induction vs as [|r0 vs IH]; cbn [chain_from In]; intros a H Hin Hc; [tauto|].
  destruct H as (_ & b & _ & _ & Hlast & Hrest).
  destruct Hin as [<-|Hin].
  - exists []. rewrite (proj1 Hlast Hc). reflexivity.
  - destruct (IH _ Hrest Hin Hc) as (vs0 & ->). exists (r0 :: vs0). reflexivity.
Qed.

Lemma chain_extend a vs0 cur closed new f e :
  chain_from a (vs0 ++ [cur]) ->
  from_ord cur = Some f -> f <= e -> e <= ordinal_max ->
  from_ord closed = Some f -> to_ord closed = Some (e - 1) -> is_current closed <> 1 ->
  from_ord new = Some e -> to_ord new = Some ordinal_max -> is_current new = 1 ->
  chain_from a (vs0 ++ [closed; new]).
Proof.
  intros H Hcf Hfe Hmax Hclf Hclt Hclc Hnf Hnt Hnc. revert a H.
  induction vs0 as [|r vs0 IH]; cbn [app chain_from]; intros a H.
  - destruct H as (Ha & _). rewrite Hcf in Ha. injection Ha as <-.
    split; [assumption|]. exists (e - 1).
    split; [assumption|]. split; [lia|]. split.
    + split; [intros; contradiction|discriminate].
    + replace (e - 1 + 1) with e by lia.
      split; [assumption|]. exists ordinal_max.
      split; [assumption|]. split; [lia|]. split; [tauto|reflexivity].
  - destruct H as (Ha & b & Ht & Hab & Hlast & Hrest).
    split; [assumption|]. exists b.
    split; [assumption|]. split; [assumption|]. split.
    + split.
      * intros Hc. apply Hlast in Hc. destruct vs0; discriminate.
      * intros Hnil. destruct vs0; discriminate.
    + apply IH. assumption.
Qed.

Lemma versions_close_by_key k key y s t :
  versions k (close_by_key key y s t) = close_by_key key y s (versions k t).
Proof.
  unfold versions, close_by_key. induction t as [|r t IH]; cbn [map filter]; [reflexivity|].
  assert (Hid : customer_id (if customer_key r =? key then close_row y s r else r)
                = customer_id r)
    by (destruct (customer_key r =? key); reflexivity).
  rewrite Hid. destruct (customer_id r =? k); cbn [map]; now rewrite IH.
Qed.

Lemma versions_app k t1 t2 : versions k (t1 ++ t2) = versions k t1 ++ versions k t2.
Proof. apply filter_app. Qed.

Lemma versions_in k t r : In r (versions k t) <-> In r t /\ customer_id r = k.
Proof. unfold versions. rewrite filter_In, Z.eqb_eq. tauto. Qed.

Lemma close_by_key_absent key y s vs :
  (forall r, In r vs -> customer_key r <> key) -> close_by_key key y s vs = vs.
Proof.
  intros H. unfold close_by_key. rewrite <- (map_id vs) at 2. apply map_ext_in.
  intros r Hr. destruct (customer_key r =? key) eqn:E; [|reflexivity].
  apply Z.eqb_eq in E. exfalso. exact (H r Hr E).
Qed.

Lemma NoDup_filter_keys (p : customer_row -> bool) t :
  NoDup (map customer_key t) -> NoDup (map customer_key (filter p t)).
Proof.
  induction t as [|r t IH]; cbn [map filter]; intros H; [constructor|].
  inversion H as [|k ks Hnotin Hnd]; subst.
  destruct (p r); cbn [map]; auto. constructor; auto.
  intros Hin. apply Hnotin. apply in_map_iff in Hin. destruct Hin as (r' & Hk & Hr').
  apply filter_In in Hr'. apply in_map_iff. exists r'. tauto.
Qed.

Lemma type2_step_history clk cid tier eff t :
  NoDup (map customer_key t) ->
  (forall k, history_ok (versions k t)) ->
  later_than_current cid tier eff t = true ->
  iso_effective cid tier eff t = true ->
  forall k, history_ok (versions k (type2_step clk cid tier eff t)).
Proof.
  intros Hnd Hok Hlater Hiso k. unfold type2_step.
  unfold later_than_current in Hlater. unfold iso_effective in Hiso.
  destruct (find (is_current_of cid) t) as [cur|] eqn:Hfind; auto.
  destruct (String.eqb (customer_tier cur) tier); auto.
  destruct (strptime eff) as [e|] eqn:He; auto.
  destruct (pred_day e) as [y|] eqn:Hy; auto.
  destruct (found_current _ _ _ Hfind) as (Hin & Hid & Hcur).
  pose proof (strptime_valid _ _ He) as Hve.
  destruct (pred_day_spec _ _ Hve Hy) as (Hvy & Hoy).
  apply andb_prop in Hiso. destruct Hiso as [Hiso Hne].
  apply negb_true_iff, String.eqb_neq in Hne.
  pose proof (day_before_iso _ _ _ Hiso Hne He Hy) as Hky.
  unfold close_and_insert.
  rewrite versions_app, versions_close_by_key.
  destruct (Z.eq_dec k cid) as [->|Hk].
  - (* the customer that is updated *)
    assert (Hcv : In cur (versions cid t)) by (apply versions_in; auto).
    destruct (Hok cid) as [Hnil|(a & Hchain)]; [rewrite Hnil in Hcv; destruct Hcv|].
    destruct (chain_current_last _ _ _ Hchain Hcv Hcur) as (vs0 & Hvs).
    destruct (chain_row_bounds _ _ _ Hchain Hcv) as (f & tt' & Hf & _).
    assert (Hfe : f <= toordinal e).
    { unfold from_ord in Hf. destruct (strptime (valid_from cur)) as [d|]; [|discriminate].
      injection Hf as <-. lia. }
    assert (Hfresh : forall r, In r vs0 -> customer_key r <> customer_key cur).
    { pose proof (NoDup_filter_keys (fun r => customer_id r =? cid) t Hnd) as Hnd'.
      fold (versions cid t) in Hnd'. rewrite Hvs, map_app in Hnd'. cbn [map] in Hnd'.
      intros r Hr Heq. apply NoDup_remove_2 in Hnd'. apply Hnd'.
      rewrite app_nil_r, <- Heq. now apply in_map. }
    rewrite Hvs. unfold close_by_key at 1. rewrite map_app. cbn [map].
    fold (close_by_key (customer_key cur) (strftime y) (stamp_closed clk) vs0).
    rewrite (close_by_key_absent _ _ _ _ Hfresh), Z.eqb_refl.
    unfold versions at 1. cbn [filter new_version customer_id].
    rewrite Hid, Z.eqb_refl. rewrite <- app_assoc. cbn [app].
    right. exists a. rewrite Hvs in Hchain.
    apply (chain_extend a vs0 cur _ _ f (toordinal e) Hchain); auto.
    + apply toordinal_range. assumption.
    + unfold to_ord. cbn [close_row valid_to]. rewrite (strptime_strftime _ Hvy Hky).
      cbn [option_map]. now rewrite Hoy.
    + cbn. discriminate.
    + unfold from_ord. cbn [new_version valid_from]. now rewrite He.
  - (* any other customer *)
    assert (Hfresh : forall r, In r (versions k t) -> customer_key r <> customer_key cur).
    { intros r Hr Heq. apply versions_in in Hr. destruct Hr as [Hr Hrk].
      assert (r = cur) by (eapply same_key_same_row; eauto). subst r. congruence. }
    rewrite (close_by_key_absent _ _ _ _ Hfresh).
    unfold versions at 2. cbn [filter new_version customer_id].
    destruct (customer_id cur =? k) eqn:E; [apply Z.eqb_eq in E; congruence|].
    rewrite app_nil_r. apply Hok.
Qed.

Lemma type2_step_unique_keys clk cid tier eff t :
  NoDup (map customer_key t) -> NoDup (map customer_key (type2_step clk cid tier eff t)).
Proof.
  intros H. destruct (progress_keys _ _ _ _ _ _ (type2_step_progress clk cid tier eff t))
    as (extra & _ & Hnd). auto.
Qed.

Lemma demo_history_ok k : history_ok (versions k (dim_customer (pending demo_world))).
Proof.
  unfold versions. cbn -[Z.eqb].
  destruct (1 =? k) eqn:E1; destruct (2 =? k) eqn:E2.
  - lia.
  - right. exists (toordinal (mkDate 2024 1 1)). cbn [chain_from].
    split; [reflexivity|]. exists ordinal_max.
    split; [reflexivity|]. split; [apply Z.leb_le; reflexivity|].
    split; [split; reflexivity|reflexivity].
  - right. exists (toordinal (mkDate 2023 11 20)). cbn [chain_from].
    split; [reflexivity|]. exists ordinal_max.
    split; [reflexivity|]. split; [apply Z.leb_le; reflexivity|].
    split; [split; reflexivity|reflexivity].
  - now left.
Qed.

Lemma in_close_by_key r key y stamp t :
  In r (close_by_key key y stamp t) ->
  exists r0, In r0 t /\ (r = r0 \/ r = close_row y stamp r0).
Proof.
  unfold close_by_key. rewrite in_map_iff. intros (r0 & <- & Hin).
  exists r0. split; [assumption|]. destruct (customer_key r0 =? key); auto.
Qed.

(** The two writes keep the date columns in the ISO form. *)
Lemma type2_step_iso clk cid tier eff t :
  iso_columns t ->
  iso_effective cid tier eff t = true ->
  iso_columns (type2_step clk cid tier eff t).
Proof.
  intros Hcols Hiso. unfold type2_step. unfold iso_effective in Hiso.
  destruct (find (is_current_of cid) t) as [cur|] eqn:Hfind; auto.
  destruct (String.eqb (customer_tier cur) tier); auto.
  destruct (strptime eff) as [e|] eqn:He; auto.
  destruct (pred_day e) as [y|] eqn:Hy; auto.
  apply andb_prop in Hiso. destruct Hiso as [Hiso Hne].
  apply negb_true_iff, String.eqb_neq in Hne.
  pose proof (day_before_iso _ _ _ Hiso Hne He Hy) as Hky.
  pose proof (strptime_valid _ _ He) as Hve.
  destruct (pred_day_spec _ _ Hve Hy) as (Hvy & _).
  intros r Hr. unfold close_and_insert in Hr. apply in_app_or in Hr.
  destruct Hr as [Hr|[<-|[]]].
  - apply in_close_by_key in Hr. destruct Hr as (r0 & Hr0 & [->| ->]).
    + now apply Hcols.
    + cbn [close_row valid_from valid_to]. split; [now apply Hcols|].
      now apply iso_date_strftime.
  - cbn [new_version valid_from valid_to]. split; [assumption|reflexivity].
Qed.

(** What a sequence of forward-dated changes with ISO dates keeps. *)
Lemma run_updates_history us w :
  NoDup (map customer_key (dim_customer (pending w))) ->
  (forall k, history_ok (versions k (dim_customer (pending w)))) ->
  iso_columns (dim_customer (pending w)) ->
  forward_dated us (dim_customer (pending w)) = true ->
  iso_dated us (dim_customer (pending w)) = true ->
  let t' := dim_customer (pending (run_updates reliable us w)) in
  (forall k, history_ok (versions k t')) /\ iso_columns t'.
Proof.
  revert w. induction us as [|u us IH]; intros w Hnd Hok Hcols Hfd Hid.
  - cbn. auto.
  - cbn [forward_dated] in Hfd. apply andb_prop in Hfd. destruct Hfd as [Hl Hrest].
    cbn [iso_dated] in Hid. apply andb_prop in Hid. destruct Hid as [Hi Hirest].
    change (run_updates reliable (u :: us) w)
      with (run_updates reliable us (apply_update reliable u w)).
    apply IH; rewrite apply_update_reliable, dim_customer_set.
    + now apply type2_step_unique_keys.
    + now apply type2_step_history.
    + now apply type2_step_iso.
    + exact Hrest.
    + exact Hirest.
Qed.

(** On ISO text, BETWEEN is the closed interval of the days. *)
Lemma between_ord day r d a b :
  iso_date day = true -> strptime day = Some d ->
  iso_date (valid_from r) = true -> iso_date (valid_to r) = true ->
  from_ord r = Some a -> to_ord r = Some b ->
  between day r = (a <=? toordinal d) && (toordinal d <=? b).
Proof.
  intros Hday Hd Hf Ht Ha Hb. unfold from_ord in Ha. unfold to_ord in Hb.
  destruct (strptime (valid_from r)) as [df|] eqn:Ef; [|discriminate].
  destruct (strptime (valid_to r)) as [dt|] eqn:Et; [|discriminate].
  cbn [option_map] in Ha, Hb. injection Ha as <-. injection Hb as <-.
  unfold between.
  rewrite (iso_leb _ _ _ _ Hf Hday Ef Hd), (iso_leb _ _ _ _ Hday Ht Hd Et).
  reflexivity.
Qed.

Lemma between_covers day r d :
  iso_date day = true -> strptime day = Some d ->
  iso_date (valid_from r) = true -> iso_date (valid_to r) = true ->
  between day r = true <-> covers true r (toordinal d).
Proof.
  intros Hday Hd Hf Ht.
  destruct (iso_date_spec _ Hf) as (df & Ef & _).
  destruct (iso_date_spec _ Ht) as (dt & Et & _).
  assert (Ha : from_ord r = Some (toordinal df)) by (unfold from_ord; now rewrite Ef).
  assert (Hb : to_ord r = Some (toordinal dt)) by (unfold to_ord; now rewrite Et).
  rewrite (between_ord day r d _ _ Hday Hd Hf Ht Ha Hb). split.
  - intros H. exists (toordinal df), (toordinal dt). unfold within. repeat split; auto; lia.
  - intros (a & b & Ha' & Hb' & Hw). unfold within in Hw.
    rewrite Ha in Ha'. rewrite Hb in Hb'. injection Ha' as <-. injection Hb' as <-. lia.
Qed.

(** In a chain of versions that starts on day [a], the point-in-time query
    for a day finds one version from day [a] on and none before. *)
Lemma chain_point_in_time a vs day d :
  chain_from a vs -> iso_columns vs ->
  iso_date day = true -> strptime day = Some d ->
  List.length (filter (between day) vs) = if a <=? toordinal d then 1%nat else 0%nat.
Proof.
  intros Hchain Hcols Hday Hd.
  pose proof (toordinal_range _ (strptime_valid _ _ Hd)) as Hn.
  revert a Hchain.
  induction vs as [|r vs IH]; cbn [chain_from filter]; intros a Hchain.
  - subst a. destruct (ordinal_max + 1 <=? toordinal d) eqn:E; [lia|reflexivity].
  - destruct Hchain as (Hf & b & Ht & Hab & _ & Hrest).
    assert (Hr : iso_date (valid_from r) = true /\ iso_date (valid_to r) = true)
      by (apply Hcols; now left).
    destruct Hr as [Hrf Hrt].
    rewrite (between_ord day r d a b Hday Hd Hrf Hrt Hf Ht).
    assert (Hcols' : iso_columns vs) by (intros r' Hr'; apply Hcols; now right).
    specialize (IH Hcols' (b + 1) Hrest).
    destruct (a <=? toordinal d) eqn:E1; destruct (toordinal d <=? b) eqn:E2;
      cbn [andb List.length]; rewrite IH;
      destruct (b + 1 <=? toordinal d) eqn:E3; try reflexivity; lia.
Qed.

Lemma as_of_versions cid day t : as_of cid day t = filter (between day) (versions cid t).
Proof.
  unfold as_of, versions. induction t as [|r t IH]; cbn [filter]; [reflexivity|].
  destruct (customer_id r =? cid); cbn [andb filter]; rewrite IH; reflexivity.
Qed.

Lemma iso_columns_versions k t : iso_columns t -> iso_columns (versions k t).
Proof. intros H r Hr. apply versions_in in Hr. apply H. tauto. Qed.

(** C3, as the code has it.  Read [valid_to] as the last day of a version
    (the closed interval [valid_from, valid_to], as the script's BETWEEN
    query reads it).  Start from a table with unique surrogate keys in which
    the versions of every customer tile the days up to 9999-12-31 in table
    order and the date columns are written in the ISO form (YYYY-MM-DD, two
    digits for month and day, year from 1000 on), and run any sequence of
    tier updates each of which, when it changes a tier, is dated in that
    form, after 1000-01-01, and not before the [valid_from] of the current
    version.  Then the columns stay in that form, the intervals of the
    versions of every customer neither overlap nor leave a gap, and the
    script's point-in-time query, which compares the text of the columns,
    never returns two versions of a customer for a day and returns one for
    every day from the customer's first [valid_from] on. *)
Theorem intervals_tile_when_forward_dated (us : list tier_update) (w : world) :
  NoDup (map customer_key (dim_customer (pending w))) ->
  (forall k, history_ok (versions k (dim_customer (pending w)))) ->
  iso_columns (dim_customer (pending w)) ->
  forward_dated us (dim_customer (pending w)) = true ->
  iso_dated us (dim_customer (pending w)) = true ->
  let t' := dim_customer (pending (run_updates reliable us w)) in
  iso_columns t' /\
  forall k,
    no_overlap true (versions k t') /\
    no_gap true (versions k t') /\
    forall day, iso_date day = true ->
      (List.length (as_of k day t') <= 1)%nat /\
      ((exists r, In r (versions k t') /\ String.leb (valid_from r) day = true) ->
       List.length (as_of k day t') = 1%nat).
Proof.
  intros Hnd Hok Hcols Hfd Hid t'.
  destruct (run_updates_history us w Hnd Hok Hcols Hfd Hid) as [Hok' Hcols'].
  fold t' in Hok', Hcols'. split; [exact Hcols'|]. intros k.
  split; [apply history_no_overlap, Hok'|]. split; [apply history_no_gap, Hok'|].
  intros day Hday. rewrite as_of_versions.
  destruct (iso_date_spec _ Hday) as (d & Hd & _).
  pose proof (iso_columns_versions k t' Hcols') as Hcv.
  destruct (Hok' k) as [Hnil|(a & Hchain)].
  - rewrite Hnil. cbn. split; [lia|]. intros (r & [] & _).
  - rewrite (chain_point_in_time a _ day d Hchain Hcv Hday Hd). split.
    + destruct (a <=? toordinal d); lia.
    + intros (r & Hr & Hle).
      destruct (chain_row_bounds _ _ _ Hchain Hr) as (f & tt' & Hf & _ & Haf & _).
      unfold from_ord in Hf.
      destruct (strptime (valid_from r)) as [df|] eqn:Ef; [|discriminate].
      cbn [option_map] in Hf. injection Hf as <-.
      rewrite (iso_leb _ _ _ _ (proj1 (Hcv r Hr)) Hday Ef Hd) in Hle.
      destruct (a <=? toordinal d) eqn:E; [reflexivity|lia].
Qed.

Lemma demo_iso_columns : iso_columns (dim_customer (pending demo_world)).
Proof. intros r [<-|[<-|[]]]; split; reflexivity. Qed.

Lemma intervals_tile_when_forward_dated_witness :
  no_overlap true
    (versions 1 (dim_customer (pending (run_updates reliable
       [demo_update; mkUpdate demo_clock 2 "Platinum" (Some "2024-07-01");
        mkUpdate demo_clock 1 "Gold" (Some "2024-09-01")] demo_world)))) /\
  no_gap true
    (versions 1 (dim_customer (pending (run_updates reliable
       [demo_update; mkUpdate demo_clock 2 "Platinum" (Some "2024-07-01");
        mkUpdate demo_clock 1 "Gold" (Some "2024-09-01")] demo_world)))) /\
  List.length
    (as_of 1 "2024-06-14" (dim_customer (pending (run_updates reliable
       [demo_update; mkUpdate demo_clock 2 "Platinum" (Some "2024-07-01");
        mkUpdate demo_clock 1 "Gold" (Some "2024-09-01")] demo_world)))) = 1%nat.
Proof.
  destruct (intervals_tile_when_forward_dated
              [demo_update; mkUpdate demo_clock 2 "Platinum" (Some "2024-07-01");
               mkUpdate demo_clock 1 "Gold" (Some "2024-09-01")] demo_world)
    as [_ H].
  - cbn. repeat constructor; cbn; intuition discriminate.
  - exact demo_history_ok.
  - exact demo_iso_columns.
  - vm_compute. reflexivity.
  - vm_compute. reflexivity.
  - destruct (H 1) as (H1 & H2 & H3). split; [exact H1|]. split; [exact H2|].
    apply (H3 "2024-06-14"); [reflexivity|].
    exists alice_closed. split; [cbn; left; reflexivity | reflexivity].
Defined.

(** C3, as the specification states it, fails.  With [valid_to] read as an
    exclusive upper bound, customer 1's single version [2024-01-01,
    9999-12-31) has no gap and no overlap; after the update to Silver on
    2024-06-15 the versions are [2024-01-01, 2024-06-14) and [2024-06-15,
    9999-12-31), and 2024-06-14 is in neither. *)
Lemma half_open_intervals_leave_a_gap :
  no_overlap false (versions 1 (dim_customer (pending demo_world))) /\
  no_gap false (versions 1 (dim_customer (pending demo_world))) /\
  ~ no_gap false
      (versions 1 (dim_customer (pending (apply_update reliable demo_update demo_world)))).
Proof.
  split; [|split].
  - intros i j r1 r2 n Hij H1 H2 _ _.
    destruct i as [|i], j as [|j]; try congruence;
      cbn in H1, H2; try (destruct i; discriminate); destruct j; discriminate.
  - intros r1 r2 a b n H1 H2 Ha Hb Hw. exists alice. split; [now left|].
    destruct H1 as [<-|[]], H2 as [<-|[]]. exists a, b. auto.
  - intros H.
    destruct (H alice_closed alice_silver (toordinal (mkDate 2024 1 1)) ordinal_max
                (toordinal (mkDate 2024 6 14)))
      as (r & Hin & a & b & Ha & Hb & Hlo & Hhi).
    + left. reflexivity.
    + right. left. reflexivity.
    + reflexivity.
    + reflexivity.
    + split; [apply Z.leb_le|apply Z.ltb_lt]; reflexivity.
    + destruct Hin as [<-|[<-|[]]];
        vm_compute in Ha; vm_compute in Hb;
        injection Ha as <-; injection Hb as <-;
        apply Z.leb_le in Hlo; apply Z.ltb_lt in Hhi;
        vm_compute in Hlo; vm_compute in Hhi; discriminate.
Qed.

(** Why the dates have to be in the ISO form: the code stores the effective
    date as it is given, so after a tier change dated '2024-6-5', which
    [strptime] accepts, the point-in-time query finds no version of
    customer 1 for 2024-06-10. *)
Example unpadded_effective_date_leaves_a_gap :
  let t := dim_customer (pending (run_updates reliable
             [mkUpdate demo_clock 1 "Silver" (Some "2024-6-5")] demo_world)) in
  map (fun r => (valid_from r, valid_to r)) (versions 1 t) =
    [("2024-01-01", "2024-06-04"); ("2024-6-5", "9999-12-31")] /\
  as_of 1 "2024-06-10" t = [] /\
  iso_dated [mkUpdate demo_clock 1 "Silver" (Some "2024-6-5")]
    (dim_customer (pending demo_world)) = false.
Proof. cbv zeta. split; [|split]; reflexivity. Qed.

(** Why the updates have to be forward dated: a tier change dated before the
    current version began leaves, even with [valid_to] read as the last day,
    2024-03-01 in two versions of customer 1. *)
Example backdated_update_overlaps :
  ~ no_overlap true
      (versions 1 (dim_customer (pending (run_updates reliable
         [demo_update; mkUpdate demo_clock 1 "Gold" (Some "2024-03-01")] demo_world)))).
Proof.
  intros H.
  apply (H 0%nat 2%nat alice_closed
           (mkCustomer 4 1 "Alice" "Nguyen" "alice.nguyen1@email.com" "555-0100"
              "Austin" "TX" "Gold" "2024-01-01" "2024-03-01" "9999-12-31" 1
              "2025-10-30 10:00:01" "2025-10-30 10:00:02")
           (toordinal (mkDate 2024 3 1))).
  - discriminate.
  - reflexivity.
  - reflexivity.
  - exists (toordinal (mkDate 2024 1 1)), (toordinal (mkDate 2024 6 14)).
    split; [reflexivity|]. split; [reflexivity|].
    split; apply Z.leb_le; reflexivity.
  - exists (toordinal (mkDate 2024 3 1)), ordinal_max.
    split; [reflexivity|]. split; [reflexivity|].
    split; apply Z.leb_le; reflexivity.
Qed.

(* ====================================================================== *)
(** * Further properties of [update_customer_tier] *)
(* ====================================================================== *)

Lemma find_app_none {A} (p : A -> bool) l1 l2 :
  find p l1 = None -> find p (l1 ++ l2) = find p l2.
Proof.
  induction l1 as [|a l1 IH]; cbn; [reflexivity|].
  destruct (p a); [discriminate|auto].
Qed.

Lemma current_count_zero_find cid t :
  current_count cid t = 0%nat -> find (is_current_of cid) t = None.
Proof.
  unfold current_count. induction t as [|r t IH]; cbn; [reflexivity|].
  destruct (is_current_of cid r); [discriminate|auto].
Qed.

Lemma type2_step_again clk clk' cid tier eff t :
  (current_count cid t <= 1)%nat ->
  type2_step clk' cid tier eff (type2_step clk cid tier eff t) =
    type2_step clk cid tier eff t.
Proof.
  intros Hle. unfold type2_step at 2 3.
  destruct (find (is_current_of cid) t) as [cur|] eqn:Hfind.
  - destruct (String.eqb (customer_tier cur) tier) eqn:Ht.
    + unfold type2_step. now rewrite Hfind, Ht.
    + destruct (strptime eff) as [d|] eqn:Hd.
      * destruct (pred_day d) as [y|] eqn:Hy.
        -- unfold type2_step, close_and_insert.
           rewrite find_app_none
             by (apply current_count_zero_find; now apply current_count_close_found).
           destruct (found_current _ _ _ Hfind) as (_ & Hid & _).
           cbn [find]. rewrite new_version_current, Hid, Z.eqb_refl.
           cbn [new_version customer_tier]. now rewrite String.eqb_refl.
        -- unfold type2_step. now rewrite Hfind, Ht, Hd, Hy.
      * unfold type2_step. now rewrite Hfind, Ht, Hd.
  - unfold type2_step. now rewrite Hfind.
Qed.

(** A call that leaves the rows as they are has written and committed
    nothing. *)
Lemma update_without_change clk cid new_tier eff w :
  type2_step clk cid new_tier (effective clk eff) (dim_customer (pending w))
    = dim_customer (pending w) ->
  committed (snd (update_customer_tier reliable clk cid new_tier eff w)) = committed w /\
  pending (snd (update_customer_tier reliable clk cid new_tier eff w)) = pending w.
Proof.
  unfold type2_step. intros Hsame.
  unfold update_customer_tier, update_customer_tier_under, fetch_current, execute_close, execute_insert,
    day_before, commit_under, statement, statement_level, rollback, reliable, bind, print, read, write, ret, raise.
  fold (effective clk eff).
  cbn -[strptime strftime pred_day next_rowid String.eqb effective].
  destruct (find (is_current_of cid) (dim_customer (pending w))) as [cur|];
    cbn -[strptime strftime pred_day next_rowid String.eqb effective]; auto.
  destruct (String.eqb (customer_tier cur) new_tier);
    cbn -[strptime strftime pred_day next_rowid String.eqb effective]; auto.
  destruct (strptime (effective clk eff)) as [d|];
    cbn -[strptime strftime pred_day next_rowid String.eqb effective]; auto.
  destruct (pred_day d) as [y|];
    cbn -[strptime strftime pred_day next_rowid String.eqb effective]; auto.
  exfalso. apply (f_equal (@List.length _)) in Hsame.
  unfold close_and_insert, close_by_key in Hsame.
  rewrite length_app, length_map in Hsame. cbn in Hsame. lia.
Qed.

(** X1. Repeating a tier update is a no-op: after a call, a second call for
    the same customer, tier and effective date (at any later clock reading)
    leaves the committed database and what the connection sees as the first
    call left them, provided the customer had at most one current row. *)
Theorem update_customer_tier_twice
    (clk clk' : clock) (cid : Z) (new_tier eff : string) (w : world) :
  (current_count cid (dim_customer (pending w)) <= 1)%nat ->
  let w1 := snd (update_customer_tier reliable clk cid new_tier (Some eff) w) in
  let w2 := snd (update_customer_tier reliable clk' cid new_tier (Some eff) w1) in
  committed w2 = committed w1 /\ pending w2 = pending w1.
Proof.
  intros Hle w1 w2. subst w2. apply update_without_change.
  cbn [effective].
  assert (Hp : dim_customer (pending w1) =
               type2_step clk cid new_tier eff (dim_customer (pending w))).
  { subst w1.
    destruct (update_reliable clk cid new_tier (Some eff) w) as [Hp _].
    cbv zeta in Hp. rewrite Hp. reflexivity. }
  rewrite Hp. now apply type2_step_again.
Qed.

Lemma update_customer_tier_twice_witness :
  pending (snd (update_customer_tier reliable demo_clock 1 "Silver" (Some "2024-06-15")
                  (snd (update_customer_tier reliable demo_clock 1 "Silver"
                          (Some "2024-06-15") demo_world))))
  = pending (snd (update_customer_tier reliable demo_clock 1 "Silver"
                    (Some "2024-06-15") demo_world)).
Proof.
  apply (update_customer_tier_twice demo_clock demo_clock 1 "Silver" "2024-06-15" demo_world).
  cbn. lia.
Defined.

Lemma pred_day_none d :
  valid_date d = true -> pred_day d = None -> d = mkDate 1 1 1.
Proof.
  intros Hv Hp. apply valid_date_bounds in Hv. destruct Hv as (Hy & Hm & Hd).
  destruct d as [yy mm dd]. cbn [year month day] in *.
  unfold pred_day, MINYEAR in Hp. cbn [year month day] in Hp.
  destruct (1 <? dd) eqn:E1; [discriminate|].
  destruct (1 <? mm) eqn:E2; [discriminate|].
  destruct (1 <? yy) eqn:E3; [discriminate|].
  f_equal; lia.
Qed.

Lemma next_of_pred d y :
  valid_date d = true -> pred_day d = Some y -> next_day y = Some d.
Proof.
  intros Hv Hp. apply valid_date_bounds in Hv. destruct Hv as (Hy & Hm & Hd).
  destruct d as [yy mm dd]. cbn [year month day] in *.
  unfold pred_day, MINYEAR in Hp. cbn [year month day] in Hp.
  unfold next_day, MAXYEAR.
  destruct (1 <? dd) eqn:E1.
  - injection Hp as <-. cbn [year month day].
    replace (dd - 1 <? days_in_month yy mm) with true by lia.
    do 2 f_equal. lia.
  - destruct (1 <? mm) eqn:E2.
    + injection Hp as <-. cbn [year month day].
      rewrite Z.ltb_irrefl.
      replace (mm - 1 <? 12) with true by lia.
      do 2 f_equal; lia.
    + destruct (1 <? yy) eqn:E3; [|discriminate].
      injection Hp as <-. cbn [year month day].
      change (days_in_month (yy - 1) 12) with 31. rewrite !Z.ltb_irrefl.
      replace (yy - 1 <? 9999) with true by lia.
      f_equal. f_equal; lia.
Qed.

Lemma strptime_strftime_early d :
  valid_date d = true -> year d < 1000 -> strptime (strftime d) = None.
Proof.
  intros Hv Hk. pose proof (valid_date_bounds _ Hv) as (Hy & Hm & Hd).
  pose proof (days_in_month_range (year d) (month d) Hm) as Hr.
  unfold strptime, strftime, fmt_Y, pad2.
  destruct (year d <? 10) eqn:E1; [|destruct (year d <? 100) eqn:E2;
    [|destruct (year d <? 1000) eqn:E3; [|lia]]];
    cbn [append parse_Y]; rewrite !digit_roundtrip by lia; reflexivity.
Qed.

(** X2. The closing date of step 2: for an effective date that [strptime]
    accepts and that has a day before it, [yesterday] is that day as
    [strftime] writes it, and the day after it is the effective date again:
    the closed version ends exactly one day before the new one begins.  The
    text of [yesterday] parses back to that day when its year is 1000 or
    later; for an earlier year it is written with fewer than four digits
    and [strptime] rejects it. *)
Theorem day_before_is_the_day_before (eff : string) (d y : date) (w : world) :
  strptime eff = Some d ->
  pred_day d = Some y ->
  day_before eff w = (Ret (strftime y), w) /\
  (1000 <= year y -> strptime (strftime y) = Some y) /\
  (year y < 1000 -> strptime (strftime y) = None) /\
  next_day y = Some d /\
  toordinal y = toordinal d - 1.
Proof.
  intros Hd Hy. pose proof (strptime_valid _ _ Hd) as Hv.
  destruct (pred_day_spec _ _ Hv Hy) as [Hvy Ho].
  split; [unfold day_before; now rewrite Hd, Hy|].
  split; [now apply strptime_strftime|].
  split; [now apply strptime_strftime_early|].
  split; [now apply next_of_pred|exact Ho].
Qed.

Lemma day_before_is_the_day_before_witness :
  day_before "2024-03-01" demo_world = (Ret "2024-02-29", demo_world) /\
  strptime "2024-02-29" = Some (mkDate 2024 2 29) /\
  next_day (mkDate 2024 2 29) = Some (mkDate 2024 3 1) /\
  day_before "1000-01-01" demo_world = (Ret "999-12-31", demo_world) /\
  strptime "999-12-31" = None.
Proof.
  destruct (day_before_is_the_day_before "2024-03-01" (mkDate 2024 3 1) (mkDate 2024 2 29)
              demo_world) as (H1 & H2 & _ & H3 & _); [reflexivity|reflexivity|].
  destruct (day_before_is_the_day_before "1000-01-01" (mkDate 1000 1 1) (mkDate 999 12 31)
              demo_world) as (H4 & _ & H5 & _); [reflexivity|reflexivity|].
  split; [exact H1|]. split; [apply H2; cbn; lia|]. split; [exact H3|].
  split; [exact H4|]. apply H5. cbn. lia.
Defined.

(** X3. An effective date that is not a date, or that is 0001-01-01 (which
    has no day before it), makes a tier change fail before anything is
    written: the call raises [ValueError], respectively [OverflowError],
    after printing the two tiers, and the committed database and what the
    connection sees are as before. *)
Theorem update_customer_tier_rejects_date
    (f : faults) (clk : clock) (cid : Z) (new_tier : string) (eff : option string)
    (w : world) (cur : customer_row) :
  f SSelectCurrent = None ->
  find (is_current_of cid) (dim_customer (pending w)) = Some cur ->
  customer_tier cur <> new_tier ->
  strptime (effective clk eff) = None \/
  strptime (effective clk eff) = Some (mkDate 1 1 1) ->
  update_customer_tier f clk cid new_tier eff w =
    (Raise (match strptime (effective clk eff) with
            | None => ValueError (effective clk eff)
            | Some _ => OverflowError
            end),
     printed [LUpdating cid new_tier (effective clk eff);
              LTiers (customer_tier cur) new_tier] w).
Proof.
  intros Hsel Hfind Htier Hbad.
  unfold update_customer_tier, update_customer_tier_under, fetch_current, day_before, statement, statement_level, rollback, bind, print, read,
    ret, raise, printed.
  fold (effective clk eff). rewrite Hsel.
  cbn -[strptime strftime pred_day String.eqb effective].
  rewrite Hfind. cbn -[strptime strftime pred_day String.eqb effective].
  rewrite (proj2 (String.eqb_neq _ _) Htier).
  destruct Hbad as [Hd|Hd]; rewrite Hd;
    cbn -[strptime strftime String.eqb effective];
    now rewrite <- app_assoc.
Qed.

Lemma update_customer_tier_rejects_date_witness :
  update_customer_tier reliable demo_clock 1 "Silver" (Some "15/06/2024") demo_world =
    (Raise (ValueError "15/06/2024"),
     printed [LUpdating 1 "Silver" "15/06/2024"; LTiers "Bronze" "Silver"] demo_world).
Proof.
  apply (update_customer_tier_rejects_date reliable demo_clock 1 "Silver"
           (Some "15/06/2024") demo_world alice).
  - reflexivity.
  - reflexivity.
  - discriminate.
  - left. reflexivity.
Defined.












Lemma found_counts cid t cur :
  find (is_current_of cid) t = Some cur -> (1 <= current_count cid t)%nat.
Proof.
  unfold current_count. induction t as [|r t IH]; cbn; [discriminate|].
  destruct (is_current_of cid r); cbn; intros H; lia.
Qed.

Lemma close_and_insert_count clk cid cur tier eff y t k :
  NoDup (map customer_key t) ->
  (current_count cid t <= 1)%nat ->
  find (is_current_of cid) t = Some cur ->
  current_count k (close_and_insert clk cur tier eff y t) = current_count k t.
Proof.
  intros Hnd Hle Hf. unfold close_and_insert.
  rewrite current_count_app, new_version_current.
  destruct (found_current _ _ _ Hf) as (Hin & Hid & _).
  pose proof (found_counts _ _ _ Hf) as Hge.
  destruct (customer_id cur =? k) eqn:E.
  - apply Z.eqb_eq in E. assert (Hk : k = cid) by congruence. rewrite Hk.
    rewrite current_count_close_found; auto. lia.
  - apply Z.eqb_neq in E.
    rewrite (current_count_close_other cid k); auto; try lia; congruence.
Qed.

(** X6. On a connection with nothing pending, a call never commits a change
    in the number of current rows: for every customer the committed
    [dim_customer] has as many current rows after the call as before,
    whichever library call fails, provided the surrogate keys are unique and
    the customer updated had at most one current row. *)
Theorem committed_current_rows_are_stable
    (f : faults) (clk : clock) (cid : Z) (new_tier : string) (eff : option string)
    (w : world) :
  committed w = pending w ->
  NoDup (map customer_key (dim_customer (pending w))) ->
  (current_count cid (dim_customer (pending w)) <= 1)%nat ->
  forall k,
    current_count k
      (dim_customer (committed (snd (update_customer_tier f clk cid new_tier eff w))))
    = current_count k (dim_customer (committed w)).
Proof.
  intros Hclean Hnd Hle k.
  destruct (update_commits_both_or_nothing f clk cid new_tier eff w)
    as [Hsame|(_ & cur & d & y & Hf & _ & _ & Hc & _)].
  - now rewrite Hsame.
  - rewrite Hc, dim_customer_set, Hclean. now apply (close_and_insert_count clk cid).
Qed.

Lemma committed_current_rows_are_stable_witness :
  current_count 1
    (dim_customer (committed (snd (update_customer_tier insert_fails demo_clock 1 "Silver"
                                     (Some "2024-06-15") demo_world))))
  = current_count 1 (dim_customer (committed demo_world)).
Proof.
  apply (committed_current_rows_are_stable insert_fails demo_clock 1 "Silver"
           (Some "2024-06-15") demo_world).
  - reflexivity.
  - cbn. repeat constructor; cbn; intuition discriminate.
  - cbn. lia.
Defined.

(* ====================================================================== *)
(** * [show_current_customers] *)
(* ====================================================================== *)

Lemma insert_by_permutation {A} (leb : A -> A -> bool) x l :
  Permutation (x :: l) (insert_by leb x l).
Proof.
  induction l as [|y l IH]; cbn; [reflexivity|].
  destruct (leb x y); [reflexivity|].
  rewrite perm_swap. now constructor.
Qed.

Lemma order_by_permutation {A} (leb : A -> A -> bool) l :
  Permutation l (order_by leb l).
Proof.
  unfold order_by. induction l as [|x l IH]; cbn; [constructor|].
  rewrite <- insert_by_permutation. now constructor.
Qed.

Lemma insert_by_sorted {A} (leb : A -> A -> bool) x l :
  (forall a b, leb a b = false -> leb b a = true) ->
  Sorted (fun a b => leb a b = true) l ->
  Sorted (fun a b => leb a b = true) (insert_by leb x l).
Proof.
  intros Htotal Hs. induction l as [|y l IH]; cbn.
  - repeat constructor.
  - destruct (leb x y) eqn:E.
    + constructor; [assumption|]. now constructor.
    + inversion Hs as [|y' l' Hl Hhd]; subst. constructor; [auto|].
      destruct l as [|z l]; cbn.
      * constructor. auto.
      * destruct (leb x z); constructor; auto. inversion Hhd. auto.
Qed.

Lemma order_by_sorted {A} (leb : A -> A -> bool) l :
  (forall a b, leb a b = false -> leb b a = true) ->
  Sorted (fun a b => leb a b = true) (order_by leb l).
Proof.
  intros Htotal. unfold order_by. induction l as [|x l IH]; cbn; [constructor|].
  now apply insert_by_sorted.
Qed.

Lemma by_valid_from_total a b : by_valid_from a b = false -> by_valid_from b a = true.
Proof.
  unfold by_valid_from. intros H.
  destruct (String.leb_total (valid_from a) (valid_from b)); congruence.
Qed.

Lemma by_customer_then_valid_from_total a b :
  by_customer_then_valid_from a b = false -> by_customer_then_valid_from b a = true.
Proof.
  unfold by_customer_then_valid_from. intros H.
  destruct (String.leb_total (valid_from a) (valid_from b)) as [Hl|Hl]; rewrite Hl in *.
  - rewrite andb_true_r in H. lia.
  - rewrite andb_true_r. lia.
Qed.

(** X7. [show_current_customers] lists, for a customer id other than 0, all
    the versions of that customer, closed ones included, each once, in
    ascending order of [valid_from]; called without an id, or with the id 0
    (which Python takes for false), it lists instead the versions of
    customers 1 to 5, in order of customer and [valid_from], so the rows of
    a customer 0 are never shown. *)
Theorem show_current_customers_lists (cid : option Z) (h : warehouse) :
  (forall c, cid = Some c -> c <> 0 ->
     Permutation (versions c (dim_customer h)) (show_current_customers cid h) /\
     Sorted (fun a b => by_valid_from a b = true) (show_current_customers cid h)) /\
  (cid = None \/ cid = Some 0 ->
     Permutation
       (filter (fun r => (1 <=? customer_id r) && (customer_id r <=? 5)) (dim_customer h))
       (show_current_customers cid h) /\
     Sorted (fun a b => by_customer_then_valid_from a b = true)
       (show_current_customers cid h) /\
     forall r, In r (show_current_customers cid h) -> customer_id r <> 0).
Proof.
  split.
  - intros c -> Hc. unfold show_current_customers, truthy.
    replace (c =? 0) with false by lia. cbn [negb]. split.
    + apply order_by_permutation.
    + apply order_by_sorted. exact by_valid_from_total.
  - intros Hfalse.
    assert (Ht : truthy cid = false) by (destruct Hfalse as [->| ->]; reflexivity).
    unfold show_current_customers. rewrite Ht. split; [|split].
    + apply order_by_permutation.
    + apply order_by_sorted. exact by_customer_then_valid_from_total.
    + intros r Hr. apply (Permutation_in r (Permutation_sym (order_by_permutation _ _))) in Hr.
      apply filter_In in Hr. lia.
Qed.

Example show_customer_one_after_update :
  show_current_customers (Some 1) (pending (apply_update reliable demo_update demo_world))
    = [alice_closed; alice_silver].
Proof. reflexivity. Qed.

(* ====================================================================== *)
(** * [load_dim_date] *)
(* ====================================================================== *)

Lemma next_day_none d :
  valid_date d = true -> next_day d = None -> d = mkDate 9999 12 31.
Proof.
  intros Hv Hn. apply valid_date_bounds in Hv. destruct Hv as (Hy & Hm & Hd).
  destruct d as [yy mm dd]. cbn [year month day] in *.
  unfold next_day, MAXYEAR in Hn. cbn [year month day] in Hn.
  destruct (dd <? days_in_month yy mm) eqn:E1; [discriminate|].
  destruct (mm <? 12) eqn:E2; [discriminate|].
  destruct (yy <? 9999) eqn:E3; [discriminate|].
  assert (mm = 12) by lia. subst mm. cbn in Hd, E1.
  f_equal; lia.
Qed.

Lemma date_rows_days n current end_ :
  valid_date current = true ->
  toordinal end_ < ordinal_max ->
  Z.of_nat n = Z.max 0 (toordinal end_ - toordinal current + 1) ->
  exists dates,
    date_rows n current end_ = Ret (map date_row dates) /\
    List.length dates = n /\
    forall i d, nth_error dates i = Some d ->
      valid_date d = true /\ toordinal d = toordinal current + Z.of_nat i.
Proof.
  revert current. induction n as [|n IH]; intros current Hv He Hn.
  - exists []. split; [reflexivity|]. split; [reflexivity|].
    intros i d H. destruct i; discriminate.
  - cbn [date_rows].
    replace (toordinal current <=? toordinal end_) with true by lia.
    destruct (next_day current) as [current'|] eqn:En.
    + destruct (next_day_spec _ _ Hv En) as [Hv' Ho].
      destruct (IH current' Hv' He ltac:(lia)) as (dates & Hrows & Hlen & Hnth).
      exists (current :: dates). rewrite Hrows. split; [reflexivity|].
      split; [cbn; now rewrite Hlen|].
      intros i d H. destruct i as [|i]; cbn [nth_error] in H.
      * injection H as <-. split; [assumption|]. lia.
      * destruct (Hnth _ _ H) as [Hvd Hod]. split; [assumption|]. lia.
    + apply (next_day_none _ Hv) in En. subst current.
      change (toordinal (mkDate 9999 12 31)) with ordinal_max in Hn. lia.
Qed.

Lemma date_rows_overflow n current :
  valid_date current = true ->
  Z.of_nat n = ordinal_max - toordinal current + 1 ->
  date_rows n current (mkDate 9999 12 31) = Raise OverflowError.
Proof.
  change (mkDate 9999 12 31) with (mkDate 9999 12 31).
  revert current. induction n as [|n IH]; intros current Hv Hn.
  - pose proof (toordinal_range _ Hv). lia.
  - cbn [date_rows]. change (toordinal (mkDate 9999 12 31)) with ordinal_max.
    pose proof (toordinal_range _ Hv).
    replace (toordinal current <=? ordinal_max) with true by lia.
    destruct (next_day current) as [current'|] eqn:En; [|reflexivity].
    destruct (next_day_spec _ _ Hv En) as [Hv' Ho].
    now rewrite (IH current' Hv') by lia.
Qed.

(** X8. [load_dim_date] on an empty [dim_date], for a range of two dates
    whose end is before 9999-12-31: it returns normally and commits one row
    for each day from start to end, in order of date and with no day left
    out or repeated, and no row at all when the start is after the end. *)
Theorem load_dim_date_one_row_per_day
    (env : etl_env) (start_date end_date : string) (a b : date) (w : world) :
  (forall s, etl_faults env s = None) ->
  dim_date (pending w) = [] ->
  strptime start_date = Some a ->
  strptime end_date = Some b ->
  toordinal b < ordinal_max ->
  let res := load_dim_date env start_date end_date w in
  exists dates,
    fst res = Ret tt /\
    dim_date (pending (snd res)) = map date_row dates /\
    committed (snd res) = pending (snd res) /\
    Z.of_nat (List.length dates) = Z.max 0 (toordinal b - toordinal a + 1) /\
    forall i d, nth_error dates i = Some d ->
      valid_date d = true /\ toordinal d = toordinal a + Z.of_nat i.
Proof.
  intros Hf Hempty Ha Hb Hlast res. subst res.
  pose proof (strptime_valid _ _ Ha) as Hva.
  destruct (date_rows_days (Z.to_nat (toordinal b - toordinal a + 1)) a b Hva Hlast
              ltac:(lia)) as (dates & Hrows & Hlen & Hnth).
  exists dates.
  unfold load_dim_date, parse_date, select_count, to_sql, commit, call, bind, print,
    read, write, ret, raise, lift.
  rewrite !Hf. cbn [fst snd committed pending stdout stdin row_count].
  rewrite Hempty. cbn [List.length Z.of_nat Z.ltb Z.compare].
  rewrite Ha, Hb. unfold ret. cbn [fst snd committed pending stdout stdin].
  rewrite Hrows, ?Hf. unfold ret. cbn [fst snd committed pending stdout stdin].
  rewrite Hempty. cbn [app dim_date set_dim_date].
  split; [reflexivity|]. split; [reflexivity|]. split; [reflexivity|].
  split; [lia|exact Hnth].
Qed.

Lemma load_dim_date_one_row_per_day_witness :
  exists dates,
    dim_date (pending (snd (load_dim_date demo_env "2024-02-27" "2024-03-02" (fresh_world []))))
      = map date_row dates /\
    Z.of_nat (List.length dates) = 5.
Proof.
  destruct (load_dim_date_one_row_per_day demo_env "2024-02-27" "2024-03-02"
              (mkDate 2024 2 27) (mkDate 2024 3 2) (fresh_world []))
    as (dates & _ & Hrows & _ & Hlen & _).
  - reflexivity.
  - reflexivity.
  - reflexivity.
  - reflexivity.
  - apply Z.ltb_lt. reflexivity.
  - exists dates. split; [exact Hrows|exact Hlen].
Defined.

(** X9. [load_dim_date] cannot load a range that ends on 9999-12-31: after
    the last day the loop steps past [datetime.max], so with a start not
    after the end the call raises [OverflowError] and writes nothing. *)
Theorem load_dim_date_overflows_at_max
    (env : etl_env) (start_date end_date : string) (a : date) (w : world) :
  (forall s, etl_faults env s = None) ->
  dim_date (pending w) = [] ->
  strptime start_date = Some a ->
  strptime end_date = Some (mkDate 9999 12 31) ->
  load_dim_date env start_date end_date w =
    (Raise OverflowError, printed [LLoading TDimDate] w).
Proof.
  intros Hf Hempty Ha Hb.
  pose proof (strptime_valid _ _ Ha) as Hva.
  pose proof (toordinal_range _ Hva) as Hr.
  unfold load_dim_date, parse_date, select_count, to_sql, commit, call, bind, print,
    read, write, ret, raise, lift, printed.
  rewrite !Hf. cbn [fst snd committed pending stdout stdin row_count].
  rewrite Hempty. cbn [List.length Z.of_nat Z.ltb Z.compare].
  rewrite Ha, Hb. unfold ret. cbn [fst snd committed pending stdout stdin].
  rewrite (date_rows_overflow _ a Hva); [reflexivity|].
  change (toordinal (mkDate 9999 12 31)) with ordinal_max. lia.
Qed.

Lemma load_dim_date_overflows_at_max_witness :
  load_dim_date demo_env "9999-12-30" "9999-12-31" (fresh_world []) =
    (Raise OverflowError, printed [LLoading TDimDate] (fresh_world [])).
Proof.
  apply (load_dim_date_overflows_at_max demo_env "9999-12-30" "9999-12-31"
           (mkDate 9999 12 30)); reflexivity.
Defined.




(* ====================================================================== *)
(** * Date keys of facts and of [dim_date] *)
(* ====================================================================== *)

Lemma digit_is_plain k :
  0 <= k <= 9 ->
  is_dash (ascii_of_digit k) = false /\ is_c_space (ascii_of_digit k) = false.
Proof.
  intros H. assert (k = 0 \/ k = 1 \/ k = 2 \/ k = 3 \/ k = 4 \/ k = 5 \/ k = 6 \/
                    k = 7 \/ k = 8 \/ k = 9) as Hk by lia.
  repeat (destruct Hk as [->|Hk]); try subst k; split; reflexivity.
Qed.

Lemma is_dash_digit k : 0 <= k <= 9 -> is_dash (ascii_of_digit k) = false.
Proof. intros H. apply digit_is_plain. exact H. Qed.

(** [int] of text that is digits only, first digit [a] and last digit [z]. *)
Ltac int_of_digits a z Ha Hz :=
  match goal with
  | |- py_int ?str = Some ?v =>
      assert (Hdigits : py_digits 0 false str = Some v)
        by (cbn [py_digits]; rewrite !digit_roundtrip by lia; cbn [py_digits];
            f_equal; lia)
  end;
  unfold py_int; cbn [skip_spaces];
  rewrite (proj2 (digit_is_plain a Ha)); cbn [string_rev append skip_spaces];
  rewrite (proj2 (digit_is_plain z Hz)); cbn [string_rev append];
  let Hk := fresh "Hk" in
  assert (a = 0 \/ a = 1 \/ a = 2 \/ a = 3 \/ a = 4 \/ a = 5 \/ a = 6 \/
          a = 7 \/ a = 8 \/ a = 9) as Hk by lia;
  repeat (destruct Hk as [Hk|Hk]); subst a;
  match goal with H : py_digits _ _ _ = _ |- _ => exact H end.

Lemma py_int_five_digits a1 a2 a3 a4 a5 :
  0 <= a1 <= 9 ->
  0 <= a2 <= 9 ->
  0 <= a3 <= 9 ->
  0 <= a4 <= 9 ->
  0 <= a5 <= 9 ->
  py_int (String (ascii_of_digit a1) (String (ascii_of_digit a2) (String (ascii_of_digit a3) (String (ascii_of_digit a4) (String (ascii_of_digit a5) "")))))
  = Some (10000 * a1 + 1000 * a2 + 100 * a3 + 10 * a4 + a5).
Proof.
  intros H1 H2 H3 H4 H5.
  int_of_digits a1 a5 H1 H5.
Qed.

Lemma py_int_six_digits a1 a2 a3 a4 a5 a6 :
  0 <= a1 <= 9 ->
  0 <= a2 <= 9 ->
  0 <= a3 <= 9 ->
  0 <= a4 <= 9 ->
  0 <= a5 <= 9 ->
  0 <= a6 <= 9 ->
  py_int (String (ascii_of_digit a1) (String (ascii_of_digit a2) (String (ascii_of_digit a3) (String (ascii_of_digit a4) (String (ascii_of_digit a5) (String (ascii_of_digit a6) ""))))))
  = Some (100000 * a1 + 10000 * a2 + 1000 * a3 + 100 * a4 + 10 * a5 + a6).
Proof.
  intros H1 H2 H3 H4 H5 H6.
  int_of_digits a1 a6 H1 H6.
Qed.

Lemma py_int_seven_digits a1 a2 a3 a4 a5 a6 a7 :
  0 <= a1 <= 9 ->
  0 <= a2 <= 9 ->
  0 <= a3 <= 9 ->
  0 <= a4 <= 9 ->
  0 <= a5 <= 9 ->
  0 <= a6 <= 9 ->
  0 <= a7 <= 9 ->
  py_int (String (ascii_of_digit a1) (String (ascii_of_digit a2) (String (ascii_of_digit a3) (String (ascii_of_digit a4) (String (ascii_of_digit a5) (String (ascii_of_digit a6) (String (ascii_of_digit a7) "")))))))
  = Some (1000000 * a1 + 100000 * a2 + 10000 * a3 + 1000 * a4 + 100 * a5 + 10 * a6 + a7).
Proof.
  intros H1 H2 H3 H4 H5 H6 H7.
  int_of_digits a1 a7 H1 H7.
Qed.

Lemma py_int_eight_digits a1 a2 a3 a4 a5 a6 a7 a8 :
  0 <= a1 <= 9 ->
  0 <= a2 <= 9 ->
  0 <= a3 <= 9 ->
  0 <= a4 <= 9 ->
  0 <= a5 <= 9 ->
  0 <= a6 <= 9 ->
  0 <= a7 <= 9 ->
  0 <= a8 <= 9 ->
  py_int (String (ascii_of_digit a1) (String (ascii_of_digit a2) (String (ascii_of_digit a3) (String (ascii_of_digit a4) (String (ascii_of_digit a5) (String (ascii_of_digit a6) (String (ascii_of_digit a7) (String (ascii_of_digit a8) ""))))))))
  = Some (10000000 * a1 + 1000000 * a2 + 100000 * a3 + 10000 * a4 + 1000 * a5 + 100 * a6 + 10 * a7 + a8).
Proof.
  intros H1 H2 H3 H4 H5 H6 H7 H8.
  int_of_digits a1 a8 H1 H8.
Qed.

Lemma remove_dashes_iso d :
  valid_date d = true ->
  remove_dashes (strftime d) = (fmt_Y (year d) ++ pad2 (month d) ++ pad2 (day d))%string.
Proof.
  intros Hv. pose proof (valid_date_bounds _ Hv) as (Hy & Hm & Hd).
  pose proof (days_in_month_range (year d) _ Hm) as Hr.
  unfold strftime, fmt_Y, pad4, pad2.
  destruct (year d <? 10) eqn:E1; [|destruct (year d <? 100) eqn:E2;
    [|destruct (year d <? 1000) eqn:E3]];
    cbn [append remove_dashes]; rewrite !is_dash_digit by lia; reflexivity.
Qed.

(** [int] of the digits of a day is its key, also for a year that
    [strftime] writes with fewer than four digits. *)
Lemma py_int_date d :
  valid_date d = true -> py_int (remove_dashes (strftime d)) = Some (yyyymmdd d).
Proof.
  intros Hv. rewrite remove_dashes_iso by assumption.
  pose proof (valid_date_bounds _ Hv) as (Hy & Hm & Hd).
  pose proof (days_in_month_range (year d) _ Hm) as Hr.
  unfold fmt_Y, pad4, pad2, yyyymmdd.
  destruct (year d <? 10) eqn:E1; [|destruct (year d <? 100) eqn:E2;
    [|destruct (year d <? 1000) eqn:E3]]; cbn [append].
  - rewrite py_int_five_digits by lia. f_equal. lia.
  - rewrite py_int_six_digits by lia. f_equal. lia.
  - rewrite py_int_seven_digits by lia. f_equal. lia.
  - rewrite py_int_eight_digits by lia. f_equal. lia.
Qed.

(** X11. The date key [load_fact_sales] computes from an order date written
    as year-month-day with two-digit month and day is the [date_key] that
    [load_dim_date] gives the row of that day, and no other day has that
    key: such a fact joins exactly the [dim_date] row of its day. *)
Theorem fact_date_key_is_the_dim_date_key (s : sale) (rest : list sale) (d : date) :
  valid_date d = true ->
  s_order_date s = strftime d ->
  (forall rows, with_date_keys rest = Ret rows ->
     with_date_keys (s :: rest) = Ret ((s, DimDate.date_key (date_row d)) :: rows)) /\
  (forall d', valid_date d' = true ->
     DimDate.date_key (date_row d') = DimDate.date_key (date_row d) -> d' = d).
Proof.
  intros Hv Hdate. split.
  - intros rows Hrest. cbn [with_date_keys]. rewrite Hdate, py_int_date by assumption.
    rewrite Hrest. reflexivity.
  - intros d' Hv' H. now apply yyyymmdd_injective.
Qed.

Lemma fact_date_key_is_the_dim_date_key_witness :
  with_date_keys [unmatched_sale]
    = Ret [(unmatched_sale, DimDate.date_key (date_row (mkDate 2024 3 8)))].
Proof.
  destruct (fact_date_key_is_the_dim_date_key unmatched_sale [] (mkDate 2024 3 8))
    as [H _].
  - reflexivity.
  - reflexivity.
  - apply H. reflexivity.
Defined.

(** An order date without the leading zeros still converts, to a key that is
    no day's. *)
Example short_order_date_key :
  py_int (remove_dashes "2024-3-8") = Some 202438 /\
  yyyymmdd (mkDate 2024 3 8) = 20240308.
Proof. split; reflexivity. Qed.

(* ====================================================================== *)
(** * The initial load of [dim_customer] *)
(* ====================================================================== *)

Lemma fold_max_snoc ks a x : fold_left Z.max (ks ++ [x]) a = Z.max (fold_left Z.max ks a) x.
Proof. rewrite fold_left_app. reflexivity. Qed.

Lemma next_rowid_snoc keys :
  next_rowid (keys ++ [next_rowid keys]) = next_rowid keys + 1.
Proof.
  destruct keys as [|k ks]; [reflexivity|].
  unfold next_rowid. cbn [app]. rewrite fold_max_snoc. lia.
Qed.

Lemma append_auto_keyed {A R} (key_of : R -> Z) (mk : Z -> A -> R) new t :
  (forall k a, key_of (mk k a) = k) ->
  append_auto key_of mk t new = t ++ keyed mk (next_rowid (map key_of t)) new.
Proof.
  intros Hkey. revert t. induction new as [|a new IH]; intros t; cbn [append_auto keyed].
  - now rewrite app_nil_r.
  - rewrite IH, map_app. cbn [map]. rewrite Hkey, next_rowid_snoc, <- app_assoc.
    reflexivity.
Qed.

Lemma keyed_nth {A R} (mk : Z -> A -> R) new b i a :
  nth_error new i = Some a -> nth_error (keyed mk b new) i = Some (mk (b + Z.of_nat i) a).
Proof.
  revert b i. induction new as [|x new IH]; intros b i H; [destruct i; discriminate|].
  destruct i as [|i]; cbn [nth_error keyed] in *.
  - injection H as <-. do 2 f_equal. lia.
  - rewrite (IH (b + 1) i H). do 2 f_equal. lia.
Qed.

Lemma keyed_length {A R} (mk : Z -> A -> R) new b :
  List.length (keyed mk b new) = List.length new.
Proof. revert b. induction new as [|x new IH]; intros b; cbn; auto. Qed.

Lemma keyed_keys_above clk cs b k :
  In k (map customer_key (keyed (initial_version clk) b cs)) -> b <= k.
Proof.
  revert b. induction cs as [|c cs IH]; intros b; cbn [keyed map In]; [tauto|].
  intros [<-|H]; [cbn; lia|]. apply IH in H. lia.
Qed.

Lemma keyed_keys_unique clk cs b :
  NoDup (map customer_key (keyed (initial_version clk) b cs)).
Proof.
  revert b. induction cs as [|c cs IH]; intros b; cbn [keyed map]; constructor; auto.
  cbn [initial_version customer_key]. intros H. apply keyed_keys_above in H. lia.
Qed.

Lemma versions_keyed_absent clk cs b k :
  (forall c, In c cs -> Src.customer_id c <> k) ->
  versions k (keyed (initial_version clk) b cs) = [].
Proof.
  revert b. induction cs as [|c cs IH]; intros b H; [reflexivity|].
  unfold versions. cbn [keyed filter initial_version customer_id].
  replace (Src.customer_id c =? k) with false
    by (symmetry; apply Z.eqb_neq; apply H; now left).
  apply IH. intros c' Hc'. apply H. now right.
Qed.

Lemma versions_keyed clk cs b k :
  NoDup (map Src.customer_id cs) ->
  versions k (keyed (initial_version clk) b cs) = [] \/
  exists key c, In c cs /\ Src.customer_id c = k /\
    versions k (keyed (initial_version clk) b cs) = [initial_version clk key c].
Proof.
  revert b. induction cs as [|c cs IH]; intros b Hnd; [now left|].
  cbn [map] in Hnd. inversion Hnd as [|x xs Hnotin Hnd']; subst.
  unfold versions. cbn [keyed filter initial_version customer_id].
  destruct (Src.customer_id c =? k) eqn:E.
  - right. apply Z.eqb_eq in E. exists b, c. split; [now left|]. split; [assumption|].
    f_equal. apply versions_keyed_absent. intros c' Hc' Heq. apply Hnotin.
    rewrite E, <- Heq. now apply in_map.
  - destruct (IH (b + 1) Hnd') as [Hnil|(key & c' & Hin & Hid & Hv)].
    + now left.
    + right. exists key, c'. split; [now right|]. split; assumption.
Qed.

Lemma current_count_versions k t :
  current_count k t = List.length (filter (fun r => is_current r =? 1) (versions k t)).
Proof.
  unfold current_count, versions, is_current_of.
  induction t as [|r t IH]; cbn [filter]; [reflexivity|].
  destruct (customer_id r =? k); cbn [andb filter]; [|exact IH].
  destruct (is_current r =? 1); cbn [List.length]; now rewrite IH.
Qed.

(** X12. The initial load.  On an empty [dim_customer], with no library call
    failing, [load_dim_customer] returns normally and commits one row for
    each source customer, in source order, under the keys 1, 2, ...: the
    customer's columns with [valid_from] equal to the registration date,
    [valid_to] equal to '9999-12-31' and [is_current] equal to 1.  The keys
    are unique; and when the source has each [customer_id] once, every
    customer has exactly one current row, and, the registration dates being
    dates, the one version of each customer covers the days from its
    registration to 9999-12-31. *)
Theorem load_dim_customer_initial (env : etl_env) (w : world) :
  (forall s, etl_faults env s = None) ->
  dim_customer (pending w) = [] ->
  let res := load_dim_customer env w in
  let rows := dim_customer (pending (snd res)) in
  let cs := Src.customers (source env) in
  fst res = Ret tt /\
  committed (snd res) = pending (snd res) /\
  List.length rows = List.length cs /\
  (forall i c, nth_error cs i = Some c ->
     nth_error rows i = Some (initial_version (etl_clock env) (1 + Z.of_nat i) c)) /\
  NoDup (map customer_key rows) /\
  (NoDup (map Src.customer_id cs) ->
   (forall k, (current_count k rows <= 1)%nat) /\
   (forall c, In c cs -> current_count (Src.customer_id c) rows = 1%nat) /\
   ((forall c, In c cs -> strptime (Src.registration_date c) <> None) ->
    forall k, history_ok (versions k rows))).
Proof.
  intros Hf Hempty res rows cs. subst res rows cs.
  unfold load_dim_customer, select_count, to_sql, commit, call, bind, print, read,
    write, ret, raise.
  rewrite !Hf. cbn [fst snd committed pending stdout stdin row_count].
  rewrite Hempty. cbn [List.length Z.of_nat Z.ltb Z.compare].
  rewrite ?Hf. cbn [fst snd committed pending stdout stdin dim_customer set_dim_customer].
  rewrite Hempty.
  rewrite (append_auto_keyed customer_key (initial_version (etl_clock env)))
    by reflexivity.
  cbn [app map]. change (next_rowid []) with 1.
  split; [reflexivity|]. split; [reflexivity|].
  split; [apply keyed_length|].
  split; [intros i c H; now apply keyed_nth|].
  split; [apply keyed_keys_unique|].
  intros Hnd.
  assert (Hv := fun k => versions_keyed (etl_clock env) (Src.customers (source env)) 1 k Hnd).
  split; [|split].
  - intros k. rewrite current_count_versions.
    destruct (Hv k) as [->|(key & c & _ & _ & ->)]; cbn; lia.
  - intros c Hc. rewrite current_count_versions.
    destruct (Hv (Src.customer_id c)) as [Hnil|(key & c' & _ & _ & ->)]; [|reflexivity].
    exfalso.
    assert (Hin : exists r, In r (versions (Src.customer_id c)
                     (keyed (initial_version (etl_clock env)) 1 (Src.customers (source env))))).
    { apply In_nth_error in Hc. destruct Hc as [i Hi].
      exists (initial_version (etl_clock env) (1 + Z.of_nat i) c).
      apply versions_in. split; [|reflexivity].
      eapply nth_error_In. now apply keyed_nth. }
    destruct Hin as [r Hr]. rewrite Hnil in Hr. destruct Hr.
  - intros Hdates k.
    destruct (Hv k) as [->|(key & c & Hc & _ & ->)]; [now left|].
    right. destruct (strptime (Src.registration_date c)) as [d|] eqn:Hd;
      [|exfalso; exact (Hdates c Hc Hd)].
    exists (toordinal d). cbn [chain_from].
    unfold from_ord, to_ord. cbn [initial_version valid_from valid_to is_current].
    rewrite Hd. split; [reflexivity|]. exists ordinal_max.
    split; [reflexivity|].
    pose proof (toordinal_range _ (strptime_valid _ _ Hd)).
    split; [lia|]. split; [tauto|reflexivity].
Qed.

Lemma load_dim_customer_initial_witness :
  dim_customer (pending (snd (load_dim_customer demo_env (fresh_world [])))) <> [] /\
  NoDup (map customer_key
           (dim_customer (pending (snd (load_dim_customer demo_env (fresh_world [])))))).
Proof.
  destruct (load_dim_customer_initial demo_env (fresh_world []))
    as (_ & _ & Hlen & _ & Hnd & _).
  - reflexivity.
  - reflexivity.
  - split; [|exact Hnd]. intros H. rewrite H in Hlen. discriminate.
Defined.

(* ====================================================================== *)
(** * [load_dim_product] *)
(* ====================================================================== *)

Lemma products_with_category_in s p c :
  In (p, c) (products_with_category s) <->
  In p (Src.products s) /\ In c (Src.categories s) /\
  Src.p_category_id p = Src.category_id c.
Proof.
  unfold products_with_category. rewrite in_flat_map. split.
  - intros (p0 & Hp & Hin). apply in_map_iff in Hin. destruct Hin as (c0 & Heq & Hc).
    injection Heq as <- <-. apply filter_In in Hc. destruct Hc as [Hc Hid].
    apply Z.eqb_eq in Hid. auto.
  - intros (Hp & Hc & Hid). exists p. split; [assumption|].
    apply in_map_iff. exists c. split; [reflexivity|].
    apply filter_In. split; [assumption|]. now apply Z.eqb_eq.
Qed.

Lemma keyed_in {A R} (mk : Z -> A -> R) new b r :
  In r (keyed mk b new) <-> exists i a, nth_error new i = Some a /\ r = mk (b + Z.of_nat i) a.
Proof.
  split.
  - intros H. apply In_nth_error in H. destruct H as [i Hi].
    assert (Hlt : (i < List.length new)%nat).
    { rewrite <- (keyed_length mk new b). apply nth_error_Some. congruence. }
    destruct (nth_error new i) as [a|] eqn:Ha; [|apply nth_error_None in Ha; lia].
    exists i, a. split; [exact Ha|]. rewrite (keyed_nth mk new b i a Ha) in Hi.
    congruence.
  - intros (i & a & Ha & ->). eapply nth_error_In. now apply keyed_nth.
Qed.

(** X13. [load_dim_product] on an empty [dim_product], with no library call
    failing: it returns normally and commits, under the keys 1, 2, ..., one
    row for each pair of a source product and a category with the product's
    [category_id], carrying the product's columns and the category's name
    and description; a product whose [category_id] is the id of no category
    gets no row. *)
Theorem load_dim_product_joins_categories (env : etl_env) (w : world) :
  (forall s, etl_faults env s = None) ->
  dim_product (pending w) = [] ->
  let res := load_dim_product env w in
  let rows := dim_product (pending (snd res)) in
  fst res = Ret tt /\
  committed (snd res) = pending (snd res) /\
  (forall r, In r rows <->
     exists i p c,
       nth_error (products_with_category (source env)) i = Some (p, c) /\
       r = product_row (etl_clock env) (1 + Z.of_nat i) (p, c)) /\
  (forall r, In r rows ->
     exists p c,
       In p (Src.products (source env)) /\ In c (Src.categories (source env)) /\
       Src.p_category_id p = Src.category_id c /\
       DimProduct.product_id r = Src.product_id p /\
       DimProduct.product_name r = Src.product_name p /\
       DimProduct.category_id r = Src.category_id c /\
       DimProduct.category_name r = Src.category_name c) /\
  (forall p c,
     In p (Src.products (source env)) -> In c (Src.categories (source env)) ->
     Src.p_category_id p = Src.category_id c ->
     exists r, In r rows /\ DimProduct.product_id r = Src.product_id p /\
               DimProduct.category_name r = Src.category_name c).
Proof.
  intros Hf Hempty res rows. subst res rows.
  unfold load_dim_product, select_count, to_sql, commit, call, bind, print, read,
    write, ret, raise.
  rewrite !Hf. cbn [fst snd committed pending stdout stdin row_count].
  rewrite Hempty. cbn [List.length Z.of_nat Z.ltb Z.compare].
  rewrite ?Hf. cbn [fst snd committed pending stdout stdin dim_product set_dim_product].
  rewrite Hempty.
  rewrite (append_auto_keyed DimProduct.product_key (product_row (etl_clock env)))
    by (intros k [p c]; reflexivity).
  cbn [app map]. change (next_rowid []) with 1.
  split; [reflexivity|]. split; [reflexivity|].
  assert (Hin : forall r,
            In r (keyed (product_row (etl_clock env)) 1 (products_with_category (source env)))
            <-> exists i p c,
                  nth_error (products_with_category (source env)) i = Some (p, c) /\
                  r = product_row (etl_clock env) (1 + Z.of_nat i) (p, c)).
  { intros r. rewrite keyed_in. split.
    - intros (i & [p c] & H1 & H2). eauto.
    - intros (i & p & c & H1 & H2). eauto. }
  split; [exact Hin|]. split.
  - intros r Hr. apply Hin in Hr. destruct Hr as (i & p & c & Hnth & ->).
    apply nth_error_In in Hnth. apply products_with_category_in in Hnth.
    destruct Hnth as (Hp & Hc & Hid). exists p, c. cbn. rewrite Hid. repeat split; auto.
  - intros p c Hp Hc Hid.
    assert (Hpc : In (p, c) (products_with_category (source env)))
      by (apply products_with_category_in; auto).
    apply In_nth_error in Hpc. destruct Hpc as [i Hi].
    exists (product_row (etl_clock env) (1 + Z.of_nat i) (p, c)).
    split; [apply Hin; eauto|]. split; reflexivity.
Qed.

Lemma load_dim_product_joins_categories_witness :
  exists r,
    In r (dim_product (pending (snd (load_dim_product demo_env (fresh_world []))))) /\
    DimProduct.product_id r = 1 /\ DimProduct.category_name r = "Electronics".
Proof.
  destruct (load_dim_product_joins_categories demo_env (fresh_world []))
    as (_ & _ & _ & _ & H).
  - reflexivity.
  - reflexivity.
  - apply (H (Src.mkProduct 1 "Laptop" 1 10%float 25 1)
             (Src.mkCategory 1 "Electronics" "Electronic devices and accessories")).
    + left. reflexivity.
    + left. reflexivity.
    + reflexivity.
Defined.

(* ====================================================================== *)
(** * Further properties of [load_fact_sales] *)
(* ====================================================================== *)

Lemma extract_sales_in src s :
  In s (extract_sales src) <->
  exists o oi,
    In o (Src.orders src) /\ In oi (Src.order_items src) /\
    Src.order_status o = "Completed" /\ Src.order_id o = Src.oi_order_id oi /\
    s = sale_of o oi.
Proof.
  unfold extract_sales. rewrite in_flat_map. split.
  - intros (oi & Hoi & Hin). apply in_map_iff in Hin.
    destruct Hin as (o & <- & Ho). apply filter_In in Ho. destruct Ho as [Ho Hc].
    apply andb_prop in Hc. destruct Hc as [Hid Hst].
    apply Z.eqb_eq in Hid. apply String.eqb_eq in Hst. exists o, oi. auto.
  - intros (o & oi & Ho & Hoi & Hst & Hid & ->). exists oi. split; [assumption|].
    apply in_map_iff. exists o. split; [reflexivity|].
    apply filter_In. split; [assumption|]. apply andb_true_intro.
    split; [now apply Z.eqb_eq | now apply String.eqb_eq].
Qed.

Lemma payment_key_of_order order_id :
  payment_mapping (inferred_payment_method order_id) =
    Some (if Z.rem order_id 4 =? 0 then 1
          else if Z.rem order_id 4 =? 1 then 2
          else if Z.rem order_id 4 =? 2 then 3
          else 4).
Proof.
  unfold inferred_payment_method.
  destruct (Z.rem order_id 4 =? 0); [reflexivity|].
  destruct (Z.rem order_id 4 =? 1); [reflexivity|].
  destruct (Z.rem order_id 4 =? 2); reflexivity.
Qed.

(** X14. Every row [load_fact_sales] loads is a line of an order whose status
    is exactly 'Completed' (orders pending, shipped or cancelled give no
    fact); its [status_key] is 3, its [payment_method_key] is never NULL
    but 1, 2, 3 or 4 as the remainder of [order_id] by 4 is 0, 1, 2 or
    anything else, and its quantity is the order line's. *)
Theorem load_fact_sales_status_and_payment (env : etl_env) (w : world)
    (dated : list (sale * Z)) :
  (forall s, etl_faults env s = None) ->
  fact_sales (pending w) = [] ->
  with_date_keys (extract_sales (source env)) = Ret dated ->
  forall f, In f (fact_sales (pending (snd (load_fact_sales env w)))) ->
    Fact.status_key f = Some 3 /\
    Fact.payment_method_key f =
      Some (if Z.rem (Fact.order_id f) 4 =? 0 then 1
            else if Z.rem (Fact.order_id f) 4 =? 1 then 2
            else if Z.rem (Fact.order_id f) 4 =? 2 then 3
            else 4) /\
    exists o oi,
      In o (Src.orders (source env)) /\ In oi (Src.order_items (source env)) /\
      Src.order_status o = "Completed" /\
      Src.oi_order_id oi = Src.order_id o /\
      Fact.order_id f = Src.order_id o /\
      Fact.order_item_id f = Src.order_item_id oi /\
      Fact.quantity f = Src.quantity oi.
Proof.
  intros Hf Hempty Hdated f Hin.
  destruct (load_fact_sales_loads env w dated Hf Hempty Hdated) as [out Hrun].
  rewrite Hrun in Hin. cbn [snd pending fact_sales set_fact_sales] in Hin.
  apply transform_sales_from in Hin. destruct Hin as (s & k & c & p & Hc & _ & ->).
  apply in_left_merge in Hc. destruct Hc as [Hs _].
  assert (Hs' : In s (extract_sales (source env))).
  { rewrite <- (with_date_keys_sales _ _ Hdated). apply in_map_iff.
    exists (s, k). auto. }
  apply extract_sales_in in Hs'. destruct Hs' as (o & oi & Ho & Hoi & Hst & Hid & ->).
  cbn [fact_row Fact.status_key Fact.payment_method_key Fact.order_id Fact.order_item_id
       Fact.quantity sale_of s_order_status s_payment_method s_order_id s_order_item_id
       s_quantity].
  rewrite Hst. split; [reflexivity|]. split; [apply payment_key_of_order|].
  exists o, oi. repeat split; auto.
Qed.

Lemma load_fact_sales_status_and_payment_witness :
  exists f,
    In f (fact_sales (pending (snd (load_fact_sales demo_env dimensions_only)))) /\
    Fact.order_id f = 7 /\ Fact.status_key f = Some 3 /\
    Fact.payment_method_key f = Some 4.
Proof.
  assert (Hin : exists f,
    In f (fact_sales (pending (snd (load_fact_sales demo_env dimensions_only)))) /\
    Fact.order_id f = 7).
  { eexists. split; [cbn; right; left; reflexivity | reflexivity]. }
  destruct Hin as (f & Hin & Hid). exists f.
  destruct (load_fact_sales_status_and_payment demo_env dimensions_only
              (match with_date_keys (extract_sales demo_source) with
               | Ret d => d
               | Raise _ => []
               end)) with (f := f) as (Hs & Hp & _).
  - reflexivity.
  - reflexivity.
  - reflexivity.
  - exact Hin.
  - rewrite Hid in Hp. repeat split; assumption.
Defined.

Lemma filter_unique_key {R} (kr : R -> Z) (k : Z) (right : list R) :
  NoDup (map kr right) ->
  filter (fun r => k =? kr r) right =
    match find (fun r => k =? kr r) right with
    | Some r => [r]
    | None => []
    end.
Proof.
  induction right as [|r rs IH]; cbn [map filter find]; intros Hnd; [reflexivity|].
  inversion Hnd as [|x xs Hnotin Hnd' E]; subst.
  destruct (k =? kr r) eqn:Hk.
  - apply Z.eqb_eq in Hk. f_equal.
    destruct (filter (fun r0 => k =? kr r0) rs) as [|m ms] eqn:Ef; [reflexivity|].
    exfalso. assert (Hm : In m (filter (fun r0 => k =? kr r0) rs)) by (rewrite Ef; now left).
    apply filter_In in Hm. destruct Hm as [Hm Hkm]. apply Z.eqb_eq in Hkm.
    apply Hnotin. rewrite <- Hk, Hkm. now apply in_map.
  - now apply IH.
Qed.

Lemma flat_map_singleton {A B} (f : A -> list B) (g : A -> B) (l : list A) :
  (forall x, f x = [g x]) -> flat_map f l = map g l.
Proof.
  intros H. induction l as [|x xs IH]; cbn [flat_map map]; [reflexivity|].
  rewrite H, IH. reflexivity.
Qed.

Lemma left_merge_unique {L R} (kl : L -> Z) (kr : R -> Z) left right :
  NoDup (map kr right) ->
  left_merge kl kr left right =
    map (fun l => (l, find (fun r => kl l =? kr r) right)) left.
Proof.
  intros Hnd. unfold left_merge.
  apply flat_map_singleton. intros l.
  rewrite (filter_unique_key kr (kl l) right Hnd).
  destruct (find (fun r => kl l =? kr r) right); reflexivity.
Qed.

Lemma left_merge_length {L R} (kl : L -> Z) (kr : R -> Z) left (right : list R) :
  (List.length left <= List.length (left_merge kl kr left right))%nat.
Proof.
  unfold left_merge. induction left as [|l ls IH]; [apply Nat.le_refl|].
  cbn [flat_map]. rewrite length_app. cbn [List.length].
  destruct (filter (fun r => kl l =? kr r) right) as [|m ms]; cbn [map List.length];
    [apply le_n_S, IH | apply le_n_S; etransitivity; [apply IH | apply Nat.le_add_l]].
Qed.

Lemma transform_sales_length dated customers products :
  (List.length dated <= List.length (transform_sales dated customers products))%nat.
Proof.
  unfold transform_sales. rewrite length_map.
  etransitivity; [|apply left_merge_length]. apply left_merge_length.
Qed.

Lemma transform_sales_unique dated customers products :
  NoDup (map snd customers) -> NoDup (map snd products) ->
  map (fun f => (Fact.order_id f, Fact.order_item_id f))
    (transform_sales dated customers products) =
  map (fun x => (s_order_id (fst x), s_order_item_id (fst x))) dated.
Proof.
  intros Hc Hp. unfold transform_sales.
  rewrite (left_merge_unique _ snd dated customers Hc).
  rewrite (left_merge_unique _ snd _ products Hp).
  rewrite !map_map. apply map_ext. intros [s k]. reflexivity.
Qed.

(** X15. The two left merges of [load_fact_sales] never drop an order line:
    the fact table gets at least one row for each extracted line.  When no
    two current customer rows share a [customer_id] and no two products a
    [product_id], it gets exactly one, in the order of the extract, so that
    the (order_id, order_item_id) pairs of the facts are those of the
    extracted lines. *)
Theorem load_fact_sales_one_row_per_line (env : etl_env) (w : world)
    (dated : list (sale * Z)) :
  (forall s, etl_faults env s = None) ->
  fact_sales (pending w) = [] ->
  with_date_keys (extract_sales (source env)) = Ret dated ->
  let sales := extract_sales (source env) in
  let facts := fact_sales (pending (snd (load_fact_sales env w))) in
  (List.length sales <= List.length facts)%nat /\
  (NoDup (map snd (current_customer_keys (pending w))) ->
   NoDup (map snd (product_keys (pending w))) ->
   map (fun f => (Fact.order_id f, Fact.order_item_id f)) facts =
   map (fun s => (s_order_id s, s_order_item_id s)) sales).
Proof.
  intros Hf Hempty Hdated sales facts. subst sales facts.
  destruct (load_fact_sales_loads env w dated Hf Hempty Hdated) as [out Hrun].
  rewrite Hrun. cbn [snd pending fact_sales set_fact_sales].
  rewrite <- (with_date_keys_sales _ _ Hdated). split.
  - rewrite length_map. apply transform_sales_length.
  - intros Hc Hp. rewrite (transform_sales_unique _ _ _ Hc Hp), map_map. reflexivity.
Qed.

Lemma load_fact_sales_one_row_per_line_witness :
  map (fun f => (Fact.order_id f, Fact.order_item_id f))
    (fact_sales (pending (snd (load_fact_sales demo_env dimensions_only)))) =
  map (fun s => (s_order_id s, s_order_item_id s)) (extract_sales demo_source).
Proof.
  apply (load_fact_sales_one_row_per_line demo_env dimensions_only
           (match with_date_keys (extract_sales demo_source) with
            | Ret d => d
            | Raise _ => []
            end)).
  - reflexivity.
  - reflexivity.
  - reflexivity.
  - cbn. repeat constructor; cbn; intuition discriminate.
  - cbn. repeat constructor; cbn; intuition discriminate.
Defined.

Lemma with_date_keys_bad_date df s :
  In s df -> py_int (remove_dashes (s_order_date s)) = None ->
  exists d, with_date_keys df = Raise (ValueError d) /\
            py_int (remove_dashes d) = None /\
            exists s', In s' df /\ s_order_date s' = d.
Proof.
  induction df as [|x xs IH]; [intros []|]. intros Hin Hbad. cbn [with_date_keys].
  destruct (py_int (remove_dashes (s_order_date x))) as [k|] eqn:Hx.
  - destruct Hin as [->|Hin]; [congruence|].
    destruct (IH Hin Hbad) as (d & -> & Hd & s' & Hs' & Hsd).
    exists d. split; [reflexivity|]. split; [assumption|]. exists s'. split; [now right|assumption].
  - exists (s_order_date x). split; [reflexivity|]. split; [assumption|].
    exists x. split; [now left|reflexivity].
Qed.

(** X16. [load_fact_sales] converts the order dates before it looks up any
    key or writes anything: when the fact table is empty and an extracted
    line has an order date that [int] rejects once the dashes are removed
    (a timestamp, say), the step raises [ValueError] for the first such
    date, and the warehouse, committed and pending, is what it was: no fact
    row is written. *)
Theorem load_fact_sales_bad_order_date (env : etl_env) (w : world) (s : sale) :
  (forall x, etl_faults env x = None) ->
  fact_sales (pending w) = [] ->
  In s (extract_sales (source env)) ->
  py_int (remove_dashes (s_order_date s)) = None ->
  exists d,
    fst (load_fact_sales env w) = Raise (ValueError d) /\
    py_int (remove_dashes d) = None /\
    committed (snd (load_fact_sales env w)) = committed w /\
    pending (snd (load_fact_sales env w)) = pending w.
Proof.
  intros Hf Hempty Hin Hbad.
  destruct (with_date_keys_bad_date _ _ Hin Hbad) as (d & Hd & Hnone & _).
  exists d.
  unfold load_fact_sales, select_count, to_sql, commit, call, bind, print, read,
    write, ret, raise, lift.
  rewrite !Hf. cbn [fst snd committed pending stdout stdin row_count].
  rewrite Hempty. cbn [List.length Z.of_nat Z.ltb Z.compare].
  rewrite Hd. unfold raise. cbn [fst snd committed pending stdout stdin].
  repeat split; assumption || reflexivity.
Qed.

Lemma load_fact_sales_bad_order_date_witness :
  exists d,
    fst (load_fact_sales timestamped_env dimensions_only) = Raise (ValueError d) /\
    py_int (remove_dashes d) = None /\
    committed (snd (load_fact_sales timestamped_env dimensions_only)) =
      committed dimensions_only /\
    pending (snd (load_fact_sales timestamped_env dimensions_only)) =
      pending dimensions_only.
Proof.
  apply (load_fact_sales_bad_order_date timestamped_env dimensions_only
           (sale_of (Src.mkOrder 5 1 "2024-03-05 10:30:00" None "Completed" 20%float)
                    (Src.mkOrderItem 9 5 1 2 10%float 20%float))).
  - reflexivity.
  - reflexivity.
  - cbn. left. reflexivity.
  - reflexivity.
Defined.

(* ====================================================================== *)
(** * The menu of [main] in [create_data_warehouse.py] *)
(* ====================================================================== *)

Lemma commits_nothing_bind {A B} (m : M A) (k : A -> M B) :
  commits_nothing m -> (forall a, commits_nothing (k a)) -> commits_nothing (bind m k).
Proof.
  intros Hm Hk w. unfold bind. specialize (Hm w).
  destruct (m w) as [[a|e] w1]; cbn [snd] in *.
  - now rewrite Hk.
  - assumption.
Qed.

Lemma commits_nothing_bind_at {A B} (m : M A) (k : A -> M B) (w : world) :
  committed (snd (m w)) = committed w ->
  (forall a w', m w = (Ret a, w') -> committed (snd (k a w')) = committed w') ->
  committed (snd (bind m k w)) = committed w.
Proof.
  intros Hm Hk. unfold bind.
  destruct (m w) as [[a|e] w1]; cbn [snd] in *; [|assumption].
  rewrite <- Hm. now apply Hk.
Qed.

Lemma commits_nothing_print l : commits_nothing (print l).
Proof. intros w. reflexivity. Qed.

Lemma commits_nothing_call f s : commits_nothing (call f s).
Proof. intros w. unfold call. destruct (f s); reflexivity. Qed.

Lemma commits_nothing_input : commits_nothing input.
Proof. intros w. unfold input. destruct (stdin w); reflexivity. Qed.

Lemma commits_nothing_read : commits_nothing read.
Proof. intros w. reflexivity. Qed.

Lemma commits_nothing_ret {A} (a : A) : commits_nothing (ret a).
Proof. intros w. reflexivity. Qed.

Lemma commits_nothing_raise {A} e : commits_nothing (@raise A e).
Proof. intros w. reflexivity. Qed.

Lemma commits_nothing_select_count f t : commits_nothing (select_count f t).
Proof.
  unfold select_count. apply commits_nothing_bind; [apply commits_nothing_call|].
  intros _. apply commits_nothing_bind; [apply commits_nothing_read|].
  intros h. apply commits_nothing_ret.
Qed.

Lemma commits_nothing_verify_tables f ts : commits_nothing (verify_tables f ts).
Proof.
  induction ts as [|t ts IH]; cbn [verify_tables]; [apply commits_nothing_ret|].
  apply commits_nothing_bind; [apply commits_nothing_select_count|].
  intros c. apply commits_nothing_bind; [apply commits_nothing_print|].
  intros _. exact IH.
Qed.

Lemma commits_nothing_verify_warehouse env : commits_nothing (verify_warehouse env).
Proof. apply commits_nothing_verify_tables. Qed.

Lemma commits_nothing_run_sample_queries env : commits_nothing (run_sample_queries env).
Proof.
  unfold run_sample_queries.
  apply commits_nothing_bind; [apply commits_nothing_call|].
  intros _. apply commits_nothing_print.
Qed.

Lemma commits_nothing_close f : commits_nothing (close f).
Proof.
  unfold close. apply commits_nothing_bind; [apply commits_nothing_call|].
  intros _. apply commits_nothing_bind; [|intros _; apply commits_nothing_print].
  intros w. reflexivity.
Qed.

Lemma commits_nothing_etl_init env : commits_nothing (etl_init env).
Proof.
  unfold etl_init. destruct (negb (source_exists env)).
  - apply commits_nothing_bind; [apply commits_nothing_print|].
    intros _. apply commits_nothing_raise.
  - apply commits_nothing_print.
Qed.

Lemma etl_init_keeps_keyboard env w : stdin (snd (etl_init env w)) = stdin w.
Proof. unfold etl_init. destruct (negb (source_exists env)); reflexivity. Qed.

(** X17. Of the menu of [main], only option 1 (or an empty answer) writes to
    the warehouse.  When the answer, stripped, is anything else (2, 3 or
    an invalid choice), then whatever library call fails and however the
    run ends, the database file is left as it was; and [verify_warehouse]
    and [run_sample_queries], which options 2 and 3 call, commit nothing in
    any state. *)
Theorem etl_main_other_options_write_nothing (env : etl_env) (w : world)
    (raw : string) (rest : list string) :
  stdin w = raw :: rest ->
  strip raw <> "" -> strip raw <> "1" ->
  committed (snd (etl_main env w)) = committed w /\
  commits_nothing (verify_warehouse env) /\
  commits_nothing (run_sample_queries env).
Proof.
  intros Hin Hne H1.
  split; [|split; [apply commits_nothing_verify_warehouse
                  |apply commits_nothing_run_sample_queries]].
  unfold etl_main.
  apply commits_nothing_bind_at; [apply commits_nothing_etl_init|].
  intros [] w1 E1.
  pose proof (etl_init_keeps_keyboard env w) as Hk. rewrite E1 in Hk. cbn [snd] in Hk.
  apply commits_nothing_bind_at; [apply commits_nothing_print|].
  intros [] w2 E2. unfold print in E2. injection E2 as <-.
  apply commits_nothing_bind_at; [apply commits_nothing_input|].
  intros a w3 E3. unfold input in E3. cbn [stdin] in E3. rewrite Hk, Hin in E3.
  injection E3 as <- <-.
  apply String.eqb_neq in Hne, H1. rewrite Hne, H1. cbn [orb].
  apply commits_nothing_bind; [|intros _; apply commits_nothing_close].
  destruct (String.eqb (strip raw) "2"); [apply commits_nothing_verify_warehouse|].
  destruct (String.eqb (strip raw) "3"); [apply commits_nothing_run_sample_queries|].
  apply commits_nothing_print.
Qed.

Lemma etl_main_other_options_write_nothing_witness :
  committed (snd (etl_main demo_env (mkWorld demo_warehouse demo_warehouse [] [" 2 "])))
    = demo_warehouse /\
  commits_nothing (verify_warehouse demo_env) /\
  commits_nothing (run_sample_queries demo_env).
Proof.
  apply (etl_main_other_options_write_nothing demo_env
           (mkWorld demo_warehouse demo_warehouse [] [" 2 "]) " 2 " []).
  - reflexivity.
  - discriminate.
  - discriminate.
Defined.
